(** * connmon: a passive TCP connection monitor

    Shallow embedding of [connmon.cpp] (Pollere connection monitor):
    the flow table, the two correlation tables ([tsTbl], [seqTbl]),
    the per-packet classifier [processPacket], the periodic [cleanUp]
    and the packet loop of [main].

    Conventions of the embedding.
    - [std::unordered_map<std::string, T>] is a [gmap string T].
    - [uint32_t] values are integers in [Z]; every operation that can
      leave the range is followed by [wrap32].  The [int] counters
      ([pktCnt], [flowCnt], ...) are unbounded integers: signed overflow
      is undefined in the source and not reached by any statement below.
    - [double] times are rationals in [Q]: capture times are whole
      numbers of microseconds, and the model computes with them exactly;
      the two age tests of [cleanUp], which the stated bounds depend on,
      round the difference they compare as binary64 does ([dsub]).
    - [flowRec*] values stored in [flows] are the records themselves;
      the only alias the source ever takes ([fr]) points at the record
      stored under the packet's own flow name, and is written back
      under that name. *)

From Stdlib Require Import ZArith QArith Qpower Qround Qabs Lqa Lia Ascii.
From stdpp Require Import gmap strings pretty.

Local Open Scope Z_scope.

(** ** Machine integers *)

Definition wrap32 (x : Z) : Z := x mod 2 ^ 32.

(** Conversion of a [uint32_t] value to [int] (two's complement). *)
Definition to_int32 (x : Z) : Z :=
  let y := wrap32 x in if y <? 2 ^ 31 then y else y - 2 ^ 32.

(** [std::to_string] on an unsigned value: its decimal digits. *)
Definition to_string (x : Z) : string := pretty x.

(** ** Comparison of times *)

(** [x > y] on [double]s. *)
Definition Qgtb (x y : Q) : bool := (Qnum y * QDen x <? Qnum x * QDen y)%Z.

(** [x >= y] on [double]s. *)
Definition Qgeb (x y : Q) : bool := (Qnum y * QDen x <=? Qnum x * QDen y)%Z.

(** [x != 0] for a [double] used as a condition. *)
Definition Qnonzero (x : Q) : bool := negb (Qnum x =? 0)%Z.

(** ** TCP flags *)

(** Modelled from the spec: the enumeration [Tins::TCP::Flags] of
    [tins/tins.h], which is not part of the source tree.  The spec names
    the flag bits SYN, FIN and ACK; their values are the bit positions of
    the TCP header. *)
Definition TCP_FIN : Z := 1.
Definition TCP_SYN : Z := 2.
Definition TCP_ACK : Z := 16.

(** [flags & f] used as a condition. *)
Definition has_flag (flags f : Z) : bool := negb (Z.land flags f =? 0).

(** ** Packets *)

(** What [processPacket] reads of the TCP PDU.  Each number lies in the
    range of its C++ type. *)
Record TCP := {
  sport : Z;                    (* uint16_t *)
  dport : Z;                    (* uint16_t *)
  flags : Z;                    (* the flag bits *)
  seq : Z;                      (* uint32_t *)
  ack_seq : Z;                  (* uint32_t *)
  timestamp : option (Z * Z);   (* (TSval, ECR); [None]: the option is absent *)
  tcp_header_size : Z           (* uint32_t *)
}.

(** What [processPacket] reads of the network layer. *)
Inductive L3 :=
| IPv4 (src_addr dst_addr : string) (tot_len header_size : Z)
| IPv6 (src_addr dst_addr : string) (payload_length header_size : Z)
| NoIP.

Record Packet := {
  ts_seconds : Z;               (* pkt.timestamp().seconds() *)
  ts_microseconds : Z;          (* pkt.timestamp().microseconds() *)
  pdu_header_size : Z;          (* pkt.pdu()->header_size() *)
  ip : L3;
  tcp : option TCP
}.

(** ** Program state *)

Record flowRec := {
  flowname : string;
  lastTm : Q;
  bytesSnt : Z;                 (* a double that holds a sum of lengths *)
  lastSeq : Z;
  lastAck : Z;
  lastPay : Z;
  revFlow : bool
}.

(** [new flowRec(nm)]: every member but the name is value-initialised. *)
Definition new_flowRec (nm : string) : flowRec :=
  {| flowname := nm; lastTm := 0; bytesSnt := 0; lastSeq := 0;
     lastAck := 0; lastPay := 0; revFlow := false |}.

Definition set_revFlow (fr : flowRec) : flowRec :=
  {| flowname := flowname fr; lastTm := lastTm fr; bytesSnt := bytesSnt fr;
     lastSeq := lastSeq fr; lastAck := lastAck fr; lastPay := lastPay fr;
     revFlow := true |}.

(** The settings [main] fixes before the packet loop starts. *)
Record Config := {
  rtdMaxAge : Q;
  flowMaxIdle : Q;
  sumInt : Q;
  maxFlows : Z;
  quick : bool;
  time_to_run : Q;
  maxPackets : Z;
  localIP : string;
  filtLocal : bool
}.

(** The initialisers of the file-scope variables. *)
Definition default_config : Config :=
  {| rtdMaxAge := 10; flowMaxIdle := 300; sumInt := 10; maxFlows := 10000;
     quick := false; time_to_run := 0; maxPackets := 0;
     localIP := ""; filtLocal := true |}.

Record State := {
  flows : gmap string flowRec;
  tsTbl : gmap string Q;
  seqTbl : gmap string Q;
  flowCnt : Z;
  offTm : Z;
  capTm : Q;
  startm : Q;
  pktCnt : Z;
  not_tcp : Z;
  no_TS : Z;
  not_v4or6 : Z;
  uniDir : Z
}.

Definition init_state : State :=
  {| flows := ∅; tsTbl := ∅; seqTbl := ∅; flowCnt := 0; offTm := -1;
     capTm := 0; startm := 0; pktCnt := 0; not_tcp := 0; no_TS := 0;
     not_v4or6 := 0; uniDir := 0 |}.

(** ** Correlation tables *)

(** [addTS]: [try_emplace], or [emplace] guarded by [count(key) == 0]. *)
Definition addTS (key : string) (tm : Q) (tbl : gmap string Q) : gmap string Q :=
  match tbl !! key with
  | None => <[key := tm]> tbl
  | Some _ => tbl
  end.

Definition addSeq (key : string) (tm : Q) (tbl : gmap string Q) : gmap string Q :=
  match tbl !! key with
  | None => <[key := tm]> tbl
  | Some _ => tbl
  end.

(** [getTStm]: the stored time, the entry erased; [-1.] when [at] throws. *)
Definition getTStm (key : string) (tbl : gmap string Q) : Q * gmap string Q :=
  match tbl !! key with
  | Some ti => (ti, delete key tbl)
  | None => ((-1)%Q, tbl)
  end.

Definition getSeqTm (key : string) (tbl : gmap string Q) : Q * gmap string Q :=
  match tbl !! key with
  | Some ti => (ti, delete key tbl)
  | None => ((-1)%Q, tbl)
  end.

(** ** The per-packet classifier *)

(** Addresses and lengths read from the network layer. *)
Record Hdr := {
  ipsstr : string;
  ipdstr : string;
  payLen : Z;
  pktLen : Z
}.

Definition read_l3 (pkt : Packet) (t : TCP) : option Hdr :=
  match ip pkt with
  | IPv4 s d tot hs =>
      Some {| ipsstr := s; ipdstr := d;
              payLen := wrap32 (tot - hs - tcp_header_size t);
              pktLen := wrap32 (tot + pdu_header_size pkt) |}
  | IPv6 s d pl hs =>
      Some {| ipsstr := s; ipdstr := d;
              payLen := wrap32 pl;
              pktLen := wrap32 (pl + hs + pdu_header_size pkt) |}
  | NoIP => None
  end.

Definition srcstr (h : Hdr) (t : TCP) : string :=
  ipsstr h +:+ ":" +:+ to_string (sport t).
Definition dststr (h : Hdr) (t : TCP) : string :=
  ipdstr h +:+ ":" +:+ to_string (dport t).

(** [fstr], the name of the packet's flow. *)
Definition fstr_of (h : Hdr) (t : TCP) : string :=
  srcstr h t +:+ "+" +:+ dststr h t.
(** [dststr + "+" + srcstr], the name of the reverse flow. *)
Definition rstr_of (h : Hdr) (t : TCP) : string :=
  dststr h t +:+ "+" +:+ srcstr h t.

(** Key of a correlation table: a number, ["+"], a flow name. *)
Definition tbl_key (n : Z) (flow : string) : string :=
  to_string n +:+ "+" +:+ flow.

(** The capture clock: [offTm], [startm] and [capTm] after the packet. *)
Definition stamp (st : State) (pkt : Packet) : Z * Q * Q :=
  if offTm st <? 0 then
    let s := (inject_Z (ts_microseconds pkt) * (1 # 1000000))%Q in
    (ts_seconds pkt, s, s)
  else
    let tt := ts_seconds pkt - offTm st in
    (offTm st, startm st,
     (inject_Z tt + inject_Z (ts_microseconds pkt) * (1 # 1000000))%Q).

(** The flow record of [fstr], created when absent: the table, the flow
    count and the record [fr] points at; [None] when the packet is dropped
    because the table is full. *)
Definition acquire (cfg : Config) (fl : gmap string flowRec) (cnt : Z)
    (fstr rstr : string) : option (gmap string flowRec * Z * flowRec) :=
  match fl !! fstr with
  | Some fr => Some (fl, cnt, fr)
  | None =>
      if maxFlows cfg <? cnt then None
      else
        let fl1 := <[fstr := new_flowRec fstr]> fl in
        match fl1 !! rstr with
        | Some r =>
            let fl2 := <[rstr := set_revFlow r]> fl1 in
            Some (<[fstr := set_revFlow (new_flowRec fstr)]> fl2, cnt + 1,
                  set_revFlow (new_flowRec fstr))
        | None => Some (fl1, cnt + 1, new_flowRec fstr)
        end
  end.

(** [!filtLocal || (localIP != ipdstr)] is the negation of this. *)
Definition local_blocked (cfg : Config) (h : Hdr) : bool :=
  filtLocal cfg && bool_decide (localIP cfg = ipdstr h).

(** [no_pping] once the timestamp option has been looked at. *)
Definition no_pping_of (fr : flowRec) (t : TCP) : bool :=
  match timestamp t with
  | None => true
  | Some (rcv_tsval, rcv_tsecr) =>
      negb (revFlow fr)
      || (rcv_tsval =? 0)
      || ((rcv_tsecr =? 0) && negb (has_flag (flags t) TCP_SYN))
  end.

(** The "pping code": [pd], [prtd] and the timestamp table afterwards. *)
Definition pping (cfg : Config) (h : Hdr) (t : TCP) (fr : flowRec)
    (now : Q) (tbl : gmap string Q) : bool * Q * gmap string Q :=
  match timestamp t with
  | Some (rcv_tsval, rcv_tsecr) =>
      if no_pping_of fr t then (false, 0%Q, tbl)
      else
        let tbl1 :=
          if local_blocked cfg h then tbl
          else addTS (tbl_key rcv_tsval (fstr_of h t)) now tbl in
        let '(ti, tbl2) := getTStm (tbl_key rcv_tsecr (rstr_of h t)) tbl1 in
        if Qgtb ti 0 then (true, (now - ti)%Q, tbl2) else (false, 0%Q, tbl2)
  | None => (false, 0%Q, tbl)
  end.

(** The "seqno RTD code": [sd], [srtd] and the sequence table afterwards. *)
Definition seqrtd (cfg : Config) (h : Hdr) (t : TCP) (fr : flowRec)
    (now : Q) (tbl : gmap string Q) : bool * Q * gmap string Q :=
  let seqno := seq t in
  let ackno := ack_seq t in
  if local_blocked cfg h then (false, 0%Q, tbl)
  else
    let tbl1 :=
      if revFlow fr && (0 <? payLen h) then
        let nxt := wrap32 (seqno + payLen h) in
        addSeq (tbl_key nxt (fstr_of h t)) now tbl
      else tbl in
    if revFlow fr
       && ((payLen h =? 0) || negb (ackno =? lastAck fr))
       && has_flag (flags t) TCP_ACK
    then
      let '(ti, tbl2) := getSeqTm (tbl_key ackno (rstr_of h t)) tbl1 in
      if Qgtb ti 0 then (true, (now - ti)%Q, tbl2) else (false, 0%Q, tbl2)
    else (false, 0%Q, tbl1).

(** [dseq] and [ds]. *)
Definition seq_delta (fr : flowRec) (t : TCP) : Z * bool :=
  if lastSeq fr =? 0 then (0, false)
  else
    let dseq := to_int32 (seq t - wrap32 (lastSeq fr + lastPay fr)) in
    (dseq, 0 <? dseq).

(** The next value of [lastSeq]. *)
Definition next_lastSeq (t : TCP) : Z :=
  if has_flag (flags t) TCP_SYN || has_flag (flags t) TCP_FIN
  then wrap32 (seq t + 1) else seq t.

(** Duplicate ACK: the spacing [d] when the test holds, and [dp]. *)
Definition dup_ack (h : Hdr) (t : TCP) (fr : flowRec) (now : Q)
    : option Q * bool :=
  if (flags t =? TCP_ACK) && (payLen h =? 0) && (ack_seq t =? lastAck fr)
  then let d := (now - lastTm fr)%Q in (Some d, Qgtb d 0)
  else (None, false).

(** Everything [processPacket] has computed when it reaches the decision
    to print. *)
Record Class := {
  c_capTm : Q;
  c_pd : bool;
  c_sd : bool;
  c_ds : bool;
  c_dp : bool;
  c_prtd : Q;
  c_srtd : Q;
  c_dseq : Z;
  c_dupDiff : option Q;
  c_payLen : Z;
  c_bytesSnt : Z;
  c_fstr : string
}.

(** A printed line; [None] is a field printed as [*] (or [-]). *)
Record Observation := {
  o_capTm : Q;
  o_prtd : option Q;
  o_srtd : option Q;
  o_dseq : Z;
  o_dupDiff : option Q;
  o_payLen : Z;
  o_bytesSnt : Z;
  o_flow : string
}.

(** The two [return]s before the [printf]s, and the line. *)
Definition emit (cfg : Config) (c : Class) : option Observation :=
  if negb (c_pd c) && negb (c_sd c) && negb (c_ds c) && negb (c_dp c) then None
  else if quick cfg && negb (c_pd c) && negb (c_sd c) then None
  else Some {| o_capTm := c_capTm c;
               o_prtd := if c_pd c then Some (c_prtd c) else None;
               o_srtd := if c_sd c then Some (c_srtd c) else None;
               o_dseq := c_dseq c;
               o_dupDiff := c_dupDiff c;
               o_payLen := c_payLen c;
               o_bytesSnt := c_bytesSnt c;
               o_flow := c_fstr c |}.

(** How far [processPacket] got. *)
Inductive Outcome :=
| NotTCP                 (* no TCP PDU *)
| NotV4or6               (* neither IPv4 nor IPv6 *)
| Dropped                (* flow table full *)
| Classified (c : Class).

(** The part of [processPacket] after the flow record [fr] has been
    found or created in the table [fl] (with [cnt] flows). *)
Definition classified (cfg : Config) (st : State) (pkt : Packet)
    (h : Hdr) (t : TCP) (fl : gmap string flowRec) (cnt : Z) (fr : flowRec)
    : State * Class :=
  let clk := stamp st pkt in
  let now := clk.2 in
  let fstr := fstr_of h t in
  let bytes := bytesSnt fr + pktLen h in
  let uniDir1 := if revFlow fr then uniDir st else uniDir st + 1 in
  let no_TS1 :=
    match timestamp t with Some _ => no_TS st | None => no_TS st + 1 end in
  let pp := pping cfg h t fr now (tsTbl st) in
  let sr := seqrtd cfg h t fr now (seqTbl st) in
  let dq := seq_delta fr t in
  let da := dup_ack h t fr now in
  let fr' := {| flowname := flowname fr; lastTm := now; bytesSnt := bytes;
                lastSeq := next_lastSeq t; lastAck := ack_seq t;
                lastPay := payLen h; revFlow := revFlow fr |} in
  ({| flows := <[fstr := fr']> fl; tsTbl := pp.2; seqTbl := sr.2;
      flowCnt := cnt; offTm := clk.1.1; capTm := now; startm := clk.1.2;
      pktCnt := pktCnt st + 1; not_tcp := not_tcp st; no_TS := no_TS1;
      not_v4or6 := not_v4or6 st; uniDir := uniDir1 |},
   {| c_capTm := now; c_pd := pp.1.1; c_sd := sr.1.1; c_ds := dq.2;
      c_dp := da.2; c_prtd := pp.1.2; c_srtd := sr.1.2;
      c_dseq := dq.1; c_dupDiff := da.1;
      c_payLen := payLen h; c_bytesSnt := bytes; c_fstr := fstr |}).

Definition classify (cfg : Config) (st : State) (pkt : Packet)
    : State * Outcome :=
  match tcp pkt with
  | None =>
      ({| flows := flows st; tsTbl := tsTbl st; seqTbl := seqTbl st;
          flowCnt := flowCnt st; offTm := offTm st; capTm := capTm st;
          startm := startm st; pktCnt := pktCnt st + 1;
          not_tcp := not_tcp st + 1; no_TS := no_TS st;
          not_v4or6 := not_v4or6 st; uniDir := uniDir st |}, NotTCP)
  | Some t =>
  match read_l3 pkt t with
  | None =>
      ({| flows := flows st; tsTbl := tsTbl st; seqTbl := seqTbl st;
          flowCnt := flowCnt st; offTm := offTm st; capTm := capTm st;
          startm := startm st; pktCnt := pktCnt st + 1;
          not_tcp := not_tcp st; no_TS := no_TS st;
          not_v4or6 := not_v4or6 st + 1; uniDir := uniDir st |}, NotV4or6)
  | Some h =>
  match acquire cfg (flows st) (flowCnt st) (fstr_of h t) (rstr_of h t) with
  | None =>
      let clk := stamp st pkt in
      ({| flows := flows st; tsTbl := tsTbl st; seqTbl := seqTbl st;
          flowCnt := flowCnt st; offTm := clk.1.1; capTm := clk.2;
          startm := clk.1.2; pktCnt := pktCnt st + 1;
          not_tcp := not_tcp st; no_TS := no_TS st;
          not_v4or6 := not_v4or6 st; uniDir := uniDir st |}, Dropped)
  | Some (fl, cnt, fr) =>
      let r := classified cfg st pkt h t fl cnt fr in
      (r.1, Classified r.2)
  end end end.

(** [processPacket]: the state afterwards and the line printed, if any. *)
Definition processPacket (cfg : Config) (st : State) (pkt : Packet)
    : State * option Observation :=
  let r := classify cfg st pkt in
  (r.1, match r.2 with Classified c => emit cfg c | _ => None end).

(** ** Arithmetic on [double]s *)

(** Rounding of a rational to the nearest number with 53 significant
    bits, ties to even: the rounding of binary64.  The exponent range is
    left out, so this is the [double] operation as long as it does not
    overflow (a difference of two [double]s below 2^-1022 is exact, and
    so is its rounding here). *)
Definition pow2 (e : Z) : Q := (2 ^ e)%Q.

(** The exponent of a positive rational: [2^e <= x < 2^(e+1)]. *)
Definition ilog2 (x : Q) : Z :=
  let e0 := Z.log2 (Qnum x) - Z.log2 (QDen x) in
  if Qle_bool (pow2 e0) x then e0 else e0 - 1.

(** The nearest integer, ties to even. *)
Definition round_even (q : Q) : Z :=
  let f := Qfloor q in
  match (q - inject_Z f ?= 1 # 2)%Q with
  | Lt => f
  | Gt => f + 1
  | Eq => if Z.even f then f else f + 1
  end.

Definition rnd53_pos (x : Q) : Q :=
  let e := ilog2 x in
  (inject_Z (round_even (x * pow2 (52 - e))) * pow2 (e - 52))%Q.

Definition rnd53 (x : Q) : Q :=
  match Qnum x with
  | Z0 => 0%Q
  | Zpos _ => rnd53_pos x
  | Zneg _ => (- rnd53_pos (- x))%Q
  end.

(** [x - y] on [double]s. *)
Definition dsub (x y : Q) : Q := rnd53 (x - y).

(** ** Periodic clean-up *)

(** An entry of a correlation table is erased when
    [capTm - it->second > rtdMaxAge]. *)
Definition stale (cfg : Config) (now : Q) (e : string * Q) : bool :=
  Qgtb (dsub now e.2) (rtdMaxAge cfg).

(** A flow is deleted when [n - fr->lastTm > flowMaxIdle]. *)
Definition idle (cfg : Config) (n : Q) (e : string * flowRec) : bool :=
  Qgtb (dsub n (lastTm e.2)) (flowMaxIdle cfg).

Definition cleanUp (cfg : Config) (st : State) (n : Q) : State :=
  {| flows := filter (λ e, idle cfg n e = false) (flows st);
     tsTbl := filter (λ e, stale cfg (capTm st) e = false) (tsTbl st);
     seqTbl := filter (λ e, stale cfg (capTm st) e = false) (seqTbl st);
     flowCnt :=
       flowCnt st
       - Z.of_nat (size (filter (λ e, idle cfg n e = true) (flows st)));
     offTm := offTm st; capTm := capTm st; startm := startm st;
     pktCnt := pktCnt st; not_tcp := not_tcp st; no_TS := no_TS st;
     not_v4or6 := not_v4or6 st; uniDir := uniDir st |}.

(** ** The packet loop of [main] *)

Record Loop := {
  l_st : State;
  nxtSum : Q;
  nxtClean : Q
}.

Definition init_loop : Loop :=
  {| l_st := init_state; nxtSum := 0; nxtClean := 0 |}.

(** The counters a periodic summary zeroes. *)
Definition reset_counters (st : State) : State :=
  {| flows := flows st; tsTbl := tsTbl st; seqTbl := seqTbl st;
     flowCnt := flowCnt st; offTm := offTm st; capTm := capTm st;
     startm := startm st; pktCnt := 0; not_tcp := 0; no_TS := 0;
     not_v4or6 := 0; uniDir := 0 |}.

(** The condition of the [break]. *)
Definition stop_now (cfg : Config) (st : State) : bool :=
  (Qgtb (time_to_run cfg) 0
   && Qgeb (capTm st - startm st) (time_to_run cfg))
  || ((0 <? maxPackets cfg) && (maxPackets cfg <=? pktCnt st)).

(** The loop body after the call of [processPacket], when it does not
    [break]: the periodic summary, then the periodic clean-up. *)
Definition housekeeping (cfg : Config) (l : Loop) : Loop :=
  let st := l_st l in
  let summary := Qnonzero (sumInt cfg) && Qgeb (capTm st) (nxtSum l) in
  let st1 :=
    if summary && Qgtb (nxtSum l) 0 then reset_counters st else st in
  let nxtSum1 := if summary then (capTm st + sumInt cfg)%Q else nxtSum l in
  if Qgeb (capTm st1) (nxtClean l) then
    {| l_st := cleanUp cfg st1 (capTm st1); nxtSum := nxtSum1;
       nxtClean := (capTm st1 + rtdMaxAge cfg)%Q |}
  else {| l_st := st1; nxtSum := nxtSum1; nxtClean := nxtClean l |}.

(** One iteration: the loop variables afterwards, the line printed, and
    whether the loop was left by [break]. *)
Definition iteration (cfg : Config) (l : Loop) (pkt : Packet)
    : Loop * option Observation * bool :=
  let r := processPacket cfg (l_st l) pkt in
  let l' := {| l_st := r.1; nxtSum := nxtSum l; nxtClean := nxtClean l |} in
  if stop_now cfg r.1 then (l', r.2, true)
  else (housekeeping cfg l', r.2, false).

(** The loop over the packets the sniffer yields: the loop variables at
    the end, the lines printed, and the number of packets handed to
    [processPacket]. *)
Fixpoint run (cfg : Config) (l : Loop) (pkts : list Packet)
    : Loop * list Observation * nat :=
  match pkts with
  | [] => (l, [], 0%nat)
  | pkt :: rest =>
      let it := iteration cfg l pkt in
      if it.2 then (it.1.1, option_list it.1.2, 1%nat)
      else
        let r := run cfg it.1.1 rest in
        (r.1.1, option_list it.1.2 ++ r.1.2, S r.2)
  end.

(** ** Notions used to state the properties *)

(** One operation of the program on a correlation table. *)
Inductive TblOp :=
| Insert (k : string) (t : Q)     (* addTS / addSeq *)
| Take (k : string)               (* getTStm / getSeqTm *)
| Evict (now : Q).                (* the loop of cleanUp over the table *)

Definition ts_op (cfg : Config) (tbl : gmap string Q) (op : TblOp)
    : gmap string Q :=
  match op with
  | Insert k t => addTS k t tbl
  | Take k => (getTStm k tbl).2
  | Evict now => filter (λ e, stale cfg now e = false) tbl
  end.

Definition seq_op (cfg : Config) (tbl : gmap string Q) (op : TblOp)
    : gmap string Q :=
  match op with
  | Insert k t => addSeq k t tbl
  | Take k => (getSeqTm k tbl).2
  | Evict now => filter (λ e, stale cfg now e = false) tbl
  end.

(** The operation is an insertion under key [k]. *)
Definition inserts (k : string) (op : TblOp) : Prop :=
  match op with
  | Insert k' _ => k' = k
  | _ => False
  end.

(** The loop variables after the loop body has run on each packet of a
    list (every state the loop of [main] goes through is one of these). *)
Definition feed (cfg : Config) (l : Loop) (pkts : list Packet) : Loop :=
  foldl (λ l pkt, (iteration cfg l pkt).1.1) l pkts.

(** The packet has a TCP PDU [t] and an IPv4 or IPv6 PDU read as [h]. *)
Definition parses (pkt : Packet) (h : Hdr) (t : TCP) : Prop :=
  tcp pkt = Some t ∧ read_l3 pkt t = Some h.

(** [fr] is the flow record [processPacket] works on for this packet, [fl]
    and [cnt] the flow table and flow count once it has been acquired. *)
Definition acquired (cfg : Config) (st : State) (h : Hdr) (t : TCP)
    (fl : gmap string flowRec) (cnt : Z) (fr : flowRec) : Prop :=
  acquire cfg (flows st) (flowCnt st) (fstr_of h t) (rstr_of h t)
  = Some (fl, cnt, fr).

(** The condition under which the code looks the ACK number up. *)
Definition seq_lookup_done (cfg : Config) (h : Hdr) (t : TCP) (fr : flowRec)
    : bool :=
  negb (local_blocked cfg h)
  && revFlow fr
  && ((payLen h =? 0) || negb (ack_seq t =? lastAck fr))
  && has_flag (flags t) TCP_ACK.

(** The packet can store a time under key [k] of the timestamp table. *)
Definition pkt_inserts_ts (k : string) (pkt : Packet) : Prop :=
  ∃ h t v e, parses pkt h t ∧ timestamp t = Some (v, e)
             ∧ tbl_key v (fstr_of h t) = k.

(** The packet can store a time under key [k] of the sequence table. *)
Definition pkt_inserts_seq (k : string) (pkt : Packet) : Prop :=
  ∃ h t, parses pkt h t
         ∧ tbl_key (wrap32 (seq t + payLen h)) (fstr_of h t) = k.

(** [flowCnt] is the number of records in the flow table, and it is at
    most [maxFlows + 1]. *)
Definition flow_count_ok (cfg : Config) (st : State) : Prop :=
  flowCnt st = Z.of_nat (size (flows st)) ∧ flowCnt st <= maxFlows cfg + 1.

(** ** Flow names *)

(** The string has no ['+'], the separator of the two endpoints in a flow
    name (no address printed by [to_string] has one). *)
Fixpoint plus_free (s : string) : bool :=
  match s with
  | EmptyString => true
  | String c s' => negb (Ascii.eqb c "+"%char) && plus_free s'
  end.

(** The parts of a string before and after its first ['+']. *)
Fixpoint split_plus (s : string) : option (string * string) :=
  match s with
  | EmptyString => None
  | String c s' =>
      if Ascii.eqb c "+"%char then Some (EmptyString, s')
      else match split_plus s' with
           | Some (a, b) => Some (String c a, b)
           | None => None
           end
  end.

(** The name of the reverse flow, from the name of a flow. *)
Definition rev_name (k : string) : string :=
  match split_plus k with
  | Some (a, b) => b +:+ "+" +:+ a
  | None => k
  end.

(** The addresses of the packet are free of ['+']. *)
Definition wf_pkt (pkt : Packet) : bool :=
  match ip pkt with
  | IPv4 s d _ _ | IPv6 s d _ _ => plus_free s && plus_free d
  | NoIP => true
  end.

(** The flow name [processPacket] computes for the packet, when it gets
    that far. *)
Definition flow_name (pkt : Packet) : option string :=
  match tcp pkt with
  | Some t =>
      match read_l3 pkt t with
      | Some h => Some (fstr_of h t)
      | None => None
      end
  | None => None
  end.

(** Every flow of the table has been seen in a packet, and so has the
    reverse of every flow marked as bidirectional. *)
Definition flows_seen (seen : list string) (fl : gmap string flowRec) : Prop :=
  ∀ k fr, fl !! k = Some fr →
          k ∈ seen ∧ (revFlow fr = true → rev_name k ∈ seen).

(** ** Sample packets *)

(** A TCP segment over IPv4 inside an Ethernet frame: 14 bytes of link
    header, 20 of IP header, 20 of TCP header and 12 more when the
    timestamp option is there. *)
Definition tcp4 (sec usec : Z) (src : string) (sp : Z) (dst : string)
    (dp : Z) (fl sq ak : Z) (ts : option (Z * Z)) (pay : Z) : Packet :=
  let thl := match ts with Some _ => 32 | None => 20 end in
  {| ts_seconds := sec; ts_microseconds := usec; pdu_header_size := 14;
     ip := IPv4 src dst (20 + thl + pay) 20;
     tcp := Some {| sport := sp; dport := dp; flags := fl; seq := sq;
                    ack_seq := ak; timestamp := ts;
                    tcp_header_size := thl |} |}.

(** The two endpoints of the sample connections. *)
Definition hostA : string := "10.0.0.1".
Definition hostB : string := "10.0.0.2".

(** A connection between [hostA] and [hostB]: the handshake, a data
    segment of 50 bytes from A at 1.0 s, its acknowledgement by B at 1.05 s
    echoing A's TSval 100, and the same acknowledgement again at 1.1 s. *)
Definition ping_open : list Packet :=
  [ tcp4 1525700000 0 hostA 5000 hostB 80 TCP_SYN 999 0 (Some (7, 0)) 0;
    tcp4 1525700000 500000 hostB 80 hostA 5000 (TCP_SYN + TCP_ACK) 4999 1000
         (Some (50, 7)) 0;
    tcp4 1525700001 0 hostA 5000 hostB 80 TCP_ACK 1000 5000
         (Some (100, 50)) 50 ].
Definition ping_ack1 : Packet :=
  tcp4 1525700001 50000 hostB 80 hostA 5000 TCP_ACK 5000 1050
       (Some (60, 100)) 0.
Definition ping_ack2 : Packet :=
  tcp4 1525700001 100000 hostB 80 hostA 5000 TCP_ACK 5000 1050
       (Some (61, 100)) 0.
Definition ping_trace : list Packet := ping_open ++ [ping_ack1; ping_ack2].

(** The two RTT fields of a line, in lowest terms. *)
Definition rtts (o : Observation) : option Q * option Q :=
  (Qred <$> o_prtd o, Qred <$> o_srtd o).

(** The capture host is [hostA] and the local filter is on (a live
    capture on an interface whose address is 10.0.0.1). *)
Definition local_config : Config :=
  {| rtdMaxAge := 10; flowMaxIdle := 300; sumInt := 10; maxFlows := 10000;
     quick := false; time_to_run := 0; maxPackets := 0;
     localIP := hostA; filtLocal := true |}.
Definition local_st : State :=
  l_st (feed local_config init_loop ping_open).
Definition ack1_hdr : Hdr :=
  {| ipsstr := hostB; ipdstr := hostA; payLen := 0; pktLen := 66 |}.
Definition ack1_tcp : TCP :=
  {| sport := 80; dport := 5000; flags := TCP_ACK; seq := 5000;
     ack_seq := 1050; timestamp := Some (60, 100); tcp_header_size := 32 |}.
Definition ack1_fr : flowRec :=
  default (new_flowRec "") (flows local_st !! fstr_of ack1_hdr ack1_tcp).

(** Out of order: a segment with sequence number 1100 and 100 bytes at
    1.0 s, then the segment with sequence number 1000 at 1.1 s. *)
Definition ooo_pkt1 : Packet :=
  tcp4 1525700001 0 hostA 5000 hostB 80 TCP_ACK 1100 1 None 100.
Definition ooo_pkt2 : Packet :=
  tcp4 1525700001 100000 hostA 5000 hostB 80 TCP_ACK 1000 1 None 100.
Definition ooo_st : State :=
  l_st (feed default_config init_loop [ooo_pkt1]).
Definition ooo_hdr : Hdr :=
  {| ipsstr := hostA; ipdstr := hostB; payLen := 100; pktLen := 154 |}.
Definition ooo_tcp : TCP :=
  {| sport := 5000; dport := 80; flags := TCP_ACK; seq := 1000;
     ack_seq := 1; timestamp := None; tcp_header_size := 20 |}.
Definition ooo_fr : flowRec :=
  default (new_flowRec "") (flows ooo_st !! fstr_of ooo_hdr ooo_tcp).

(** Two pure ACKs with the same ACK number and the same capture time. *)
Definition dupack_pkt : Packet :=
  tcp4 1525700002 0 hostB 80 hostA 5000 TCP_ACK 7000 5000 None 0.
Definition dupack_st : State :=
  l_st (feed default_config init_loop [dupack_pkt]).
Definition dupack_hdr : Hdr :=
  {| ipsstr := hostB; ipdstr := hostA; payLen := 0; pktLen := 54 |}.
Definition dupack_tcp : TCP :=
  {| sport := 80; dport := 5000; flags := TCP_ACK; seq := 7000;
     ack_seq := 5000; timestamp := None; tcp_header_size := 20 |}.
Definition dupack_fr : flowRec :=
  default (new_flowRec "")
          (flows dupack_st !! fstr_of dupack_hdr dupack_tcp).

(** A connection whose first two packets are captured within the same
    microsecond, the second one at a whole second, so that both are stamped
    with capture time 0; the third packet echoes the TSval and acknowledges
    the data of the second. *)
Definition zero_pkt1 : Packet :=
  tcp4 1525700000 0 hostA 5000 hostB 80 TCP_SYN 999 0 (Some (7, 0)) 0.
Definition zero_pkt2 : Packet :=
  tcp4 1525700000 0 hostB 80 hostA 5000 TCP_ACK 5000 1000 (Some (50, 7)) 10.
Definition zero_pkt3 : Packet :=
  tcp4 1525700000 50000 hostA 5000 hostB 80 TCP_ACK 1000 5010
       (Some (8, 50)) 0.
Definition zero_st : State :=
  l_st (feed default_config init_loop [zero_pkt1; zero_pkt2]).
Definition zero_hdr : Hdr :=
  {| ipsstr := hostA; ipdstr := hostB; payLen := 0; pktLen := 66 |}.
Definition zero_tcp : TCP :=
  {| sport := 5000; dport := 80; flags := TCP_ACK; seq := 1000;
     ack_seq := 5010; timestamp := Some (8, 50); tcp_header_size := 32 |}.
Definition zero_fr : flowRec :=
  default (new_flowRec "") (flows zero_st !! fstr_of zero_hdr zero_tcp).

(** A table entry exactly [rtdMaxAge] old when [cleanUp] runs: the
    connection opens at capture time 0.5 s, the SYN-ACK stores its TSval
    50, and the next packet arrives 10 s later. *)
Definition evict_trace : list Packet :=
  [ tcp4 1525700000 500000 hostA 5000 hostB 80 TCP_SYN 999 0 (Some (7, 0)) 0;
    tcp4 1525700000 500000 hostB 80 hostA 5000 (TCP_SYN + TCP_ACK) 4999 1000
         (Some (50, 7)) 0;
    tcp4 1525700010 500000 hostA 5000 hostB 80 TCP_ACK 1000 5000 None 0 ].

(** A connection seen in one direction only: its first two packets, and
    a third one. *)
Definition oneway_pkts : list Packet :=
  [ tcp4 1525700000 0 hostA 5000 hostB 80 TCP_SYN 999 0 (Some (7, 0)) 0;
    tcp4 1525700000 200000 hostA 5000 hostB 80 TCP_ACK 1000 1
         (Some (8, 3)) 100 ].
Definition oneway_pkt : Packet :=
  tcp4 1525700000 400000 hostA 5000 hostB 80 TCP_ACK 1100 1 (Some (9, 3)) 100.
Definition oneway_hdr : Hdr :=
  {| ipsstr := hostA; ipdstr := hostB; payLen := 100; pktLen := 166 |}.
Definition oneway_tcp : TCP :=
  {| sport := 5000; dport := 80; flags := TCP_ACK; seq := 1100;
     ack_seq := 1; timestamp := Some (9, 3); tcp_header_size := 32 |}.

(** [connmon -c 3]: stop after three packets; summaries every 10 s, as
    by default. *)
Definition count_config : Config :=
  {| rtdMaxAge := 10; flowMaxIdle := 300; sumInt := 10; maxFlows := 10000;
     quick := false; time_to_run := 0; maxPackets := 3;
     localIP := ""; filtLocal := true |}.

(** [connmon -c 3 -q]: the same without summaries. *)
Definition quiet_count_config : Config :=
  {| rtdMaxAge := 10; flowMaxIdle := 300; sumInt := 0; maxFlows := 10000;
     quick := false; time_to_run := 0; maxPackets := 3;
     localIP := ""; filtLocal := true |}.

(** Five segments of one flow, 11 s apart. *)
Definition slow_trace : list Packet :=
  [ tcp4 1525700000 0 hostA 5000 hostB 80 TCP_ACK 1000 1 None 100;
    tcp4 1525700011 0 hostA 5000 hostB 80 TCP_ACK 1100 1 None 100;
    tcp4 1525700022 0 hostA 5000 hostB 80 TCP_ACK 1200 1 None 100;
    tcp4 1525700033 0 hostA 5000 hostB 80 TCP_ACK 1300 1 None 100;
    tcp4 1525700044 0 hostA 5000 hostB 80 TCP_ACK 1400 1 None 100 ].

(** A port scan: SYN segments from [hostA] to port 80 of [hostB], one per
    source port, all captured within the same microsecond. *)
Definition scan_hdr : Hdr :=
  {| ipsstr := hostA; ipdstr := hostB; payLen := 0; pktLen := 54 |}.
Definition scan_tcp (i : Z) : TCP :=
  {| sport := i; dport := 80; flags := TCP_SYN; seq := 0; ack_seq := 0;
     timestamp := None; tcp_header_size := 20 |}.
Definition scan_pkt (i : Z) : Packet :=
  tcp4 1525700000 0 hostA i hostB 80 TCP_SYN 0 0 None 0.
Definition scan_trace (n : Z) : list Packet := scan_pkt <$> seqZ 1 n.
Definition scan_name (i : Z) : string := fstr_of scan_hdr (scan_tcp i).

(** The loop variables during the scan, after [n] of its packets: the
    clock origin and the next summary and clean-up times are those set on
    the first packet, and the flow table has exactly one record for each
    of the [n] source ports. *)
Definition scan_inv (l : Loop) (n : Z) : Prop :=
  offTm (l_st l) = 1525700000
  ∧ nxtSum l = (10000000 # 1000000)%Q
  ∧ nxtClean l = (10000000 # 1000000)%Q
  ∧ flowCnt (l_st l) = n
  ∧ Z.of_nat (size (flows (l_st l))) = n
  ∧ ∀ k, is_Some (flows (l_st l) !! k) → ∃ j, 1 <= j <= n ∧ k = scan_name j.

(** ** Output flushing *)

(** [clock_now]: the time of day [(tv_sec, tv_usec)] as a fixed-point
    number with the binary point at bit 20. *)
Definition clock_now (tv_sec tv_usec : Z) : Z :=
  Z.lor (Z.shiftl tv_sec 20) tv_usec.

(** [flushInt]: [1 << 20] by its initialiser, divided by 10 in [main] for
    a live capture with machine-readable output. *)
Definition flushInt_of (liveInp machineReadable : bool) : Z :=
  if liveInp && machineReadable then Z.quot (Z.shiftl 1 20) 10
  else Z.shiftl 1 20.

(** The end of [processPacket] after a line was printed, [now] being the
    value of [clock_now()]: the next flush time, and whether [stdout] is
    flushed. *)
Definition flush_step (flushInt nextFlush now : Z) : Z * bool :=
  if 0 <=? now - nextFlush then (now + flushInt, true)
  else (nextFlush, false).

(** ** The local address *)

(** An entry of the list [getifaddrs] returns: its name and, unless
    [ifa_addr] is a null pointer, the family and the IPv4 address of the
    socket address. *)
Record ifaddrs := {
  ifa_name : string;
  ifa_addr : option (Z * Z)
}.

Definition AF_INET : Z := 2.

(** [localAddrOf] on the list of interface addresses; [render] stands for
    [IPv4Address(ip).to_string()] of the packet library.  [None]: the
    function dereferences a null [ifa_addr]. *)
Fixpoint localAddrOf_list (render : Z → string) (ifname : string)
    (ifap : list ifaddrs) : option string :=
  match ifap with
  | [] => Some ""
  | ifp :: rest =>
      if bool_decide (ifname = ifa_name ifp) then
        match ifa_addr ifp with
        | None => None
        | Some (family, ip) =>
            if family =? AF_INET then Some (render ip)
            else localAddrOf_list render ifname rest
        end
      else localAddrOf_list render ifname rest
  end.

(** [localAddrOf]; the argument is [None] when [getifaddrs] fails. *)
Definition localAddrOf (render : Z → string) (ifname : string)
    (ifap : option (list ifaddrs)) : option string :=
  match ifap with
  | Some l => localAddrOf_list render ifname l
  | None => Some ""
  end.

(** The entry has the name looked for and is not an IPv4 address. *)
Definition other_family (ifname : string) (e : ifaddrs) : Prop :=
  ifa_name e = ifname → ∃ family ip, ifa_addr e = Some (family, ip)
                                      ∧ family ≠ AF_INET.

(** ** The command line *)

(** The options [getopt_long] hands to the [switch] of [main], numeric
    arguments as [atof] reads them. *)
Inductive Opt :=
| Opt_i (ifname : string)
| Opt_r (file : string)
| Opt_f (expr : string)
| Opt_c (num : Q)
| Opt_s (num : Q)
| Opt_q
| Opt_v
| Opt_l
| Opt_m
| Opt_Q
| Opt_S (num : Q)
| Opt_M (num : Q)
| Opt_F (num : Q)
| Opt_h
| Opt_other.       (* [-d uri], or an option [getopt_long] does not know *)

(** The variables the options set. *)
Record Settings := {
  s_liveInp : bool;
  s_fname : string;
  s_filter : string;
  s_maxPackets : Z;
  s_time_to_run : Q;
  s_sumInt : Q;
  s_filtLocal : bool;
  s_machineReadable : bool;
  s_quick : bool;
  s_rtdMaxAge : Q;
  s_flowMaxIdle : Q
}.

Definition init_settings : Settings :=
  {| s_liveInp := false; s_fname := ""; s_filter := "tcp";
     s_maxPackets := 0; s_time_to_run := 0; s_sumInt := 10;
     s_filtLocal := true; s_machineReadable := false; s_quick := false;
     s_rtdMaxAge := 10; s_flowMaxIdle := 300 |}.

(** Conversion of a [double] to [int]: the fraction is discarded. *)
Definition Qtrunc (x : Q) : Z := Z.quot (Qnum x) (QDen x).

(** One [case] of the [switch]; [None]: [-h], the program exits. *)
Definition apply_opt (s : Settings) (o : Opt) : option Settings :=
  match o with
  | Opt_i n =>
      Some {| s_liveInp := true; s_fname := n; s_filter := s_filter s;
              s_maxPackets := s_maxPackets s;
              s_time_to_run := s_time_to_run s; s_sumInt := s_sumInt s;
              s_filtLocal := s_filtLocal s;
              s_machineReadable := s_machineReadable s;
              s_quick := s_quick s; s_rtdMaxAge := s_rtdMaxAge s;
              s_flowMaxIdle := s_flowMaxIdle s |}
  | Opt_r n =>
      Some {| s_liveInp := s_liveInp s; s_fname := n;
              s_filter := s_filter s; s_maxPackets := s_maxPackets s;
              s_time_to_run := s_time_to_run s; s_sumInt := s_sumInt s;
              s_filtLocal := s_filtLocal s;
              s_machineReadable := s_machineReadable s;
              s_quick := s_quick s; s_rtdMaxAge := s_rtdMaxAge s;
              s_flowMaxIdle := s_flowMaxIdle s |}
  | Opt_f e =>
      Some {| s_liveInp := s_liveInp s; s_fname := s_fname s;
              s_filter := s_filter s +:+ (" and (" +:+ e +:+ ")");
              s_maxPackets := s_maxPackets s;
              s_time_to_run := s_time_to_run s; s_sumInt := s_sumInt s;
              s_filtLocal := s_filtLocal s;
              s_machineReadable := s_machineReadable s;
              s_quick := s_quick s; s_rtdMaxAge := s_rtdMaxAge s;
              s_flowMaxIdle := s_flowMaxIdle s |}
  | Opt_c n =>
      Some {| s_liveInp := s_liveInp s; s_fname := s_fname s;
              s_filter := s_filter s; s_maxPackets := Qtrunc n;
              s_time_to_run := s_time_to_run s; s_sumInt := s_sumInt s;
              s_filtLocal := s_filtLocal s;
              s_machineReadable := s_machineReadable s;
              s_quick := s_quick s; s_rtdMaxAge := s_rtdMaxAge s;
              s_flowMaxIdle := s_flowMaxIdle s |}
  | Opt_s n =>
      Some {| s_liveInp := s_liveInp s; s_fname := s_fname s;
              s_filter := s_filter s; s_maxPackets := s_maxPackets s;
              s_time_to_run := n; s_sumInt := s_sumInt s;
              s_filtLocal := s_filtLocal s;
              s_machineReadable := s_machineReadable s;
              s_quick := s_quick s; s_rtdMaxAge := s_rtdMaxAge s;
              s_flowMaxIdle := s_flowMaxIdle s |}
  | Opt_q =>
      Some {| s_liveInp := s_liveInp s; s_fname := s_fname s;
              s_filter := s_filter s; s_maxPackets := s_maxPackets s;
              s_time_to_run := s_time_to_run s; s_sumInt := 0;
              s_filtLocal := s_filtLocal s;
              s_machineReadable := s_machineReadable s;
              s_quick := s_quick s; s_rtdMaxAge := s_rtdMaxAge s;
              s_flowMaxIdle := s_flowMaxIdle s |}
  | Opt_v => Some s
  | Opt_l =>
      Some {| s_liveInp := s_liveInp s; s_fname := s_fname s;
              s_filter := s_filter s; s_maxPackets := s_maxPackets s;
              s_time_to_run := s_time_to_run s; s_sumInt := s_sumInt s;
              s_filtLocal := false;
              s_machineReadable := s_machineReadable s;
              s_quick := s_quick s; s_rtdMaxAge := s_rtdMaxAge s;
              s_flowMaxIdle := s_flowMaxIdle s |}
  | Opt_m =>
      Some {| s_liveInp := s_liveInp s; s_fname := s_fname s;
              s_filter := s_filter s; s_maxPackets := s_maxPackets s;
              s_time_to_run := s_time_to_run s; s_sumInt := s_sumInt s;
              s_filtLocal := s_filtLocal s; s_machineReadable := true;
              s_quick := s_quick s; s_rtdMaxAge := s_rtdMaxAge s;
              s_flowMaxIdle := s_flowMaxIdle s |}
  | Opt_Q =>
      Some {| s_liveInp := s_liveInp s; s_fname := s_fname s;
              s_filter := s_filter s; s_maxPackets := s_maxPackets s;
              s_time_to_run := s_time_to_run s; s_sumInt := s_sumInt s;
              s_filtLocal := s_filtLocal s;
              s_machineReadable := s_machineReadable s;
              s_quick := true; s_rtdMaxAge := s_rtdMaxAge s;
              s_flowMaxIdle := s_flowMaxIdle s |}
  | Opt_S n =>
      Some {| s_liveInp := s_liveInp s; s_fname := s_fname s;
              s_filter := s_filter s; s_maxPackets := s_maxPackets s;
              s_time_to_run := s_time_to_run s; s_sumInt := n;
              s_filtLocal := s_filtLocal s;
              s_machineReadable := s_machineReadable s;
              s_quick := s_quick s; s_rtdMaxAge := s_rtdMaxAge s;
              s_flowMaxIdle := s_flowMaxIdle s |}
  | Opt_M n =>
      Some {| s_liveInp := s_liveInp s; s_fname := s_fname s;
              s_filter := s_filter s; s_maxPackets := s_maxPackets s;
              s_time_to_run := s_time_to_run s; s_sumInt := s_sumInt s;
              s_filtLocal := s_filtLocal s;
              s_machineReadable := s_machineReadable s;
              s_quick := s_quick s; s_rtdMaxAge := n;
              s_flowMaxIdle := s_flowMaxIdle s |}
  | Opt_F n =>
      Some {| s_liveInp := s_liveInp s; s_fname := s_fname s;
              s_filter := s_filter s; s_maxPackets := s_maxPackets s;
              s_time_to_run := s_time_to_run s; s_sumInt := s_sumInt s;
              s_filtLocal := s_filtLocal s;
              s_machineReadable := s_machineReadable s;
              s_quick := s_quick s; s_rtdMaxAge := s_rtdMaxAge s;
              s_flowMaxIdle := n |}
  | Opt_h => None
  | Opt_other => Some s
  end.

(** The loop over the options. *)
Fixpoint parse_opts (s : Settings) (opts : list Opt) : option Settings :=
  match opts with
  | [] => Some s
  | o :: rest =>
      match apply_opt s o with
      | Some s' => parse_opts s' rest
      | None => None
      end
  end.

(** How the start of [main] ends. *)
Inductive Start :=
| Exit (code : Z)
| Proceed (s : Settings).

(** [main] up to the opening of the capture: [argc], the options, and
    whether arguments are left over ([optind < argc]). *)
Definition start (argc : Z) (opts : list Opt) (leftover : bool) : Start :=
  if argc <=? 1 then Exit 1
  else
    match parse_opts init_settings opts with
    | None => Exit 0
    | Some s =>
        if leftover || bool_decide (s_fname s = "") then Exit 1
        else Proceed s
    end.

(** The [-f] expressions of a command line, as they are appended to the
    filter. *)
Fixpoint filter_suffix (opts : list Opt) : string :=
  match opts with
  | [] => ""
  | Opt_f e :: rest => (" and (" +:+ e +:+ ")") +:+ filter_suffix rest
  | _ :: rest => filter_suffix rest
  end.

(** ** What the run writes *)

(** What an iteration of the loop of [main] writes: the line of
    [processPacket], a periodic summary (with the counters it prints), or
    the summary and the "Captured ..." line of the [break]. *)
Inductive Event :=
| Line (o : Observation)
| Summary (st : State)
| Final (st : State).

(** The summary is due and is printed (it is not at the first packet). *)
Definition summary_printed (cfg : Config) (l : Loop) : bool :=
  Qnonzero (sumInt cfg) && Qgeb (capTm (l_st l)) (nxtSum l)
  && Qgtb (nxtSum l) 0.

(** The loop of [main] with what it writes; see [run]. *)
Fixpoint run_log (cfg : Config) (l : Loop) (pkts : list Packet)
    : list Event :=
  match pkts with
  | [] => []
  | pkt :: rest =>
      let r := processPacket cfg (l_st l) pkt in
      let l' := {| l_st := r.1; nxtSum := nxtSum l; nxtClean := nxtClean l |} in
      let line := match r.2 with Some o => [Line o] | None => [] end in
      if stop_now cfg r.1 then line ++ [Final r.1]
      else
        line
        ++ (if summary_printed cfg l' then [Summary r.1] else [])
        ++ run_log cfg (housekeeping cfg l') rest
  end.

(** The packet counts of the periodic summaries. *)
Fixpoint summarized (log : list Event) : Z :=
  match log with
  | [] => 0
  | Summary st :: rest => pktCnt st + summarized rest
  | _ :: rest => summarized rest
  end.

(** The lines among the events. *)
Fixpoint lines_of (log : list Event) : list Observation :=
  match log with
  | [] => []
  | Line o :: rest => o :: lines_of rest
  | _ :: rest => lines_of rest
  end.

(** ** Capture times in order *)

(** The capture time of a packet in microseconds. *)
Definition ptime (pkt : Packet) : Z :=
  ts_seconds pkt * 1000000 + ts_microseconds pkt.

(** The packets come with capture times that do not decrease, from [lo]
    on, and that are not before the epoch. *)
Fixpoint in_order (lo : Z) (pkts : list Packet) : Prop :=
  match pkts with
  | [] => True
  | pkt :: rest =>
      0 <= ts_seconds pkt ∧ 0 <= ts_microseconds pkt
      ∧ lo <= ptime pkt ∧ in_order (ptime pkt) rest
  end.

(** The times kept in the tables and in the flow records are not later
    than the capture clock. *)
Definition times_ok (st : State) : Prop :=
  (∀ k t, tsTbl st !! k = Some t → (t <= capTm st)%Q)
  ∧ (∀ k t, seqTbl st !! k = Some t → (t <= capTm st)%Q)
  ∧ (∀ k fr, flows st !! k = Some fr → (lastTm fr <= capTm st)%Q).

(** The capture clock shows the time [lo] (in microseconds) of the last
    packet it was set from, or it has not been set yet. *)
Definition clock_at (st : State) (lo : Z) : Prop :=
  (offTm st < 0 ∧ (capTm st == 0)%Q)
  ∨ (0 <= offTm st
     ∧ ∃ lo', lo' <= lo ∧ 0 <= lo' - offTm st * 1000000
         ∧ (capTm st == inject_Z (lo' - offTm st * 1000000) * (1 # 1000000))%Q).

(** The name in a record is the key it is stored under. *)
Definition names_ok (fl : gmap string flowRec) : Prop :=
  ∀ k fr, fl !! k = Some fr → flowname fr = k.

(** The counters of the summary: none is negative, and the packets without
    TCP, without IPv4 or IPv6, and those of one-directional flows (or those
    without timestamp option) are distinct packets among those counted. *)
Definition counters_ok (st : State) : Prop :=
  0 <= not_tcp st ∧ 0 <= not_v4or6 st ∧ 0 <= uniDir st ∧ 0 <= no_TS st
  ∧ not_tcp st + not_v4or6 st + uniDir st <= pktCnt st
  ∧ not_tcp st + not_v4or6 st + no_TS st <= pktCnt st.

(** A flow whose first segment has sequence number 0. *)
Definition zseq_pkt1 : Packet :=
  tcp4 1525700000 0 hostA 5000 hostB 80 TCP_ACK 0 1 None 100.
Definition zseq_pkt2 : Packet :=
  tcp4 1525700001 0 hostA 5000 hostB 80 TCP_ACK 5000 1 None 100.
Definition zseq_hdr : Hdr :=
  {| ipsstr := hostA; ipdstr := hostB; payLen := 100; pktLen := 154 |}.
Definition zseq_tcp1 : TCP :=
  {| sport := 5000; dport := 80; flags := TCP_ACK; seq := 0;
     ack_seq := 1; timestamp := None; tcp_header_size := 20 |}.
Definition zseq_tcp2 : TCP :=
  {| sport := 5000; dport := 80; flags := TCP_ACK; seq := 5000;
     ack_seq := 1; timestamp := None; tcp_header_size := 20 |}.
Definition zseq_r1 : State * Class :=
  classified default_config init_state zseq_pkt1 zseq_hdr zseq_tcp1
    {[ fstr_of zseq_hdr zseq_tcp1 := new_flowRec (fstr_of zseq_hdr zseq_tcp1) ]}
    1 (new_flowRec (fstr_of zseq_hdr zseq_tcp1)).

(** The handshake of the sample connection, the data segment that follows
    it and its headers, and the headers of its acknowledgement. *)
Definition ping_hs_st : State :=
  l_st (feed default_config init_loop (take 2 ping_open)).
Definition ping_data : Packet :=
  tcp4 1525700001 0 hostA 5000 hostB 80 TCP_ACK 1000 5000 (Some (100, 50)) 50.
Definition data_hdr : Hdr :=
  {| ipsstr := hostA; ipdstr := hostB; payLen := 50; pktLen := 116 |}.
Definition data_tcp : TCP :=
  {| sport := 5000; dport := 80; flags := TCP_ACK; seq := 1000;
     ack_seq := 5000; timestamp := Some (100, 50); tcp_header_size := 32 |}.
Definition data_fr : flowRec :=
  default (new_flowRec "") (flows ping_hs_st !! fstr_of data_hdr data_tcp).
Definition data_r : State * Class :=
  classified default_config ping_hs_st ping_data data_hdr data_tcp
    (flows ping_hs_st) (flowCnt ping_hs_st) data_fr.
Definition ack_fr : flowRec :=
  default (new_flowRec "") (flows data_r.1 !! fstr_of ack1_hdr ack1_tcp).
Definition ack_r : State * Class :=
  classified default_config data_r.1 ping_ack1 ack1_hdr ack1_tcp
    (flows data_r.1) (flowCnt data_r.1) ack_fr.

(** The times of a printed line: the capture time is not negative, an RTT
    is not negative and is below the capture time, the spacing of a
    duplicate ACK is not negative. *)
Definition line_times_ok (o : Observation) : Prop :=
  (0 <= o_capTm o)%Q
  ∧ (∀ d, o_prtd o = Some d → (0 <= d)%Q ∧ (d < o_capTm o)%Q)
  ∧ (∀ d, o_srtd o = Some d → (0 <= d)%Q ∧ (d < o_capTm o)%Q)
  ∧ (∀ d, o_dupDiff o = Some d → (0 <= d)%Q).

(** ** From the command line to the packet loop *)

(** [main] between the options and the loop: [filtLocal] and [localIP]
    once the capture is open, [local] being what [localAddrOf(fname)]
    returns (it is called for a live capture with the filter on only). *)
Definition local_setup (s : Settings) (local : string) : bool * string :=
  if s_liveInp s then
    if s_filtLocal s then (negb (bool_decide (local = "")), local)
    else (false, "")
  else (s_filtLocal s, "").

(** The settings of the packet loop. *)
Definition config_of (s : Settings) (local : string) : Config :=
  {| rtdMaxAge := s_rtdMaxAge s; flowMaxIdle := s_flowMaxIdle s;
     sumInt := s_sumInt s; maxFlows := 10000; quick := s_quick s;
     time_to_run := s_time_to_run s; maxPackets := s_maxPackets s;
     localIP := (local_setup s local).2;
     filtLocal := (local_setup s local).1 |}.

(** The state after the SYN of the sample connection, the SYN+ACK that
    answers it and its headers; and the same with room for one flow only. *)
Definition syn_st : State :=
  l_st (feed default_config init_loop (take 1 ping_open)).
Definition synack_pkt : Packet :=
  tcp4 1525700000 500000 hostB 80 hostA 5000 (TCP_SYN + TCP_ACK) 4999 1000
       (Some (50, 7)) 0.
Definition synack_hdr : Hdr :=
  {| ipsstr := hostB; ipdstr := hostA; payLen := 0; pktLen := 66 |}.
Definition synack_tcp : TCP :=
  {| sport := 80; dport := 5000; flags := TCP_SYN + TCP_ACK; seq := 4999;
     ack_seq := 1000; timestamp := Some (50, 7); tcp_header_size := 32 |}.
Definition one_flow_config : Config :=
  {| rtdMaxAge := 10; flowMaxIdle := 300; sumInt := 10; maxFlows := 0;
     quick := false; time_to_run := 0; maxPackets := 0;
     localIP := ""; filtLocal := true |}.
Definition one_flow_st : State :=
  l_st (feed one_flow_config init_loop (take 1 ping_open)).

(** A state whose times are [double]s off the microsecond grid: the
    capture clock shows the [double] nearest to 10.000064, and a table
    entry and a flow record carry the [double] nearest to 0.000064. *)
Definition d_old : Q := rnd53 (64 # 1000000).
Definition d_now : Q := rnd53 (10000064 # 1000000).
Definition d_late : Q := rnd53 (300000064 # 1000000).
Definition round_st : State :=
  {| flows := {[ "10.0.0.1:5000+10.0.0.2:80" :=
                 {| flowname := "10.0.0.1:5000+10.0.0.2:80"; lastTm := d_old;
                    bytesSnt := 66; lastSeq := 1000; lastAck := 0;
                    lastPay := 0; revFlow := true |} ]};
     tsTbl := {[ "7+10.0.0.1:5000+10.0.0.2:80" := d_old ]};
     seqTbl := ∅; flowCnt := 1; offTm := 1525700000; capTm := d_now;
     startm := d_old; pktCnt := 2; not_tcp := 0; no_TS := 0;
     not_v4or6 := 0; uniDir := 0 |}.

(** * Properties *)

(** Closes an equation between closed terms by evaluating both sides on
    the virtual machine. *)
Ltac vm_refl :=
  unfold acquired;
  lazymatch goal with
  | |- ?a = ?b =>
      first [ exact (@eq_refl _ b <: a = b) | vm_compute; reflexivity ]
  | |- _ => vm_compute; reflexivity
  end.

(** ** Comparisons *)

Lemma Qgtb_true (x y : Q) : Qgtb x y = true ↔ (y < x)%Q.
Proof. unfold Qgtb, Qlt. apply Z.ltb_lt. Qed.

Lemma Qgtb_false (x y : Q) : Qgtb x y = false ↔ (x <= y)%Q.
Proof. unfold Qgtb, Qle. apply Z.ltb_ge. Qed.

Lemma Qgeb_true (x y : Q) : Qgeb x y = true ↔ (y <= x)%Q.
Proof. unfold Qgeb, Qle. apply Z.leb_le. Qed.

Lemma Qgeb_false (x y : Q) : Qgeb x y = false ↔ (x < y)%Q.
Proof. unfold Qgeb, Qlt. apply Z.leb_gt. Qed.

(** ** Rounding to [double] *)

Lemma pow2_pos e : (0 < pow2 e)%Q.
Proof. apply Qpower_0_lt. reflexivity. Qed.

Lemma pow2_add a b : (pow2 (a + b) == pow2 a * pow2 b)%Q.
Proof. apply Qpower_plus. discriminate. Qed.

Lemma pow2_le a b : a <= b → (pow2 a <= pow2 b)%Q.
Proof. intros H. apply Qpower_le_compat_l; [done|]. discriminate. Qed.

Lemma pow2_lt_inv a b : (pow2 a < pow2 b)%Q → a < b.
Proof. intros H. apply (Qpower_lt_compat_l_inv 2); [done|reflexivity]. Qed.

Lemma pow2_succ a : (pow2 (a + 1) == 2 * pow2 a)%Q.
Proof. rewrite pow2_add. change (pow2 1) with 2%Q. ring. Qed.

Lemma pow2_Z a : 0 <= a → (pow2 a == inject_Z (2 ^ a))%Q.
Proof. intros H. symmetry. by apply Zpower_Qpower. Qed.

(** [ilog2 x] is the exponent of the binade of [x]. *)
Lemma ilog2_spec x :
  (0 < x)%Q → (pow2 (ilog2 x) <= x)%Q ∧ (x < pow2 (ilog2 x + 1))%Q.
Proof.
  intros Hx. destruct x as [n d]. unfold ilog2. cbn [Qnum Qden].
  assert (Hn : 0 < n) by (unfold Qlt in Hx; simpl in Hx; lia).
  set (a := Z.log2 n). set (b := Z.log2 (Z.pos d)).
  destruct (Z.log2_spec n Hn) as [Ha1 Ha2].
  destruct (Z.log2_spec (Z.pos d) ltac:(lia)) as [Hb1 Hb2].
  fold a in Ha1, Ha2. fold b in Hb1, Hb2.
  assert (Ha0 : 0 <= a) by apply Z.log2_nonneg.
  assert (Hb0 : 0 <= b) by apply Z.log2_nonneg.
  rewrite Z.pow_succ_r in Ha2, Hb2 by done.
  set (N := inject_Z n). set (D := inject_Z (Z.pos d)).
  set (A := pow2 a). set (B := pow2 b). set (P := pow2 (a - b)).
  assert (HA : (A == inject_Z (2 ^ a))%Q) by (by apply pow2_Z).
  assert (HB : (B == inject_Z (2 ^ b))%Q) by (by apply pow2_Z).
  assert (HPB : (P * B == A)%Q).
  { subst P B A. rewrite <- pow2_add. by replace (a - b + b) with a by lia. }
  assert (HN1 : (A <= N)%Q) by (rewrite HA; subst N; by rewrite <- Zle_Qle).
  assert (HN2 : (N < 2 * A)%Q).
  { rewrite HA. subst N. change 2%Q with (inject_Z 2).
    rewrite <- inject_Z_mult. by rewrite <- Zlt_Qlt. }
  assert (HD1 : (B <= D)%Q) by (rewrite HB; subst D; by rewrite <- Zle_Qle).
  assert (HD2 : (D < 2 * B)%Q).
  { rewrite HB. subst D. change 2%Q with (inject_Z 2).
    rewrite <- inject_Z_mult. by rewrite <- Zlt_Qlt. }
  assert (HBp : (0 < B)%Q) by apply pow2_pos.
  assert (HPp : (0 < P)%Q) by apply pow2_pos.
  assert (HDp : (0 < D)%Q) by lra.
  assert (Hx' : ((n # d) * D == N)%Q).
  { rewrite (Qmake_Qdiv n d). fold N D. field. lra. }
  set (x := (n # d)%Q) in *.
  assert (Hlo : (P * (1 # 2) <= x)%Q).
  { apply Qnot_lt_le. intros Hc.
    assert ((x * D < P * (1 # 2) * D)%Q) by (by apply Qmult_lt_r).
    assert ((P * D < P * (2 * B))%Q) by (by apply Qmult_lt_l).
    lra. }
  assert (Hhi : (x < 2 * P)%Q).
  { apply Qnot_le_lt. intros Hc.
    assert ((2 * P * D <= x * D)%Q) by (apply Qmult_le_compat_r; [done|lra]).
    assert ((P * B <= P * D)%Q) by (by apply Qmult_le_l).
    lra. }
  destruct (Qle_bool P x) eqn:Ht.
  - apply Qle_bool_iff in Ht. split; [exact Ht|]. rewrite pow2_succ. exact Hhi.
  - assert (Hlt : (x < P)%Q).
    { apply Qnot_le_lt. intros Hc. apply Qle_bool_iff in Hc.
      congruence. }
    replace (a - b - 1 + 1) with (a - b) by lia. split; [|done].
    assert (Hh : (pow2 (a - b - 1) * 2 == P)%Q).
    { subst P. replace (a - b) with ((a - b - 1) + 1) at 2 by lia.
      rewrite pow2_succ. ring. }
    lra.
Qed.

Lemma round_even_cases q :
  (round_even q = Qfloor q ∧ (q - inject_Z (Qfloor q) <= 1 # 2)%Q)
  ∨ (round_even q = Qfloor q + 1 ∧ (1 # 2 <= q - inject_Z (Qfloor q))%Q).
Proof.
  unfold round_even.
  destruct (q - inject_Z (Qfloor q) ?= 1 # 2)%Q eqn:Hc.
  - apply Qeq_alt in Hc. destruct (Z.even (Qfloor q)); [left|right];
      (split; [done|lra]).
  - apply Qlt_alt in Hc. left. split; [done|lra].
  - apply Qgt_alt in Hc. right. split; [done|lra].
Qed.

(** Rounding to an integer moves by at most 1/2. *)
Lemma round_even_near q :
  (- (1 # 2) <= inject_Z (round_even q) - q <= 1 # 2)%Q.
Proof.
  pose proof (Qfloor_le q) as H1. pose proof (Qlt_floor q) as H2.
  rewrite inject_Z_plus in H2. change (inject_Z 1) with 1%Q in H2.
  destruct (round_even_cases q) as [[-> H]|[-> H]].
  - split; lra.
  - rewrite inject_Z_plus. change (inject_Z 1) with 1%Q. split; lra.
Qed.

Lemma round_even_Z z : round_even (inject_Z z) = z.
Proof.
  destruct (round_even_cases (inject_Z z)) as [[-> H]|[-> H]];
    rewrite Qfloor_Z in *; [done|]. lra.
Qed.

Ltac qcmp H :=
  lazymatch type of H with
  | _ = Eq => apply Qeq_alt in H
  | _ = Lt => apply Qlt_alt in H
  | _ = Gt => apply Qgt_alt in H
  end.

Lemma round_even_mono q1 q2 :
  (q1 <= q2)%Q → round_even q1 <= round_even q2.
Proof.
  intros Hle. pose proof (Qfloor_resp_le _ _ Hle) as Hf.
  destruct (Z.eq_dec (Qfloor q1) (Qfloor q2)) as [He|Hne].
  - unfold round_even. rewrite He.
    destruct (q1 - inject_Z (Qfloor q2) ?= 1 # 2)%Q eqn:H1;
      destruct (q2 - inject_Z (Qfloor q2) ?= 1 # 2)%Q eqn:H2;
      try (destruct (Z.even (Qfloor q2))); try lia;
      qcmp H1; qcmp H2; exfalso; lra.
  - destruct (round_even_cases q1) as [[-> _]|[-> _]];
      destruct (round_even_cases q2) as [[-> _]|[-> _]]; lia.
Qed.

Lemma pow2_inv e : (pow2 e * pow2 (- e) == 1)%Q.
Proof. rewrite <- pow2_add. by replace (e + - e) with 0 by lia. Qed.

(** The significand of a positive number lies between 2^52 and 2^53. *)
Lemma significand_range x :
  (0 < x)%Q →
  2 ^ 52 <= round_even (x * pow2 (52 - ilog2 x)) <= 2 ^ 53.
Proof.
  intros Hx. destruct (ilog2_spec x Hx) as [Hlo Hhi].
  set (e := ilog2 x) in *.
  pose proof (pow2_pos (52 - e)) as Hc.
  assert (H52 : (pow2 e * pow2 (52 - e) == inject_Z (2 ^ 52))%Q).
  { rewrite <- pow2_add. replace (e + (52 - e)) with 52 by lia. reflexivity. }
  assert (H53 : (pow2 (e + 1) * pow2 (52 - e) == inject_Z (2 ^ 53))%Q).
  { rewrite <- pow2_add. replace (e + 1 + (52 - e)) with 53 by lia.
    reflexivity. }
  split.
  - rewrite <- (round_even_Z (2 ^ 52)). apply round_even_mono.
    rewrite <- H52. apply Qmult_le_compat_r; [done|lra].
  - rewrite <- (round_even_Z (2 ^ 53)). apply round_even_mono.
    rewrite <- H53. apply Qmult_le_compat_r; [lra|lra].
Qed.

Lemma rnd53_pos_bounds x :
  (0 < x)%Q →
  (pow2 (ilog2 x) <= rnd53_pos x)%Q ∧ (rnd53_pos x <= pow2 (ilog2 x + 1))%Q.
Proof.
  intros Hx. destruct (significand_range x Hx) as [H1 H2].
  unfold rnd53_pos. set (e := ilog2 x) in *.
  set (m := round_even _) in *.
  pose proof (pow2_pos (e - 52)) as Hc.
  assert (H52 : (inject_Z (2 ^ 52) * pow2 (e - 52) == pow2 e)%Q).
  { change (inject_Z (2 ^ 52)) with (pow2 52). rewrite <- pow2_add.
    by replace (52 + (e - 52)) with e by lia. }
  assert (H53 : (inject_Z (2 ^ 53) * pow2 (e - 52) == pow2 (e + 1))%Q).
  { change (inject_Z (2 ^ 53)) with (pow2 53). rewrite <- pow2_add.
    by replace (53 + (e - 52)) with (e + 1) by lia. }
  rewrite Zle_Qle in H1, H2. split.
  - rewrite <- H52. apply Qmult_le_compat_r; [done|lra].
  - rewrite <- H53. apply Qmult_le_compat_r; [done|lra].
Qed.

(** The rounding error is at most half a unit in the last place. *)
Lemma rnd53_pos_error x :
  (0 < x)%Q →
  (- (x * pow2 (-53)) <= rnd53_pos x - x <= x * pow2 (-53))%Q.
Proof.
  intros Hx. destruct (ilog2_spec x Hx) as [Hlo _].
  unfold rnd53_pos. set (e := ilog2 x) in *.
  pose proof (round_even_near (x * pow2 (52 - e))) as [Hn1 Hn2].
  set (m := inject_Z (round_even _)) in *.
  pose proof (pow2_pos (e - 52)) as Hc.
  assert (Hinv : (pow2 (52 - e) * pow2 (e - 52) == 1)%Q).
  { rewrite <- pow2_add. by replace (52 - e + (e - 52)) with 0 by lia. }
  assert (Hu : (pow2 (e - 52) * (1 # 2) == pow2 e * pow2 (-53))%Q).
  { replace (e - 52) with (e + -53 + 1) by lia. rewrite pow2_succ, pow2_add.
    ring. }
  assert (Hd : (m * pow2 (e - 52) - x
                == (m - x * pow2 (52 - e)) * pow2 (e - 52))%Q).
  { assert (Hxc : (x * pow2 (52 - e) * pow2 (e - 52) == x)%Q)
      by (rewrite <- Qmult_assoc, Hinv; ring).
    lra. }
  pose proof (pow2_pos (-53)) as H53.
  assert (Hb : (pow2 e * pow2 (-53) <= x * pow2 (-53))%Q)
    by (apply Qmult_le_compat_r; [done|lra]).
  assert (H1 : ((m - x * pow2 (52 - e)) * pow2 (e - 52)
                <= (1 # 2) * pow2 (e - 52))%Q)
    by (apply Qmult_le_compat_r; [done|lra]).
  assert (H2 : (- (1 # 2) * pow2 (e - 52)
                <= (m - x * pow2 (52 - e)) * pow2 (e - 52))%Q)
    by (apply Qmult_le_compat_r; [done|lra]).
  rewrite Hd. split; lra.
Qed.

Lemma rnd53_pos_mono x y :
  (0 < x)%Q → (x <= y)%Q → (rnd53_pos x <= rnd53_pos y)%Q.
Proof.
  intros Hx Hle. assert (Hy : (0 < y)%Q) by lra.
  destruct (ilog2_spec x Hx) as [Hx1 Hx2].
  destruct (ilog2_spec y Hy) as [Hy1 Hy2].
  assert (He : ilog2 x <= ilog2 y).
  { assert (ilog2 x < ilog2 y + 1); [|lia]. apply pow2_lt_inv. lra. }
  destruct (Z.eq_dec (ilog2 x) (ilog2 y)) as [Heq|Hne].
  - unfold rnd53_pos. rewrite Heq.
    apply Qmult_le_compat_r; [|pose proof (pow2_pos (ilog2 y - 52)); lra].
    rewrite <- Zle_Qle. apply round_even_mono.
    apply Qmult_le_compat_r; [done|].
    pose proof (pow2_pos (52 - ilog2 y)); lra.
  - destruct (rnd53_pos_bounds x Hx) as [_ Hbx].
    destruct (rnd53_pos_bounds y Hy) as [Hby _].
    assert (Hp : (pow2 (ilog2 x + 1) <= pow2 (ilog2 y))%Q)
      by (apply pow2_le; lia).
    lra.
Qed.

Lemma rnd53_pos_pos x : (0 < x)%Q → (0 < rnd53_pos x)%Q.
Proof.
  intros Hx. destruct (rnd53_pos_bounds x Hx) as [H _].
  pose proof (pow2_pos (ilog2 x)). lra.
Qed.

Lemma rnd53_sign x :
  ((x == 0)%Q ∧ rnd53 x = 0%Q)
  ∨ ((0 < x)%Q ∧ rnd53 x = rnd53_pos x)
  ∨ ((x < 0)%Q ∧ rnd53 x = (- rnd53_pos (- x))%Q).
Proof.
  unfold rnd53. destruct x as [[|n|n] d]; cbn [Qnum].
  - left. split; [reflexivity|done].
  - right; left. split; [reflexivity|done].
  - right; right. split; [reflexivity|done].
Qed.

(** Rounding is monotone. *)
Lemma rnd53_mono x y : (x <= y)%Q → (rnd53 x <= rnd53 y)%Q.
Proof.
  intros Hle.
  destruct (rnd53_sign x) as [[Hx ->]|[[Hx ->]|[Hx ->]]];
    destruct (rnd53_sign y) as [[Hy ->]|[[Hy ->]|[Hy ->]]]; try lra.
  - pose proof (rnd53_pos_pos y Hy). lra.
  - by apply rnd53_pos_mono.
  - assert (Hx' : (0 < - x)%Q) by lra. pose proof (rnd53_pos_pos _ Hx'). lra.
  - assert (Hx' : (0 < - x)%Q) by lra. pose proof (rnd53_pos_pos _ Hx').
    pose proof (rnd53_pos_pos y Hy). lra.
  - assert (Hy' : (0 < - y)%Q) by lra.
    assert (H : (rnd53_pos (- y) <= rnd53_pos (- x))%Q)
      by (apply rnd53_pos_mono; lra).
    lra.
Qed.

(** The relative error of rounding is at most 2^-53. *)
Lemma rnd53_error x :
  (Qabs (rnd53 x - x) <= Qabs x * pow2 (-53))%Q.
Proof.
  pose proof (pow2_pos (-53)) as Hp.
  destruct (rnd53_sign x) as [[Hx ->]|[[Hx ->]|[Hx ->]]].
  - rewrite Hx. vm_compute. discriminate.
  - rewrite (Qabs_pos x) by lra. apply Qabs_Qle_condition.
    by apply rnd53_pos_error.
  - rewrite (Qabs_neg x) by lra. apply Qabs_Qle_condition.
    assert (Hx' : (0 < - x)%Q) by lra.
    destruct (rnd53_pos_error _ Hx') as [H1 H2]. split; lra.
Qed.

(** A difference that passes an age test [x - y > a] as not greater is
    at most [a] up to the rounding error; a difference that is at most a
    bound that is a [double] passes it so. *)
Lemma dsub_le_bound x y a :
  (0 <= a)%Q → (dsub x y <= a)%Q → ((x - y) * (1 - pow2 (-53)) <= a)%Q.
Proof.
  intros Ha H. unfold dsub in H.
  pose proof (rnd53_error (x - y)) as He.
  assert (Hp : (0 < pow2 (-53))%Q) by apply pow2_pos.
  assert (Hp1 : (pow2 (-53) < 1)%Q) by reflexivity.
  destruct (Qlt_le_dec 0 (x - y)) as [Hpos|Hneg].
  - rewrite (Qabs_pos (x - y)) in He by lra.
    apply Qabs_Qle_condition in He as [He _]. lra.
  - assert (((x - y) * (1 - pow2 (-53)) <= 0 * (1 - pow2 (-53)))%Q)
      by (apply Qmult_le_compat_r; lra).
    lra.
Qed.

Lemma dsub_within x y a :
  (rnd53 a == a)%Q → (x - y <= a)%Q → (dsub x y <= a)%Q.
Proof.
  intros Ha H. unfold dsub. rewrite <- Ha. by apply rnd53_mono.
Qed.

(** ** The correlation tables *)

Section tables.
Implicit Types (tbl : gmap string Q) (k : string) (t : Q).

Lemma addTS_fresh tbl k t : tbl !! k = None → addTS k t tbl !! k = Some t.
Proof. intros H. unfold addTS. rewrite H. apply lookup_insert_eq. Qed.

Lemma addTS_present tbl k t t0 : tbl !! k = Some t0 → addTS k t tbl = tbl.
Proof. intros H. unfold addTS. by rewrite H. Qed.

Lemma addTS_other tbl k k' t : k ≠ k' → addTS k t tbl !! k' = tbl !! k'.
Proof.
  intros H. unfold addTS. destruct (tbl !! k); [done|].
  by rewrite lookup_insert_ne.
Qed.

(** An entry that is there stays as it is, whatever is inserted. *)
Lemma addTS_keeps tbl k k' t t0 :
  tbl !! k' = Some t0 → addTS k t tbl !! k' = Some t0.
Proof.
  intros H. destruct (decide (k = k')) as [->|Hne].
  - by rewrite (addTS_present _ _ _ _ H).
  - by rewrite addTS_other.
Qed.

Lemma addSeq_fresh tbl k t : tbl !! k = None → addSeq k t tbl !! k = Some t.
Proof. intros H. unfold addSeq. rewrite H. apply lookup_insert_eq. Qed.

Lemma addSeq_present tbl k t t0 : tbl !! k = Some t0 → addSeq k t tbl = tbl.
Proof. intros H. unfold addSeq. by rewrite H. Qed.

Lemma addSeq_other tbl k k' t : k ≠ k' → addSeq k t tbl !! k' = tbl !! k'.
Proof.
  intros H. unfold addSeq. destruct (tbl !! k); [done|].
  by rewrite lookup_insert_ne.
Qed.

Lemma addSeq_keeps tbl k k' t t0 :
  tbl !! k' = Some t0 → addSeq k t tbl !! k' = Some t0.
Proof.
  intros H. destruct (decide (k = k')) as [->|Hne].
  - by rewrite (addSeq_present _ _ _ _ H).
  - by rewrite addSeq_other.
Qed.

Lemma getTStm_present tbl k t :
  tbl !! k = Some t → getTStm k tbl = (t, delete k tbl).
Proof. intros H. unfold getTStm. by rewrite H. Qed.

Lemma getTStm_absent tbl k :
  tbl !! k = None → getTStm k tbl = ((-1)%Q, tbl).
Proof. intros H. unfold getTStm. by rewrite H. Qed.

(** Whatever [getTStm k] finds, [k] is not in the table afterwards. *)
Lemma getTStm_gone tbl k : (getTStm k tbl).2 !! k = None.
Proof.
  unfold getTStm. destruct (tbl !! k) eqn:E; simpl; [|done].
  apply lookup_delete_eq.
Qed.

(** [getTStm] never adds an entry. *)
Lemma getTStm_None tbl k k' :
  tbl !! k' = None → (getTStm k tbl).2 !! k' = None.
Proof.
  intros H. unfold getTStm. destruct (tbl !! k); simpl; [|done].
  rewrite lookup_delete. by case_decide.
Qed.

Lemma getSeqTm_present tbl k t :
  tbl !! k = Some t → getSeqTm k tbl = (t, delete k tbl).
Proof. intros H. unfold getSeqTm. by rewrite H. Qed.

Lemma getSeqTm_absent tbl k :
  tbl !! k = None → getSeqTm k tbl = ((-1)%Q, tbl).
Proof. intros H. unfold getSeqTm. by rewrite H. Qed.

Lemma getSeqTm_gone tbl k : (getSeqTm k tbl).2 !! k = None.
Proof.
  unfold getSeqTm. destruct (tbl !! k) eqn:E; simpl; [|done].
  apply lookup_delete_eq.
Qed.

Lemma getSeqTm_None tbl k k' :
  tbl !! k' = None → (getSeqTm k tbl).2 !! k' = None.
Proof.
  intros H. unfold getSeqTm. destruct (tbl !! k); simpl; [|done].
  rewrite lookup_delete. by case_decide.
Qed.

(** The eviction loop keeps exactly the entries that are not stale. *)
Lemma evict_lookup cfg now tbl k t :
  filter (λ e, stale cfg now e = false) tbl !! k = Some t
  ↔ tbl !! k = Some t ∧ (dsub now t <= rtdMaxAge cfg)%Q.
Proof.
  rewrite map_lookup_filter_Some. unfold stale. simpl.
  by rewrite Qgtb_false.
Qed.

Lemma evict_None cfg now tbl k :
  tbl !! k = None → filter (λ e, stale cfg now e = false) tbl !! k = None.
Proof. intros H. apply map_lookup_filter_None. left. done. Qed.

(** No operation but an insertion under [k] brings [k] into a table. *)
Lemma ts_op_absent cfg tbl k op :
  ¬ inserts k op → tbl !! k = None → ts_op cfg tbl op !! k = None.
Proof.
  destruct op as [k' t|k'|now]; simpl; intros Hop H.
  - by rewrite addTS_other.
  - by apply getTStm_None.
  - by apply evict_None.
Qed.

Lemma seq_op_absent cfg tbl k op :
  ¬ inserts k op → tbl !! k = None → seq_op cfg tbl op !! k = None.
Proof.
  destruct op as [k' t|k'|now]; simpl; intros Hop H.
  - by rewrite addSeq_other.
  - by apply getSeqTm_None.
  - by apply evict_None.
Qed.

Lemma ts_ops_absent cfg ops : ∀ tbl k,
  Forall (λ op, ¬ inserts k op) ops →
  tbl !! k = None → foldl (ts_op cfg) tbl ops !! k = None.
Proof.
  induction ops as [|op ops IH]; intros tbl k Hops H; simpl; [done|].
  inversion Hops; subst. apply IH; [done|]. by apply ts_op_absent.
Qed.

Lemma seq_ops_absent cfg ops : ∀ tbl k,
  Forall (λ op, ¬ inserts k op) ops →
  tbl !! k = None → foldl (seq_op cfg) tbl ops !! k = None.
Proof.
  induction ops as [|op ops IH]; intros tbl k Hops H; simpl; [done|].
  inversion Hops; subst. apply IH; [done|]. by apply seq_op_absent.
Qed.
End tables.

(** ** The classifier, step by step *)

Lemma classify_Classified cfg st pkt h t fl cnt fr :
  parses pkt h t → acquired cfg st h t fl cnt fr →
  classify cfg st pkt
  = ((classified cfg st pkt h t fl cnt fr).1,
     Classified (classified cfg st pkt h t fl cnt fr).2).
Proof.
  intros [Ht Hh] Ha. unfold classify. rewrite Ht, Hh.
  unfold acquired in Ha. by rewrite Ha.
Qed.

Lemma classify_inv cfg st pkt st' c :
  classify cfg st pkt = (st', Classified c) →
  ∃ h t fl cnt fr,
    parses pkt h t ∧ acquired cfg st h t fl cnt fr
    ∧ classified cfg st pkt h t fl cnt fr = (st', c).
Proof.
  unfold classify. destruct (tcp pkt) as [t|] eqn:Ht; [|done].
  destruct (read_l3 pkt t) as [h|] eqn:Hh; [|done].
  destruct (acquire _ _ _ _ _) as [[[fl cnt] fr]|] eqn:Ha; [|done].
  intros [= <- <-]. exists h, t, fl, cnt, fr.
  split; [done|]. split; [done|]. apply surjective_pairing.
Qed.

(** A packet that is not classified leaves the three tables alone and
    prints nothing. *)
Lemma classify_skipped cfg st pkt :
  (∀ c, (classify cfg st pkt).2 ≠ Classified c) →
  flows (classify cfg st pkt).1 = flows st
  ∧ tsTbl (classify cfg st pkt).1 = tsTbl st
  ∧ seqTbl (classify cfg st pkt).1 = seqTbl st
  ∧ (processPacket cfg st pkt).2 = None.
Proof.
  unfold processPacket, classify. destruct (tcp pkt) as [t|]; [|done].
  destruct (read_l3 pkt t) as [h|]; [|done].
  destruct (acquire _ _ _ _ _) as [[[fl cnt] fr]|]; [|done].
  intros H. exfalso. by eapply H.
Qed.

(** A packet with TCP and IP PDUs is classified, unless its flow is new
    and the flow table is full. *)
Lemma classify_outcome cfg st pkt h t :
  parses pkt h t →
  (∃ st' c, classify cfg st pkt = (st', Classified c))
  ∨ ((classify cfg st pkt).2 = Dropped
     ∧ flows st !! fstr_of h t = None ∧ maxFlows cfg < flowCnt st).
Proof.
  intros [Ht Hh]. unfold classify. rewrite Ht, Hh.
  destruct (acquire _ _ _ _ _) as [[[fl cnt] fr]|] eqn:Ha.
  - left. eauto.
  - right. split; [done|]. unfold acquire in Ha.
    destruct (flows st !! fstr_of h t); [done|].
    destruct (maxFlows cfg <? flowCnt st) eqn:Hc.
    + by apply Z.ltb_lt in Hc.
    + by destruct (_ !! _) in Ha.
Qed.

(** What the pping code does when the local filter blocks the packet or
    not, once [no_pping] is false. *)
Lemma pping_usable cfg h t fr now tbl v e :
  timestamp t = Some (v, e) → no_pping_of fr t = false →
  pping cfg h t fr now tbl
  = let tbl1 := if local_blocked cfg h then tbl
                else addTS (tbl_key v (fstr_of h t)) now tbl in
    let r := getTStm (tbl_key e (rstr_of h t)) tbl1 in
    if Qgtb r.1 0 then (true, (now - r.1)%Q, r.2) else (false, 0%Q, r.2).
Proof.
  intros Hts Hnp. unfold pping. rewrite Hts, Hnp. simpl.
  by destruct (getTStm _ _).
Qed.

Lemma pping_unusable cfg h t fr now tbl :
  no_pping_of fr t = true → pping cfg h t fr now tbl = (false, 0%Q, tbl).
Proof.
  intros Hnp. unfold pping. destruct (timestamp t) as [[v e]|]; [|done].
  by rewrite Hnp.
Qed.

Lemma seqrtd_blocked cfg h t fr now tbl :
  local_blocked cfg h = true → seqrtd cfg h t fr now tbl = (false, 0%Q, tbl).
Proof. intros H. unfold seqrtd. by rewrite H. Qed.

Lemma seqrtd_lookup cfg h t fr now tbl :
  seq_lookup_done cfg h t fr = true →
  seqrtd cfg h t fr now tbl
  = let tbl1 := if 0 <? payLen h
                then addSeq (tbl_key (wrap32 (seq t + payLen h)) (fstr_of h t))
                            now tbl
                else tbl in
    let r := getSeqTm (tbl_key (ack_seq t) (rstr_of h t)) tbl1 in
    if Qgtb r.1 0 then (true, (now - r.1)%Q, r.2) else (false, 0%Q, r.2).
Proof.
  unfold seq_lookup_done, seqrtd. intros H.
  apply andb_prop in H as [H Hack]. apply andb_prop in H as [H Hdup].
  apply andb_prop in H as [Hloc Hrev].
  apply negb_true_iff in Hloc. rewrite Hloc, Hrev, Hdup, Hack. simpl.
  by destruct (getSeqTm _ _).
Qed.

Lemma seqrtd_no_lookup cfg h t fr now tbl :
  seq_lookup_done cfg h t fr = false → (seqrtd cfg h t fr now tbl).1.1 = false.
Proof.
  unfold seq_lookup_done, seqrtd. intros H.
  destruct (local_blocked cfg h); [done|]. simpl in H.
  destruct (revFlow fr); simpl in *; [|done].
  by rewrite H.
Qed.

(** The loop variables at the end of a run are those after the packets
    handed to [processPacket]. *)
Lemma run_feed cfg pkts : ∀ l,
  (run cfg l pkts).1.1 = feed cfg l (take (run cfg l pkts).2 pkts).
Proof.
  induction pkts as [|pkt pkts IH]; intros l; [done|].
  simpl. destruct (iteration cfg l pkt).2; cbn [fst snd]; [done|].
  simpl. apply IH.
Qed.

(** ** First writer wins *)

(** C6: insertion into a correlation table is first-writer-wins.  For every
    key [k] that is not yet in the table and all times [t], [t'] (in
    particular [t' > t]), [addTS k t] followed by [addTS k t'] leaves [t]
    stored under [k], and so do [addSeq k t] and [addSeq k t'] on the
    sequence table; an entry that exists is never overwritten: on a table
    that has [k], either insertion changes nothing. *)
Theorem C6_first_writer_wins (tbl : gmap string Q) (k : string) (t t' : Q) :
  tbl !! k = None →
  addTS k t' (addTS k t tbl) !! k = Some t
  ∧ addSeq k t' (addSeq k t tbl) !! k = Some t
  ∧ (∀ (tbl0 : gmap string Q) (t0 : Q), tbl0 !! k = Some t0 →
       addTS k t' tbl0 = tbl0 ∧ addSeq k t' tbl0 = tbl0).
Proof.
  intros Hk. split; [|split].
  - apply addTS_keeps. by apply addTS_fresh.
  - apply addSeq_keeps. by apply addSeq_fresh.
  - intros tbl0 t0 H0. split.
    + by apply (addTS_present _ _ _ t0).
    + by apply (addSeq_present _ _ _ t0).
Qed.

Lemma C6_first_writer_wins_witness :
  (∅ : gmap string Q) !! "100+10.0.0.1:5000+10.0.0.2:80" = None
  ∧ addTS "100+10.0.0.1:5000+10.0.0.2:80" 2
      (addTS "100+10.0.0.1:5000+10.0.0.2:80" 1 ∅)
    !! "100+10.0.0.1:5000+10.0.0.2:80" = Some 1%Q.
Proof.
  split; [reflexivity|].
  apply (C6_first_writer_wins ∅ "100+10.0.0.1:5000+10.0.0.2:80" 1 2).
  reflexivity.
Defined.

(** ** Clean-up *)

(** C7 (as the code has it): after [cleanUp] the entries that remain in a
    correlation table are those for which the test that erases,
    [capTm - t > rtdMaxAge] with the difference computed in [double], is
    false, and the flows that remain are those for which
    [n - lastTm > flowMaxIdle] is false.  So an entry exactly [rtdMaxAge]
    old is kept, and with [rtdMaxAge] and [flowMaxIdle] not negative what
    remains satisfies [capTm - t <= rtdMaxAge] and
    [n - lastTm <= flowMaxIdle] up to the rounding of the difference, a
    factor of [1 - 2^-53]; everything that satisfies these bounds exactly
    is kept when the limits are [double]s. *)
Theorem C7_cleanUp_bounds (cfg : Config) (st : State) (n : Q) :
  (∀ k t, tsTbl (cleanUp cfg st n) !! k = Some t
          ↔ tsTbl st !! k = Some t
            ∧ (dsub (capTm st) t <= rtdMaxAge cfg)%Q)
  ∧ (∀ k t, seqTbl (cleanUp cfg st n) !! k = Some t
            ↔ seqTbl st !! k = Some t
              ∧ (dsub (capTm st) t <= rtdMaxAge cfg)%Q)
  ∧ (∀ k fr, flows (cleanUp cfg st n) !! k = Some fr
             ↔ flows st !! k = Some fr
               ∧ (dsub n (lastTm fr) <= flowMaxIdle cfg)%Q)
  ∧ ((0 <= rtdMaxAge cfg)%Q →
     ∀ k t, tsTbl (cleanUp cfg st n) !! k = Some t
            ∨ seqTbl (cleanUp cfg st n) !! k = Some t →
            ((capTm st - t) * (1 - pow2 (-53)) <= rtdMaxAge cfg)%Q)
  ∧ ((0 <= flowMaxIdle cfg)%Q →
     ∀ k fr, flows (cleanUp cfg st n) !! k = Some fr →
             ((n - lastTm fr) * (1 - pow2 (-53)) <= flowMaxIdle cfg)%Q)
  ∧ ((rnd53 (rtdMaxAge cfg) == rtdMaxAge cfg)%Q →
     ∀ k t, (capTm st - rtdMaxAge cfg <= t)%Q →
            (tsTbl st !! k = Some t → tsTbl (cleanUp cfg st n) !! k = Some t)
            ∧ (seqTbl st !! k = Some t
               → seqTbl (cleanUp cfg st n) !! k = Some t))
  ∧ ((rnd53 (flowMaxIdle cfg) == flowMaxIdle cfg)%Q →
     ∀ k fr, (n - flowMaxIdle cfg <= lastTm fr)%Q →
             flows st !! k = Some fr →
             flows (cleanUp cfg st n) !! k = Some fr).
Proof.
  assert (Hfl : ∀ k fr, flows (cleanUp cfg st n) !! k = Some fr
                ↔ flows st !! k = Some fr
                  ∧ (dsub n (lastTm fr) <= flowMaxIdle cfg)%Q).
  { intros k fr. cbn [cleanUp flows].
    rewrite map_lookup_filter_Some. unfold idle. cbn [snd].
    by rewrite Qgtb_false. }
  split; [intros k t; apply evict_lookup|].
  split; [intros k t; apply evict_lookup|].
  split; [exact Hfl|]. split; [|split; [|split]].
  - intros Ha k t [Hk|Hk]; cbn [cleanUp tsTbl seqTbl] in Hk;
      apply evict_lookup in Hk as [_ Hk]; by apply dsub_le_bound.
  - intros Ha k fr Hk. apply Hfl in Hk as [_ Hk]. by apply dsub_le_bound.
  - intros Ha k t Ht.
    assert (Hd : (dsub (capTm st) t <= rtdMaxAge cfg)%Q)
      by (apply dsub_within; [done|lra]).
    split; intros Hk; cbn [cleanUp tsTbl seqTbl]; by apply evict_lookup.
  - intros Ha k fr Ht Hk. apply Hfl. split; [done|].
    apply dsub_within; [done|lra].
Qed.

Lemma C7_cleanUp_bounds_witness :
  tsTbl (cleanUp default_config round_st d_late)
    !! "7+10.0.0.1:5000+10.0.0.2:80" = Some d_old
  ∧ ((capTm round_st - d_old) * (1 - pow2 (-53))
     <= rtdMaxAge default_config)%Q
  ∧ tsTbl (cleanUp default_config
             (l_st (feed default_config init_loop (take 2 evict_trace)))
             (1 # 2))
      !! "50+10.0.0.2:80+10.0.0.1:5000" = Some (500000 # 1000000)%Q.
Proof.
  assert (Hk : tsTbl (cleanUp default_config round_st d_late)
                 !! "7+10.0.0.1:5000+10.0.0.2:80" = Some d_old) by vm_refl.
  destruct (C7_cleanUp_bounds default_config round_st d_late)
    as (_ & _ & _ & Hb & _).
  destruct (C7_cleanUp_bounds default_config
              (l_st (feed default_config init_loop (take 2 evict_trace)))
              (1 # 2)) as (_ & _ & _ & _ & _ & Hkeep & _).
  split; [exact Hk|]. split.
  - apply (Hb ltac:(discriminate) "7+10.0.0.1:5000+10.0.0.2:80" d_old).
    left. exact Hk.
  - apply (Hkeep ltac:(reflexivity) "50+10.0.0.2:80+10.0.0.1:5000"
             (500000 # 1000000)%Q).
    + intros H. vm_compute in H. discriminate H.
    + vm_refl.
Defined.

(** C7, the claim as stated fails.  In the run of [evict_trace] the last
    packet makes [cleanUp] run at capture time 10.5 s, and the entry stored
    at 0.5 s remains although its time is not strictly greater than
    [capTm - rtdMaxAge].  And with times off the microsecond grid the
    rounded difference hides a small excess: in [round_st] the entry and
    the flow remain although their times are below [capTm - rtdMaxAge]
    and [n - flowMaxIdle]. *)
Lemma C7_counterexample :
  (let l := (run default_config init_loop evict_trace).1.1 in
   (nxtClean l == capTm (l_st l) + rtdMaxAge default_config)%Q
   ∧ ∃ t, tsTbl (l_st l) !! "50+10.0.0.2:80+10.0.0.1:5000" = Some t
          ∧ ¬ (capTm (l_st l) - rtdMaxAge default_config < t)%Q)
  ∧ (tsTbl (cleanUp default_config round_st d_late)
       !! "7+10.0.0.1:5000+10.0.0.2:80" = Some d_old
     ∧ (d_old < capTm round_st - rtdMaxAge default_config)%Q)
  ∧ (∃ fr, flows (cleanUp default_config round_st d_late)
             !! "10.0.0.1:5000+10.0.0.2:80" = Some fr
           ∧ (lastTm fr < d_late - flowMaxIdle default_config)%Q).
Proof.
  split; [|split].
  - split; [by vm_compute|].
    eexists. split; [vm_refl|].
    intros H. vm_compute in H. discriminate.
  - split; [vm_refl|]. by vm_compute.
  - eexists. split; [vm_refl|]. by vm_compute.
Qed.

(** ** Duplicate ACKs *)

(** C10: a packet that passes the duplicate-ACK test (flags exactly ACK, no
    payload, ACK number equal to [lastAck]) at a capture time equal to the
    flow's [lastTm] does not set [dp]; when neither [pd], [sd] nor [ds] is
    set either, [processPacket] prints nothing for it. *)
Theorem C10_dup_ack_zero_spacing (cfg : Config) (st : State) (pkt : Packet)
    (h : Hdr) (t : TCP) (fl : gmap string flowRec) (cnt : Z) (fr : flowRec) :
  parses pkt h t → acquired cfg st h t fl cnt fr →
  flags t = TCP_ACK → payLen h = 0 → ack_seq t = lastAck fr →
  ((stamp st pkt).2 == lastTm fr)%Q →
  let r := classified cfg st pkt h t fl cnt fr in
  classify cfg st pkt = (r.1, Classified r.2)
  ∧ (∃ d, c_dupDiff r.2 = Some d ∧ (d == 0)%Q)
  ∧ c_dp r.2 = false
  ∧ (c_pd r.2 = false → c_sd r.2 = false → c_ds r.2 = false →
     processPacket cfg st pkt = (r.1, None)).
Proof.
  intros Hp Ha Hfl Hpay Hack Htm r.
  assert (Hc : classify cfg st pkt = (r.1, Classified r.2))
    by by apply classify_Classified.
  assert (Hd : dup_ack h t fr (stamp st pkt).2
               = (Some ((stamp st pkt).2 - lastTm fr)%Q, false)).
  { unfold dup_ack. rewrite Hfl, Hpay, Hack, !Z.eqb_refl. simpl.
    f_equal. apply Qgtb_false. lra. }
  assert (Hdp : c_dp r.2 = false) by (subst r; simpl; by rewrite Hd).
  split; [done|]. split; [|split; [done|]].
  - exists ((stamp st pkt).2 - lastTm fr)%Q. split; [|lra].
    subst r. simpl. by rewrite Hd.
  - intros Hpd Hsd Hds. unfold processPacket. rewrite Hc. cbn [fst snd].
    f_equal. unfold emit. by rewrite Hpd, Hsd, Hds, Hdp.
Qed.

Lemma C10_dup_ack_zero_spacing_witness :
  processPacket default_config dupack_st dupack_pkt
  = ((classified default_config dupack_st dupack_pkt dupack_hdr dupack_tcp
        (flows dupack_st) (flowCnt dupack_st) dupack_fr).1, None).
Proof.
  apply (C10_dup_ack_zero_spacing default_config dupack_st dupack_pkt
           dupack_hdr dupack_tcp (flows dupack_st) (flowCnt dupack_st)
           dupack_fr);
    try (split; reflexivity); vm_refl.
Defined.

(** ** Look-ups that find an entry, and look-ups that do not *)

Lemma addTS_delete_ne (tbl : gmap string Q) k k' t :
  k ≠ k' → delete k' (addTS k t tbl) = addTS k t (delete k' tbl).
Proof.
  intros Hne. unfold addTS. rewrite lookup_delete_ne by done.
  destruct (tbl !! k); [done|]. by apply delete_insert_ne.
Qed.

Lemma addSeq_delete_ne (tbl : gmap string Q) k k' t :
  k ≠ k' → delete k' (addSeq k t tbl) = addSeq k t (delete k' tbl).
Proof.
  intros Hne. unfold addSeq. rewrite lookup_delete_ne by done.
  destruct (tbl !! k); [done|]. by apply delete_insert_ne.
Qed.

(** The table the timestamp look-up is made in. *)
Lemma pping_found cfg h t fr now (tbl : gmap string Q) v e ti :
  timestamp t = Some (v, e) → no_pping_of fr t = false →
  tbl !! tbl_key e (rstr_of h t) = Some ti →
  pping cfg h t fr now tbl
  = (Qgtb ti 0, if Qgtb ti 0 then (now - ti)%Q else 0%Q,
     delete (tbl_key e (rstr_of h t))
            (if local_blocked cfg h then tbl
             else addTS (tbl_key v (fstr_of h t)) now tbl)).
Proof.
  intros Hts Hnp Hk. rewrite (pping_usable _ _ _ _ _ _ v e) by done.
  cbn zeta.
  rewrite (getTStm_present _ _ ti).
  - cbn [fst snd]. by destruct (Qgtb ti 0).
  - destruct (local_blocked cfg h); [done|]. by apply addTS_keeps.
Qed.

Lemma pping_not_found cfg h t fr now (tbl : gmap string Q) v e :
  timestamp t = Some (v, e) → no_pping_of fr t = false →
  tbl !! tbl_key e (rstr_of h t) = None →
  local_blocked cfg h = true ∨ tbl_key v (fstr_of h t) ≠ tbl_key e (rstr_of h t) →
  pping cfg h t fr now tbl
  = (false, 0%Q,
     if local_blocked cfg h then tbl
     else addTS (tbl_key v (fstr_of h t)) now tbl).
Proof.
  intros Hts Hnp Hk Hins. rewrite (pping_usable _ _ _ _ _ _ v e) by done.
  cbn zeta. rewrite getTStm_absent; [done|].
  destruct (local_blocked cfg h); [done|].
  destruct Hins as [?|Hne]; [done|]. by rewrite addTS_other.
Qed.

Lemma seqrtd_found cfg h t fr now (tbl : gmap string Q) ti :
  seq_lookup_done cfg h t fr = true →
  tbl !! tbl_key (ack_seq t) (rstr_of h t) = Some ti →
  seqrtd cfg h t fr now tbl
  = (Qgtb ti 0, if Qgtb ti 0 then (now - ti)%Q else 0%Q,
     delete (tbl_key (ack_seq t) (rstr_of h t))
            (if 0 <? payLen h
             then addSeq (tbl_key (wrap32 (seq t + payLen h)) (fstr_of h t))
                         now tbl
             else tbl)).
Proof.
  intros Hl Hk. rewrite seqrtd_lookup by done. cbn zeta.
  rewrite (getSeqTm_present _ _ ti).
  - cbn [fst snd]. by destruct (Qgtb ti 0).
  - destruct (0 <? payLen h); [|done]. by apply addSeq_keeps.
Qed.

Lemma seqrtd_not_found cfg h t fr now (tbl : gmap string Q) :
  seq_lookup_done cfg h t fr = true →
  tbl !! tbl_key (ack_seq t) (rstr_of h t) = None →
  tbl_key (wrap32 (seq t + payLen h)) (fstr_of h t)
  ≠ tbl_key (ack_seq t) (rstr_of h t) →
  seqrtd cfg h t fr now tbl
  = (false, 0%Q,
     if 0 <? payLen h
     then addSeq (tbl_key (wrap32 (seq t + payLen h)) (fstr_of h t)) now tbl
     else tbl).
Proof.
  intros Hl Hk Hne. rewrite seqrtd_lookup by done. cbn zeta.
  rewrite getSeqTm_absent; [done|].
  destruct (0 <? payLen h); [|done]. by rewrite addSeq_other.
Qed.

Lemma Qgtb_zero (x : Q) : (x == 0)%Q → Qgtb x 0 = false.
Proof. intros H. apply Qgtb_false. lra. Qed.

(** ** Entries stored at capture time 0 *)

(** C9: the first processed packet is stamped with its microsecond part
    alone, which is 0 when that part is 0.  When the look-up of a packet
    finds an entry whose stored time is 0, in the timestamp table or in the
    sequence table, the entry is erased and no RTT is reported ([pd],
    respectively [sd], stays false); the packet is handled exactly as if the
    key had been absent (where [getTStm] and [getSeqTm] return -1): flags,
    RTT values and tables are the same as on the table without the entry. *)
Theorem C9_zero_time_entry_consumed (cfg : Config) (st : State)
    (pkt : Packet) (h : Hdr) (t : TCP) (fl : gmap string flowRec) (cnt : Z)
    (fr : flowRec) :
  parses pkt h t → acquired cfg st h t fl cnt fr →
  let r := classified cfg st pkt h t fl cnt fr in
  let now := (stamp st pkt).2 in
  classify cfg st pkt = (r.1, Classified r.2)
  ∧ (offTm st < 0 → ts_microseconds pkt = 0 → (capTm r.1 == 0)%Q)
  ∧ (∀ v e ti,
       timestamp t = Some (v, e) → no_pping_of fr t = false →
       tsTbl st !! tbl_key e (rstr_of h t) = Some ti → (ti == 0)%Q →
       c_pd r.2 = false
       ∧ tsTbl r.1 !! tbl_key e (rstr_of h t) = None
       ∧ (getTStm (tbl_key e (rstr_of h t))
                  (delete (tbl_key e (rstr_of h t)) (tsTbl st))).1 = (-1)%Q
       ∧ (local_blocked cfg h = true
          ∨ tbl_key v (fstr_of h t) ≠ tbl_key e (rstr_of h t) →
          pping cfg h t fr now (tsTbl st)
          = pping cfg h t fr now
              (delete (tbl_key e (rstr_of h t)) (tsTbl st))))
  ∧ (∀ si,
       seq_lookup_done cfg h t fr = true →
       seqTbl st !! tbl_key (ack_seq t) (rstr_of h t) = Some si →
       (si == 0)%Q →
       c_sd r.2 = false
       ∧ seqTbl r.1 !! tbl_key (ack_seq t) (rstr_of h t) = None
       ∧ (getSeqTm (tbl_key (ack_seq t) (rstr_of h t))
                   (delete (tbl_key (ack_seq t) (rstr_of h t))
                           (seqTbl st))).1 = (-1)%Q
       ∧ (tbl_key (wrap32 (seq t + payLen h)) (fstr_of h t)
          ≠ tbl_key (ack_seq t) (rstr_of h t) →
          seqrtd cfg h t fr now (seqTbl st)
          = seqrtd cfg h t fr now
              (delete (tbl_key (ack_seq t) (rstr_of h t)) (seqTbl st)))).
Proof.
  intros Hp Ha r now.
  split; [by apply classify_Classified|]. split; [|split].
  - intros Hoff Hus. subst r. simpl. unfold stamp.
    apply Z.ltb_lt in Hoff. rewrite Hoff, Hus. simpl. reflexivity.
  - intros v e ti Hts Hnp Hk Hz.
    pose proof (pping_found cfg h t fr now _ v e ti Hts Hnp Hk) as Hf.
    rewrite (Qgtb_zero _ Hz) in Hf.
    split; [|split; [|split]].
    + subst r now. simpl. by rewrite Hf.
    + subst r now. simpl. rewrite Hf. simpl. apply lookup_delete_eq.
    + rewrite getTStm_absent; [done|]. apply lookup_delete_eq.
    + intros Hins. fold now. rewrite Hf.
      rewrite (pping_not_found _ _ _ _ _ _ v e); try done.
      * destruct (local_blocked cfg h); [done|].
        destruct Hins as [?|Hne]; [done|]. by rewrite addTS_delete_ne.
      * apply lookup_delete_eq.
  - intros si Hl Hk Hz.
    pose proof (seqrtd_found cfg h t fr now _ si Hl Hk) as Hf.
    rewrite (Qgtb_zero _ Hz) in Hf.
    split; [|split; [|split]].
    + subst r now. simpl. by rewrite Hf.
    + subst r now. simpl. rewrite Hf. simpl. apply lookup_delete_eq.
    + rewrite getSeqTm_absent; [done|]. apply lookup_delete_eq.
    + intros Hne. fold now. rewrite Hf.
      rewrite seqrtd_not_found; try done.
      * destruct (0 <? payLen h); [|done]. by rewrite addSeq_delete_ne.
      * apply lookup_delete_eq.
Qed.

Lemma C9_zero_time_entry_consumed_witness :
  let r := classified default_config zero_st zero_pkt3 zero_hdr zero_tcp
             (flows zero_st) (flowCnt zero_st) zero_fr in
  (tsTbl zero_st !! "50+10.0.0.2:80+10.0.0.1:5000" = Some (0 # 1000000)%Q
   ∧ seqTbl zero_st !! "5010+10.0.0.2:80+10.0.0.1:5000"
     = Some (0 # 1000000)%Q)
  ∧ (c_pd r.2 = false
     ∧ tsTbl r.1 !! "50+10.0.0.2:80+10.0.0.1:5000" = None)
  ∧ (c_sd r.2 = false
     ∧ seqTbl r.1 !! "5010+10.0.0.2:80+10.0.0.1:5000" = None).
Proof.
  pose proof (C9_zero_time_entry_consumed default_config zero_st zero_pkt3
                zero_hdr zero_tcp (flows zero_st) (flowCnt zero_st) zero_fr)
    as H.
  assert (Hts : tsTbl zero_st !! "50+10.0.0.2:80+10.0.0.1:5000"
                = Some (0 # 1000000)%Q) by (vm_refl).
  assert (Hsq : seqTbl zero_st !! "5010+10.0.0.2:80+10.0.0.1:5000"
                = Some (0 # 1000000)%Q) by (vm_refl).
  destruct H as (_ & _ & Hpd & Hsd).
  - split; reflexivity.
  - vm_refl.
  - intros r. split; [by split|]. split.
    + destruct (Hpd 8 50 (0 # 1000000)%Q) as (? & ? & _);
        [reflexivity | vm_refl | exact Hts | reflexivity |].
      by split.
    + destruct (Hsd (0 # 1000000)%Q) as (? & ? & _);
        [vm_refl | exact Hsq | reflexivity |].
      by split.
Defined.

(** ** One sample per sighting *)

Lemma pping_table_absent cfg h t fr now (tbl : gmap string Q) k :
  tbl !! k = None →
  (∀ v e, timestamp t = Some (v, e) → tbl_key v (fstr_of h t) ≠ k) →
  (pping cfg h t fr now tbl).2 !! k = None.
Proof.
  intros Hk Hins. unfold pping.
  destruct (timestamp t) as [[v e]|] eqn:Hts; [|done].
  destruct (no_pping_of fr t); [done|].
  specialize (Hins v e eq_refl).
  assert (H1 : (if local_blocked cfg h then tbl
                else addTS (tbl_key v (fstr_of h t)) now tbl) !! k = None).
  { destruct (local_blocked cfg h); [done|]. by rewrite addTS_other. }
  pose proof (getTStm_None _ (tbl_key e (rstr_of h t)) k H1) as H2.
  destruct (getTStm _ _) as [ti tbl2]. simpl in H2.
  by destruct (Qgtb ti 0).
Qed.

Lemma pping_pd_true cfg h t fr now (tbl : gmap string Q) :
  (pping cfg h t fr now tbl).1.1 = true →
  ∃ v e, timestamp t = Some (v, e)
         ∧ (pping cfg h t fr now tbl).2 !! tbl_key e (rstr_of h t) = None.
Proof.
  unfold pping. destruct (timestamp t) as [[v e]|] eqn:Hts; [|done].
  destruct (no_pping_of fr t); [done|]. intros H. exists v, e.
  split; [done|].
  pose proof (getTStm_gone
                (if local_blocked cfg h then tbl
                 else addTS (tbl_key v (fstr_of h t)) now tbl)
                (tbl_key e (rstr_of h t))) as H2.
  destruct (getTStm _ _) as [ti tbl2]. simpl in H2.
  by destruct (Qgtb ti 0).
Qed.

Lemma pping_pd_absent cfg h t fr now (tbl : gmap string Q) v e :
  timestamp t = Some (v, e) →
  tbl !! tbl_key e (rstr_of h t) = None →
  tbl_key v (fstr_of h t) ≠ tbl_key e (rstr_of h t) →
  (pping cfg h t fr now tbl).1.1 = false.
Proof.
  intros Hts Hk Hne. destruct (no_pping_of fr t) eqn:Hnp.
  - by rewrite pping_unusable.
  - rewrite (pping_not_found _ _ _ _ _ _ v e); auto.
Qed.

Lemma seqrtd_table_absent cfg h t fr now (tbl : gmap string Q) k :
  tbl !! k = None →
  tbl_key (wrap32 (seq t + payLen h)) (fstr_of h t) ≠ k →
  (seqrtd cfg h t fr now tbl).2 !! k = None.
Proof.
  intros Hk Hins. unfold seqrtd.
  destruct (local_blocked cfg h); [done|].
  assert (H1 : (if revFlow fr && (0 <? payLen h)
                then addSeq (tbl_key (wrap32 (seq t + payLen h))
                                     (fstr_of h t)) now tbl
                else tbl) !! k = None).
  { destruct (revFlow fr && (0 <? payLen h)); [|done].
    by rewrite addSeq_other. }
  destruct (revFlow fr && _ && has_flag _ _); [|done].
  pose proof (getSeqTm_None _ (tbl_key (ack_seq t) (rstr_of h t)) k H1) as H2.
  destruct (getSeqTm _ _) as [ti tbl2]. simpl in H2.
  by destruct (Qgtb ti 0).
Qed.

Lemma seqrtd_sd_true cfg h t fr now (tbl : gmap string Q) :
  (seqrtd cfg h t fr now tbl).1.1 = true →
  (seqrtd cfg h t fr now tbl).2 !! tbl_key (ack_seq t) (rstr_of h t) = None.
Proof.
  destruct (seq_lookup_done cfg h t fr) eqn:Hl.
  - rewrite seqrtd_lookup by done. cbn zeta. intros _.
    match goal with |- context [getSeqTm ?k ?m] =>
      pose proof (getSeqTm_gone m k) as H2 end.
    destruct (getSeqTm _ _) as [ti tbl2]. simpl in *.
    by destruct (Qgtb ti 0).
  - by rewrite seqrtd_no_lookup.
Qed.

Lemma seqrtd_sd_absent cfg h t fr now (tbl : gmap string Q) :
  tbl !! tbl_key (ack_seq t) (rstr_of h t) = None →
  tbl_key (wrap32 (seq t + payLen h)) (fstr_of h t)
  ≠ tbl_key (ack_seq t) (rstr_of h t) →
  (seqrtd cfg h t fr now tbl).1.1 = false.
Proof.
  intros Hk Hne. destruct (seq_lookup_done cfg h t fr) eqn:Hl.
  - by rewrite seqrtd_not_found.
  - by apply seqrtd_no_lookup.
Qed.

(** A packet that does not insert under [k] does not bring [k] into a
    table, whatever becomes of the packet. *)
Lemma classify_ts_absent cfg st pkt k :
  tsTbl st !! k = None → ¬ pkt_inserts_ts k pkt →
  tsTbl (classify cfg st pkt).1 !! k = None.
Proof.
  intros Hk Hins. unfold classify.
  destruct (tcp pkt) as [t|] eqn:Ht; [|done].
  destruct (read_l3 pkt t) as [h|] eqn:Hh; [|done].
  destruct (acquire _ _ _ _ _) as [[[fl cnt] fr]|]; [|done].
  simpl. apply pping_table_absent; [done|].
  intros v e Hts Heq. apply Hins. by exists h, t, v, e.
Qed.

Lemma classify_seq_absent cfg st pkt k :
  seqTbl st !! k = None → ¬ pkt_inserts_seq k pkt →
  seqTbl (classify cfg st pkt).1 !! k = None.
Proof.
  intros Hk Hins. unfold classify.
  destruct (tcp pkt) as [t|] eqn:Ht; [|done].
  destruct (read_l3 pkt t) as [h|] eqn:Hh; [|done].
  destruct (acquire _ _ _ _ _) as [[[fl cnt] fr]|]; [|done].
  simpl. apply seqrtd_table_absent; [done|].
  intros Heq. apply Hins. by exists h, t.
Qed.

Lemma housekeeping_tables cfg l k :
  (tsTbl (l_st l) !! k = None → tsTbl (l_st (housekeeping cfg l)) !! k = None)
  ∧ (seqTbl (l_st l) !! k = None
     → seqTbl (l_st (housekeeping cfg l)) !! k = None).
Proof.
  unfold housekeeping.
  destruct (Qnonzero _ && _); simpl;
    destruct (Qgtb (nxtSum l) 0); simpl;
    destruct (Qgeb _ _); simpl; split; intros H;
    try done; by apply evict_None.
Qed.

Lemma iteration_ts_absent cfg l pkt k :
  tsTbl (l_st l) !! k = None → ¬ pkt_inserts_ts k pkt →
  tsTbl (l_st (iteration cfg l pkt).1.1) !! k = None.
Proof.
  intros Hk Hins. unfold iteration.
  pose proof (classify_ts_absent cfg _ pkt k Hk Hins) as H.
  destruct (stop_now _ _); simpl; [done|].
  by apply housekeeping_tables.
Qed.

Lemma iteration_seq_absent cfg l pkt k :
  seqTbl (l_st l) !! k = None → ¬ pkt_inserts_seq k pkt →
  seqTbl (l_st (iteration cfg l pkt).1.1) !! k = None.
Proof.
  intros Hk Hins. unfold iteration.
  pose proof (classify_seq_absent cfg _ pkt k Hk Hins) as H.
  destruct (stop_now _ _); simpl; [done|].
  by apply housekeeping_tables.
Qed.

Lemma feed_ts_absent cfg pkts : ∀ l k,
  tsTbl (l_st l) !! k = None → Forall (λ q, ¬ pkt_inserts_ts k q) pkts →
  tsTbl (l_st (feed cfg l pkts)) !! k = None.
Proof.
  induction pkts as [|q pkts IH]; intros l k Hk Hq; [done|].
  inversion Hq; subst. simpl. apply IH; [|done].
  by apply iteration_ts_absent.
Qed.

Lemma feed_seq_absent cfg pkts : ∀ l k,
  seqTbl (l_st l) !! k = None → Forall (λ q, ¬ pkt_inserts_seq k q) pkts →
  seqTbl (l_st (feed cfg l pkts)) !! k = None.
Proof.
  induction pkts as [|q pkts IH]; intros l k Hk Hq; [done|].
  inversion Hq; subst. simpl. apply IH; [|done].
  by apply iteration_seq_absent.
Qed.

(** The state the loop body leaves is the one [processPacket] returned,
    cleaned up or not. *)
Lemma iteration_tables cfg l pkt k :
  (tsTbl (classify cfg (l_st l) pkt).1 !! k = None
   → tsTbl (l_st (iteration cfg l pkt).1.1) !! k = None)
  ∧ (seqTbl (classify cfg (l_st l) pkt).1 !! k = None
     → seqTbl (l_st (iteration cfg l pkt).1.1) !! k = None).
Proof.
  unfold iteration. destruct (stop_now _ _); simpl; [done|].
  apply (housekeeping_tables cfg
           {| l_st := (classify cfg (l_st l) pkt).1; nxtSum := nxtSum l;
              nxtClean := nxtClean l |} k).
Qed.

(** Once a packet has reported a TSval RTT from the entry under [k], no
    later packet that looks [k] up reports one, as long as no packet in
    between (nor that packet) inserts under [k] again. *)
Lemma second_echo_no_sample cfg l k pktY hY tY vY eY stY cY mids
    pktZ hZ tZ vZ eZ stZ cZ :
  parses pktY hY tY → timestamp tY = Some (vY, eY) →
  tbl_key eY (rstr_of hY tY) = k →
  classify cfg (l_st l) pktY = (stY, Classified cY) → c_pd cY = true →
  Forall (λ q, ¬ pkt_inserts_ts k q) (mids ++ [pktZ]) →
  parses pktZ hZ tZ → timestamp tZ = Some (vZ, eZ) →
  tbl_key eZ (rstr_of hZ tZ) = k →
  classify cfg (l_st (feed cfg l (pktY :: mids))) pktZ
  = (stZ, Classified cZ) →
  c_pd cZ = false.
Proof.
  intros HpY HtsY HkY HcY Hpd Hno HpZ HtsZ HkZ HcZ.
  assert (Habs : tsTbl stY !! k = None).
  { destruct (classify_inv _ _ _ _ _ HcY)
      as (h & t & fl & cnt & fr & [Ht Hh] & _ & Hcl).
    destruct HpY as [Ht' Hh']. rewrite Ht' in Ht. injection Ht as <-.
    rewrite Hh' in Hh. injection Hh as <-.
    injection Hcl as <- <-. simpl in *.
    destruct (pping_pd_true _ _ _ _ _ _ Hpd) as (v & e & Hts & Hgone).
    rewrite HtsY in Hts. injection Hts as <- <-. by rewrite <- HkY. }
  apply Forall_app in Hno as [Hmids HZ]. apply Forall_inv in HZ.
  assert (Habs' : tsTbl (l_st (feed cfg l (pktY :: mids))) !! k = None).
  { simpl. apply feed_ts_absent; [|done].
    apply iteration_tables. by rewrite HcY. }
  destruct (classify_inv _ _ _ _ _ HcZ)
    as (h & t & fl & cnt & fr & [Ht Hh] & _ & Hcl).
  destruct HpZ as [Ht' Hh']. rewrite Ht' in Ht. injection Ht as <-.
  rewrite Hh' in Hh. injection Hh as <-.
  injection Hcl as <- <-. simpl.
  apply (pping_pd_absent _ _ _ _ _ _ vZ eZ); [done|by rewrite HkZ|].
  rewrite HkZ. intros Heq. apply HZ. by exists hZ, tZ, vZ, eZ.
Qed.

(** The same for the sequence table and the seqno RTT. *)
Lemma second_ack_no_sample cfg l k pktY hY tY stY cY mids
    pktZ hZ tZ stZ cZ :
  parses pktY hY tY → tbl_key (ack_seq tY) (rstr_of hY tY) = k →
  classify cfg (l_st l) pktY = (stY, Classified cY) → c_sd cY = true →
  Forall (λ q, ¬ pkt_inserts_seq k q) (mids ++ [pktZ]) →
  parses pktZ hZ tZ → tbl_key (ack_seq tZ) (rstr_of hZ tZ) = k →
  classify cfg (l_st (feed cfg l (pktY :: mids))) pktZ
  = (stZ, Classified cZ) →
  c_sd cZ = false.
Proof.
  intros HpY HkY HcY Hsd Hno HpZ HkZ HcZ.
  assert (Habs : seqTbl stY !! k = None).
  { destruct (classify_inv _ _ _ _ _ HcY)
      as (h & t & fl & cnt & fr & [Ht Hh] & _ & Hcl).
    destruct HpY as [Ht' Hh']. rewrite Ht' in Ht. injection Ht as <-.
    rewrite Hh' in Hh. injection Hh as <-.
    injection Hcl as <- <-. simpl in *.
    rewrite <- HkY. by apply seqrtd_sd_true. }
  apply Forall_app in Hno as [Hmids HZ]. apply Forall_inv in HZ.
  assert (Habs' : seqTbl (l_st (feed cfg l (pktY :: mids))) !! k = None).
  { simpl. apply feed_seq_absent; [|done].
    apply iteration_tables. by rewrite HcY. }
  destruct (classify_inv _ _ _ _ _ HcZ)
    as (h & t & fl & cnt & fr & [Ht Hh] & _ & Hcl).
  destruct HpZ as [Ht' Hh']. rewrite Ht' in Ht. injection Ht as <-.
  rewrite Hh' in Hh. injection Hh as <-.
  injection Hcl as <- <-. simpl.
  apply seqrtd_sd_absent; [by rewrite HkZ|].
  rewrite HkZ. intros Heq. apply HZ. by exists hZ, tZ.
Qed.

(** C5: once [getTStm k] (respectively [getSeqTm k]) has found an entry,
    which it returns and erases, every later look-up of [k] finds nothing
    and returns -1, whatever operations are made on the table in between,
    unless one of them inserts under [k] again; a new insertion under [k]
    is found again.  Hence, after a packet has reported a TSval RTT (a
    seqno RTT) from the entry under [k], a later packet with the same ECR
    (ACK number) on the same flow reports none, as long as no packet in
    between stores a new time under [k]. *)
Theorem C5_take_once (cfg : Config) (tbl : gmap string Q) (k : string)
    (t : Q) (ops : list TblOp) :
  tbl !! k = Some t → Forall (λ op, ¬ inserts k op) ops →
  (getTStm k tbl = (t, delete k tbl)
   ∧ getTStm k (foldl (ts_op cfg) (getTStm k tbl).2 ops)
     = ((-1)%Q, foldl (ts_op cfg) (getTStm k tbl).2 ops)
   ∧ ∀ t', (getTStm k (addTS k t'
              (foldl (ts_op cfg) (getTStm k tbl).2 ops))).1 = t')
  ∧ (getSeqTm k tbl = (t, delete k tbl)
     ∧ getSeqTm k (foldl (seq_op cfg) (getSeqTm k tbl).2 ops)
       = ((-1)%Q, foldl (seq_op cfg) (getSeqTm k tbl).2 ops)
     ∧ ∀ t', (getSeqTm k (addSeq k t'
                (foldl (seq_op cfg) (getSeqTm k tbl).2 ops))).1 = t')
  ∧ (∀ l pktY hY tY vY eY stY cY mids pktZ hZ tZ vZ eZ stZ cZ,
       parses pktY hY tY → timestamp tY = Some (vY, eY) →
       tbl_key eY (rstr_of hY tY) = k →
       classify cfg (l_st l) pktY = (stY, Classified cY) → c_pd cY = true →
       Forall (λ q, ¬ pkt_inserts_ts k q) (mids ++ [pktZ]) →
       parses pktZ hZ tZ → timestamp tZ = Some (vZ, eZ) →
       tbl_key eZ (rstr_of hZ tZ) = k →
       classify cfg (l_st (feed cfg l (pktY :: mids))) pktZ
       = (stZ, Classified cZ) →
       c_pd cZ = false)
  ∧ (∀ l pktY hY tY stY cY mids pktZ hZ tZ stZ cZ,
       parses pktY hY tY → tbl_key (ack_seq tY) (rstr_of hY tY) = k →
       classify cfg (l_st l) pktY = (stY, Classified cY) → c_sd cY = true →
       Forall (λ q, ¬ pkt_inserts_seq k q) (mids ++ [pktZ]) →
       parses pktZ hZ tZ → tbl_key (ack_seq tZ) (rstr_of hZ tZ) = k →
       classify cfg (l_st (feed cfg l (pktY :: mids))) pktZ
       = (stZ, Classified cZ) →
       c_sd cZ = false).
Proof.
  intros Hk Hops. split; [|split; [|split]].
  - assert (Ha : foldl (ts_op cfg) (getTStm k tbl).2 ops !! k = None).
    { apply ts_ops_absent; [done|]. apply getTStm_gone. }
    split; [by apply getTStm_present|]. split; [by apply getTStm_absent|].
    intros t'. by rewrite (getTStm_present _ _ t') by by apply addTS_fresh.
  - assert (Ha : foldl (seq_op cfg) (getSeqTm k tbl).2 ops !! k = None).
    { apply seq_ops_absent; [done|]. apply getSeqTm_gone. }
    split; [by apply getSeqTm_present|]. split; [by apply getSeqTm_absent|].
    intros t'. by rewrite (getSeqTm_present _ _ t') by by apply addSeq_fresh.
  - intros *. apply second_echo_no_sample.
  - intros *. apply second_ack_no_sample.
Qed.

Lemma C5_take_once_witness :
  let k := "100+10.0.0.1:5000+10.0.0.2:80" in
  let tbl : gmap string Q := {[ k := 1%Q ]} in
  let ops := [Take k; Insert "101+10.0.0.1:5000+10.0.0.2:80" 2; Evict 3] in
  (tbl !! k = Some 1%Q ∧ Forall (λ op, ¬ inserts k op) ops)
  ∧ getTStm k tbl = (1%Q, delete k tbl)
  ∧ getTStm k (foldl (ts_op default_config) (getTStm k tbl).2 ops)
    = ((-1)%Q, foldl (ts_op default_config) (getTStm k tbl).2 ops).
Proof.
  intros k tbl ops.
  assert (H1 : tbl !! k = Some 1%Q) by reflexivity.
  assert (H2 : Forall (λ op, ¬ inserts k op) ops).
  { repeat constructor; simpl; try tauto. discriminate. }
  split; [by split|].
  destruct (C5_take_once default_config tbl k 1 ops H1 H2)
    as ((Ha & Hb & _) & _).
  by split.
Defined.

(** The scenario of the duplicated acknowledgement: the first one yields
    both RTTs (0.05 s), the second one neither (it is printed as a
    duplicate ACK). *)
Example duplicate_echo_suppressed :
  map rtts (run default_config init_loop ping_trace).1.2
  = [ (Some (1 # 2)%Q, None);
      (Some (1 # 20)%Q, Some (1 # 20)%Q);
      (None, None) ].
Proof. vm_refl. Qed.

(** ** The local-host filter *)

(** C1 (as the code has it): for a packet whose destination address is
    [localIP] while [filtLocal] is set, [processPacket] skips the timestamp
    insert, the sequence insert and the sequence look-up, and still makes
    the timestamp look-up.  The sequence table is left as it was and no
    seqno RTT is reported, whatever the table holds; no key is added to the
    timestamp table, and when [no_pping] is false the ECR is looked up and
    an entry found with a positive time yields a TSval RTT. *)
Theorem C1_local_filter (cfg : Config) (st : State) (pkt : Packet)
    (h : Hdr) (t : TCP) (fl : gmap string flowRec) (cnt : Z) (fr : flowRec) :
  parses pkt h t → acquired cfg st h t fl cnt fr →
  filtLocal cfg = true → ipdstr h = localIP cfg →
  let r := classified cfg st pkt h t fl cnt fr in
  let now := (stamp st pkt).2 in
  classify cfg st pkt = (r.1, Classified r.2)
  ∧ seqTbl r.1 = seqTbl st
  ∧ c_sd r.2 = false
  ∧ (∀ k, tsTbl st !! k = None → tsTbl r.1 !! k = None)
  ∧ (∀ v e, timestamp t = Some (v, e) → no_pping_of fr t = false →
       tsTbl r.1 = (getTStm (tbl_key e (rstr_of h t)) (tsTbl st)).2
       ∧ ∀ ti, tsTbl st !! tbl_key e (rstr_of h t) = Some ti → (0 < ti)%Q →
               c_pd r.2 = true ∧ c_prtd r.2 = (now - ti)%Q).
Proof.
  intros Hp Ha Hf Hd r now.
  assert (Hb : local_blocked cfg h = true).
  { unfold local_blocked. rewrite Hf, Hd. simpl. by apply bool_decide_eq_true. }
  split; [by apply classify_Classified|].
  subst r now. simpl. rewrite (seqrtd_blocked _ _ _ _ _ _ Hb). simpl.
  split; [done|]. split; [done|]. split.
  - intros k Hk. destruct (no_pping_of fr t) eqn:Hnp.
    + by rewrite pping_unusable.
    + destruct (timestamp t) as [[v e]|] eqn:Hts.
      * rewrite (pping_usable _ _ _ _ _ _ v e) by done. rewrite Hb.
        cbn zeta.
        pose proof (getTStm_None (tsTbl st) (tbl_key e (rstr_of h t)) k Hk).
        by destruct (Qgtb _ 0).
      * unfold no_pping_of in Hnp. by rewrite Hts in Hnp.
  - intros v e Hts Hnp. split.
    + rewrite (pping_usable _ _ _ _ _ _ v e) by done. rewrite Hb.
      cbn zeta. by destruct (Qgtb _ 0).
    + intros ti Hk Hpos.
      rewrite (pping_found _ _ _ _ _ _ v e ti) by done.
      apply Qgtb_true in Hpos. by rewrite Hpos.
Qed.

Lemma C1_local_filter_witness :
  let r := classified local_config local_st ping_ack1 ack1_hdr ack1_tcp
             (flows local_st) (flowCnt local_st) ack1_fr in
  seqTbl r.1 = seqTbl local_st ∧ c_sd r.2 = false ∧ c_pd r.2 = true.
Proof.
  intros r.
  destruct (C1_local_filter local_config local_st ping_ack1 ack1_hdr
              ack1_tcp (flows local_st) (flowCnt local_st) ack1_fr)
    as (_ & Hs & Hsd & _ & Hts).
  - split; reflexivity.
  - vm_refl.
  - reflexivity.
  - reflexivity.
  - split; [exact Hs|]. split; [exact Hsd|].
    destruct (Hts 60 100) as [_ Hpd];
      [reflexivity | vm_refl |].
    apply (Hpd (1000000 # 1000000)%Q); vm_refl.
Defined.

(** C1, the claim as stated fails: with the local filter on and [hostA]
    the local address, the acknowledgement from [hostB] finds the sequence
    table holding the time of the data it acknowledges, under the key it
    would look up; the line printed has no seqno RTT and the entry is still
    in the table afterwards. *)
Lemma C1_counterexample :
  let r := processPacket local_config local_st ping_ack1 in
  filtLocal local_config = true
  ∧ ipdstr ack1_hdr = localIP local_config
  ∧ parses ping_ack1 ack1_hdr ack1_tcp
  ∧ tbl_key (ack_seq ack1_tcp) (rstr_of ack1_hdr ack1_tcp)
    = "1050+10.0.0.1:5000+10.0.0.2:80"
  ∧ seqTbl local_st !! "1050+10.0.0.1:5000+10.0.0.2:80"
    = Some (1000000 # 1000000)%Q
  ∧ (∃ o, r.2 = Some o ∧ o_srtd o = None ∧ rtts o = (Some (1 # 20)%Q, None))
  ∧ seqTbl r.1 !! "1050+10.0.0.1:5000+10.0.0.2:80"
    = Some (1000000 # 1000000)%Q.
Proof.
  intros r. split; [reflexivity|]. split; [reflexivity|].
  split; [split; reflexivity|].
  split; [vm_refl|]. split; [vm_refl|].
  split; [|vm_refl].
  eexists. split; [vm_refl|]. split; reflexivity.
Qed.

(** ** Sequence deltas *)

(** C2 (as the code has it): for a packet whose sequence delta is negative,
    [dseq] is the signed 32-bit difference between the sequence number and
    [lastSeq + lastPay], and it is the value in the line when the packet is
    printed; but [ds] is set only by a positive delta, so that a negative
    delta does not make the packet printed: without a TSval RTT, a seqno
    RTT or a duplicate ACK of positive spacing, nothing is printed. *)
Theorem C2_negative_delta (cfg : Config) (st : State) (pkt : Packet)
    (h : Hdr) (t : TCP) (fl : gmap string flowRec) (cnt : Z) (fr : flowRec) :
  parses pkt h t → acquired cfg st h t fl cnt fr →
  lastSeq fr ≠ 0 →
  to_int32 (seq t - wrap32 (lastSeq fr + lastPay fr)) < 0 →
  let r := classified cfg st pkt h t fl cnt fr in
  classify cfg st pkt = (r.1, Classified r.2)
  ∧ c_dseq r.2 = to_int32 (seq t - wrap32 (lastSeq fr + lastPay fr))
  ∧ c_ds r.2 = false
  ∧ (c_pd r.2 = false → c_sd r.2 = false → c_dp r.2 = false →
     processPacket cfg st pkt = (r.1, None))
  ∧ (∀ o, (processPacket cfg st pkt).2 = Some o →
          o_dseq o = to_int32 (seq t - wrap32 (lastSeq fr + lastPay fr))
          ∧ (c_pd r.2 = true ∨ c_sd r.2 = true ∨ c_dp r.2 = true)).
Proof.
  intros Hp Ha Hls Hneg r.
  assert (Hc : classify cfg st pkt = (r.1, Classified r.2))
    by by apply classify_Classified.
  assert (Hq : seq_delta fr t
               = (to_int32 (seq t - wrap32 (lastSeq fr + lastPay fr)), false)).
  { unfold seq_delta. apply Z.eqb_neq in Hls. rewrite Hls. cbn zeta.
    f_equal. apply Z.ltb_ge. lia. }
  assert (Hdq : c_dseq r.2
                = to_int32 (seq t - wrap32 (lastSeq fr + lastPay fr)))
    by (subst r; simpl; by rewrite Hq).
  assert (Hds : c_ds r.2 = false) by (subst r; simpl; by rewrite Hq).
  split; [done|]. split; [done|]. split; [done|]. split.
  - intros Hpd Hsd Hdp. unfold processPacket. rewrite Hc. cbn [fst snd].
    f_equal. unfold emit. by rewrite Hpd, Hsd, Hds, Hdp.
  - intros o. unfold processPacket. rewrite Hc. cbn [fst snd].
    unfold emit. rewrite Hds.
    destruct (c_pd r.2), (c_sd r.2), (c_dp r.2); simpl;
      try discriminate;
      destruct (quick cfg); simpl; try discriminate;
      intros [= <-]; simpl; auto.
Qed.

Lemma C2_negative_delta_witness :
  let r := classified default_config ooo_st ooo_pkt2 ooo_hdr ooo_tcp
             (flows ooo_st) (flowCnt ooo_st) ooo_fr in
  c_dseq r.2 = -200
  ∧ processPacket default_config ooo_st ooo_pkt2 = (r.1, None).
Proof.
  intros r.
  destruct (C2_negative_delta default_config ooo_st ooo_pkt2 ooo_hdr ooo_tcp
              (flows ooo_st) (flowCnt ooo_st) ooo_fr)
    as (_ & Hd & _ & Hnone & _).
  - split; reflexivity.
  - vm_refl.
  - vm_compute; discriminate.
  - vm_refl.
  - split.
    + etrans; [exact Hd|]. vm_refl.
    + apply Hnone; vm_refl.
Defined.

(** C2, the claim as stated fails: in the scenario the delta of the second
    packet is -200, and the run prints no line at all. *)
Lemma C2_counterexample :
  (run default_config init_loop [ooo_pkt1; ooo_pkt2]).1.2 = []
  ∧ (run default_config init_loop [ooo_pkt1; ooo_pkt2]).2 = 2%nat
  ∧ (∃ st' c, classify default_config ooo_st ooo_pkt2 = (st', Classified c)
              ∧ c_dseq c = -200 ∧ c_ds c = false)
  ∧ (processPacket default_config ooo_st ooo_pkt2).2 = None.
Proof.
  split; [vm_refl|]. split; [vm_refl|].
  split; [|vm_refl].
  eexists _, _. split; [apply classify_Classified with
    (h := ooo_hdr) (t := ooo_tcp) (fl := flows ooo_st)
    (cnt := flowCnt ooo_st) (fr := ooo_fr)|].
  - split; reflexivity.
  - vm_refl.
  - split; vm_refl.
Qed.

(** ** Flow names and their reverses *)

Lemma app_cons c (a b : string) : String c a +:+ b = String c (a +:+ b).
Proof. reflexivity. Qed.

Lemma plus_free_app a b : plus_free (a +:+ b) = plus_free a && plus_free b.
Proof.
  induction a as [|c a IH]; [done|].
  rewrite app_cons. simpl. rewrite IH. by rewrite andb_assoc.
Qed.

Lemma split_plus_app a b :
  plus_free a = true → split_plus (a +:+ "+" +:+ b) = Some (a, b).
Proof.
  induction a as [|c a IH]; [done|].
  rewrite app_cons. simpl. intros [Hc Ha]%andb_prop.
  apply negb_true_iff in Hc. rewrite Hc. by rewrite IH.
Qed.

Lemma plus_free_digit x : Ascii.eqb (pretty_N_char x) "+"%char = false.
Proof. unfold pretty_N_char. by repeat case_match. Qed.

Lemma plus_free_pretty_N_go x : ∀ s,
  plus_free s = true → plus_free (pretty_N_go x s) = true.
Proof.
  induction (N.lt_wf_0 x) as [x _ IH]; intros s Hs.
  assert (x = 0 ∨ 0 < x)%N as [->|Hx] by lia.
  - by rewrite pretty_N_go_0.
  - rewrite pretty_N_go_step by done. apply IH.
    + by apply N.div_lt.
    + simpl. by rewrite plus_free_digit.
Qed.

Lemma plus_free_pretty_N (x : N) : plus_free (pretty x) = true.
Proof.
  unfold pretty, pretty_N. case_decide; [done|].
  by apply plus_free_pretty_N_go.
Qed.

Lemma plus_free_to_string (x : Z) : plus_free (to_string x) = true.
Proof.
  unfold to_string, pretty, pretty_Z. destruct x as [|p|p].
  - done.
  - apply plus_free_pretty_N.
  - rewrite plus_free_app. simpl. apply plus_free_pretty_N.
Qed.

Lemma wf_pkt_addresses pkt h t :
  wf_pkt pkt = true → parses pkt h t →
  plus_free (srcstr h t) = true ∧ plus_free (dststr h t) = true.
Proof.
  unfold wf_pkt, parses, read_l3, srcstr, dststr. intros Hwf [_ Hh].
  destruct (ip pkt) as [s d ? ?|s d ? ?|]; [| |done];
    injection Hh as <-; simpl;
    apply andb_prop in Hwf as [Hs Hd];
    rewrite !plus_free_app, !plus_free_to_string, ?Hs, ?Hd; done.
Qed.

Lemma rev_name_fstr pkt h t :
  wf_pkt pkt = true → parses pkt h t →
  rev_name (fstr_of h t) = rstr_of h t
  ∧ rev_name (rstr_of h t) = fstr_of h t.
Proof.
  intros Hwf Hp. destruct (wf_pkt_addresses _ _ _ Hwf Hp) as [Hs Hd].
  unfold rev_name, fstr_of, rstr_of. by rewrite !split_plus_app.
Qed.

Lemma flow_name_parses pkt h t :
  parses pkt h t → flow_name pkt = Some (fstr_of h t).
Proof. intros [Ht Hh]. unfold flow_name. by rewrite Ht, Hh. Qed.

(** ** The flow table *)

(** The three ways [processPacket] comes by its flow record: it is in the
    table; it is created and the reverse flow is not in the table; it is
    created and both records are marked. *)
Lemma acquire_cases cfg (fl : gmap string flowRec) cnt f r fl' cnt' fr :
  acquire cfg fl cnt f r = Some (fl', cnt', fr) →
  (fl !! f = Some fr ∧ fl' = fl ∧ cnt' = cnt)
  ∨ (fl !! f = None ∧ cnt <= maxFlows cfg ∧ cnt' = cnt + 1
     ∧ ((<[f := new_flowRec f]> fl !! r = None
         ∧ fl' = <[f := new_flowRec f]> fl ∧ fr = new_flowRec f)
        ∨ (∃ r0, <[f := new_flowRec f]> fl !! r = Some r0
                 ∧ fl' = <[f := set_revFlow (new_flowRec f)]>
                           (<[r := set_revFlow r0]>
                              (<[f := new_flowRec f]> fl))
                 ∧ fr = set_revFlow (new_flowRec f)))).
Proof.
  unfold acquire. destruct (fl !! f) as [fr0|] eqn:Hf.
  - intros [= <- <- <-]. by left.
  - destruct (maxFlows cfg <? cnt) eqn:Hc; [done|].
    apply Z.ltb_ge in Hc.
    destruct (<[f := new_flowRec f]> fl !! r) as [r0|] eqn:Hr.
    + intros [= <- <- <-]. right. repeat split; try done.
      right. by exists r0.
    + intros [= <- <- <-]. right. repeat split; try done. by left.
Qed.

(** The record handed out is the one stored under the flow name. *)
Lemma acquire_lookup cfg (fl : gmap string flowRec) cnt f r fl' cnt' fr :
  acquire cfg fl cnt f r = Some (fl', cnt', fr) → fl' !! f = Some fr.
Proof.
  intros [(? & -> & _)|(_ & _ & _ & [(_ & -> & ->)|(r0 & _ & -> & ->)])]%acquire_cases.
  - done.
  - apply lookup_insert_eq.
  - apply lookup_insert_eq.
Qed.

Lemma flows_seen_mono seen seen' fl :
  seen ⊆ seen' → flows_seen seen fl → flows_seen seen' fl.
Proof.
  intros Hsub H k fr Hk. destruct (H k fr Hk) as [H1 H2].
  split; [by apply Hsub|]. intros Hr. by apply Hsub, H2.
Qed.

Lemma flows_seen_filter seen (fl : gmap string flowRec)
    (P : string * flowRec → Prop) `{!∀ x, Decision (P x)} :
  flows_seen seen fl → flows_seen seen (filter P fl).
Proof.
  intros Hinv k fr Hk. apply map_lookup_filter_Some in Hk as [Hk _].
  by apply Hinv.
Qed.

(** The record stored at the end of [processPacket] keeps [revFlow]. *)
Lemma flows_seen_classified cfg st pkt h t fl cnt fr seen :
  wf_pkt pkt = true → parses pkt h t → acquired cfg st h t fl cnt fr →
  flows_seen seen (flows st) →
  flows_seen (fstr_of h t :: seen)
             (flows (classified cfg st pkt h t fl cnt fr).1).
Proof.
  intros Hwf Hp Ha Hinv.
  destruct (rev_name_fstr _ _ _ Hwf Hp) as [Hrf Hrr].
  set (f := fstr_of h t) in *. set (r := rstr_of h t) in *.
  assert (Hfl : flows_seen (f :: seen) fl
                ∧ (revFlow fr = true → r ∈ f :: seen)).
  { unfold acquired in Ha. fold f r in Ha.
    apply acquire_cases in Ha
      as [(Hf & -> & _)|(Hf & _ & _ & [(Hr & -> & ->)|(r0 & Hr & -> & ->)])].
    - split.
      + eapply flows_seen_mono; [|done].
        intros k Hk. apply elem_of_cons; auto.
      + intros Hrev. destruct (Hinv f fr Hf) as [_ H2].
        rewrite Hrf in H2. apply elem_of_cons; auto.
    - split; [|done]. intros k fr0 Hk.
      destruct (decide (f = k)) as [<-|Hne].
      + rewrite lookup_insert_eq in Hk. injection Hk as <-.
        split; [apply elem_of_cons; auto|done].
      + rewrite lookup_insert_ne in Hk by done.
        destruct (Hinv k fr0 Hk) as [H1 H2].
        split; [apply elem_of_cons; auto|].
        intros Hrev. apply elem_of_cons; auto.
    - assert (Hrs : r ∈ f :: seen).
      { destruct (decide (f = r)) as [<-|Hne]; [apply elem_of_cons; auto|].
        rewrite lookup_insert_ne in Hr by done.
        destruct (Hinv r r0 Hr). apply elem_of_cons; auto. }
      split; [|done]. intros k fr0 Hk.
      destruct (decide (f = k)) as [<-|Hne].
      { rewrite lookup_insert_eq in Hk. injection Hk as <-.
        split; [apply elem_of_cons; auto|]. intros _. by rewrite Hrf. }
      rewrite lookup_insert_ne in Hk by done.
      destruct (decide (r = k)) as [<-|Hne2].
      { rewrite lookup_insert_eq in Hk. injection Hk as <-.
        split; [done|]. intros _. rewrite Hrr. apply elem_of_cons; auto. }
      rewrite lookup_insert_ne in Hk by done.
      rewrite lookup_insert_ne in Hk by done.
      destruct (Hinv k fr0 Hk) as [H1 H2].
      split; [apply elem_of_cons; auto|].
      intros Hrev. apply elem_of_cons; auto. }
  destruct Hfl as [Hfl Hfr]. simpl. fold f. intros k fr0 Hk.
  destruct (decide (f = k)) as [<-|Hne].
  - rewrite lookup_insert_eq in Hk. injection Hk as <-. simpl.
    split; [apply elem_of_cons; auto|]. intros Hrev. rewrite Hrf. by apply Hfr.
  - rewrite lookup_insert_ne in Hk by done. by apply Hfl.
Qed.

Lemma flows_seen_classify cfg st pkt seen :
  wf_pkt pkt = true → flows_seen seen (flows st) →
  flows_seen (option_list (flow_name pkt) ++ seen)
             (flows (classify cfg st pkt).1).
Proof.
  intros Hwf Hinv. unfold classify, flow_name.
  destruct (tcp pkt) as [t|] eqn:Ht; [|done].
  destruct (read_l3 pkt t) as [h|] eqn:Hh; [|done].
  destruct (acquire _ _ _ _ _) as [[[fl cnt] fr]|] eqn:Ha.
  - exact (flows_seen_classified cfg st pkt h t fl cnt fr seen Hwf
             (conj Ht Hh) Ha Hinv).
  - simpl. eapply flows_seen_mono; [|done].
    intros k Hk. apply elem_of_cons; auto.
Qed.

Lemma flows_seen_housekeeping cfg l seen :
  flows_seen seen (flows (l_st l)) →
  flows_seen seen (flows (l_st (housekeeping cfg l))).
Proof.
  intros H. unfold housekeeping.
  destruct (Qnonzero _ && _); simpl;
    destruct (Qgtb (nxtSum l) 0); simpl;
    destruct (Qgeb _ _); simpl; try done;
    by apply flows_seen_filter.
Qed.

Lemma flows_seen_iteration cfg l pkt seen :
  wf_pkt pkt = true → flows_seen seen (flows (l_st l)) →
  flows_seen (option_list (flow_name pkt) ++ seen)
             (flows (l_st (iteration cfg l pkt).1.1)).
Proof.
  intros Hwf H. unfold iteration.
  pose proof (flows_seen_classify cfg _ pkt seen Hwf H) as H'.
  destruct (stop_now _ _); simpl; [done|].
  by apply (flows_seen_housekeeping cfg
              {| l_st := (classify cfg (l_st l) pkt).1;
                 nxtSum := nxtSum l; nxtClean := nxtClean l |}).
Qed.

(** The names in the table after a list of packets are names of these
    packets (or of the table before). *)
Lemma flows_seen_feed cfg pkts : ∀ l seen,
  Forall (λ q, wf_pkt q = true) pkts → flows_seen seen (flows (l_st l)) →
  ∃ seen', flows_seen seen' (flows (l_st (feed cfg l pkts)))
           ∧ ∀ k, k ∈ seen' → k ∈ seen ∨ ∃ q, q ∈ pkts ∧ flow_name q = Some k.
Proof.
  induction pkts as [|q pkts IH]; intros l seen Hwf H.
  - exists seen. split; [done|]. auto.
  - inversion Hwf as [|? ? Hq Hrest]; subst. simpl.
    destruct (IH (iteration cfg l q).1.1
                 (option_list (flow_name q) ++ seen) Hrest
                 (flows_seen_iteration cfg l q seen Hq H))
      as (seen' & Hs & Hin).
    exists seen'. split; [done|]. intros k Hk.
    destruct (Hin k Hk) as [Hk'|(q' & Hq' & Hn)].
    + apply elem_of_app in Hk' as [Hk'|Hk']; [|by left].
      right. exists q. split; [apply elem_of_cons; auto|].
      destruct (flow_name q) as [n|]; simpl in Hk'.
      * apply list_elem_of_singleton in Hk'. by subst.
      * by apply not_elem_of_nil in Hk'.
    + right. exists q'. split; [apply elem_of_cons; auto|done].
Qed.

(** ** The gate of the timestamp correlation *)

Lemma no_pping_of_false fr t :
  no_pping_of fr t = false
  ↔ ∃ v e, timestamp t = Some (v, e) ∧ v ≠ 0
           ∧ (e ≠ 0 ∨ has_flag (flags t) TCP_SYN = true)
           ∧ revFlow fr = true.
Proof.
  unfold no_pping_of. destruct (timestamp t) as [[v e]|]; split.
  - intros H. apply orb_false_elim in H as [H H3].
    apply orb_false_elim in H as [H1 H2].
    apply negb_false_iff in H1. apply Z.eqb_neq in H2.
    exists v, e. repeat split; try done.
    apply andb_false_iff in H3 as [H3|H3].
    + left. by apply Z.eqb_neq.
    + right. by apply negb_false_iff.
  - intros (v' & e' & [= <- <-] & Hv & He & Hr).
    rewrite Hr. apply Z.eqb_neq in Hv. rewrite Hv. simpl.
    destruct He as [He|He].
    + apply Z.eqb_neq in He. by rewrite He.
    + rewrite He. simpl. apply andb_false_r.
  - done.
  - by intros (v & e & ? & _).
Qed.

Lemma no_pping_unidir fr t : revFlow fr = false → no_pping_of fr t = true.
Proof.
  intros H. unfold no_pping_of. destruct (timestamp t) as [[v e]|]; [|done].
  by rewrite H.
Qed.

Lemma seqrtd_unidir cfg h t fr now (tbl : gmap string Q) :
  revFlow fr = false → seqrtd cfg h t fr now tbl = (false, 0%Q, tbl).
Proof.
  intros H. unfold seqrtd. destruct (local_blocked cfg h); [done|].
  by rewrite H.
Qed.

(** A packet whose reverse flow has not been seen works on a record that
    is not marked bidirectional. *)
Lemma acquired_unidir cfg pkts pkt h t fl cnt fr :
  parses pkt h t →
  Forall (λ q, wf_pkt q = true) (pkts ++ [pkt]) →
  Forall (λ q, flow_name q ≠ Some (rstr_of h t)) (pkts ++ [pkt]) →
  acquired cfg (l_st (feed cfg init_loop pkts)) h t fl cnt fr →
  revFlow fr = false.
Proof.
  intros Hp Hwf Hno Ha.
  apply Forall_app in Hwf as [Hwf Hwfp]. apply Forall_inv in Hwfp.
  apply Forall_app in Hno as [Hno Hnop]. apply Forall_inv in Hnop.
  rewrite (flow_name_parses _ _ _ Hp) in Hnop.
  destruct (rev_name_fstr _ _ _ Hwfp Hp) as [Hrf _].
  destruct (flows_seen_feed cfg pkts init_loop [] Hwf)
    as (seen & Hseen & Hin).
  { intros k fr0 Hk. simpl in Hk. by rewrite lookup_empty in Hk. }
  assert (Hnot : rstr_of h t ∉ seen).
  { intros Hk. destruct (Hin _ Hk) as [Hk'|(q & Hq & Hn)].
    - by apply not_elem_of_nil in Hk'.
    - rewrite Forall_forall in Hno. by apply (Hno q Hq). }
  unfold acquired in Ha.
  apply acquire_cases in Ha
    as [(Hf & -> & _)|(Hf & _ & _ & [(Hr & -> & ->)|(r0 & Hr & -> & ->)])].
  - destruct (revFlow fr) eqn:Hrev; [|done].
    destruct (Hseen _ _ Hf) as [_ H2]. rewrite Hrf in H2.
    exfalso. by apply Hnot, H2.
  - done.
  - exfalso. rewrite lookup_insert_ne in Hr by congruence.
    destruct (Hseen _ _ Hr) as [H1 _]. by apply Hnot.
Qed.

(** C8 (as the code has it): the timestamp correlation of a packet that
    has its flow record is made exactly when the packet has a timestamp
    option, its TSval is not 0, its ECR is not 0 or its SYN flag is set,
    and the record is marked bidirectional: then the ECR is looked up (and
    its entry erased) in the table the TSval has been added to unless the
    local filter blocks it, and a TSval RTT is reported exactly when the
    time found is above 0; otherwise the timestamp table is left as it is
    and no TSval RTT is reported.  Consequently, in any run, a packet of a
    flow whose reverse flow has appeared in no packet so far reports
    neither a TSval RTT nor a seqno RTT; when it has its flow record it
    leaves both tables alone and adds one to [uniDir]; when it has none,
    being of a new flow met with a full flow table, it is dropped without
    a line and [uniDir] stays as it is. *)
Theorem C8_timestamp_gate (cfg : Config) (pkts : list Packet) (pkt : Packet)
    (h : Hdr) (t : TCP) :
  parses pkt h t →
  let st := l_st (feed cfg init_loop pkts) in
  (∀ fl cnt fr, acquired cfg st h t fl cnt fr →
     let r := classified cfg st pkt h t fl cnt fr in
     classify cfg st pkt = (r.1, Classified r.2)
     ∧ ((∃ v e, timestamp t = Some (v, e) ∧ v ≠ 0
                ∧ (e ≠ 0 ∨ has_flag (flags t) TCP_SYN = true)
                ∧ revFlow fr = true
                ∧ tsTbl r.1
                  = (getTStm (tbl_key e (rstr_of h t))
                       (if local_blocked cfg h then tsTbl st
                        else addTS (tbl_key v (fstr_of h t)) (c_capTm r.2)
                               (tsTbl st))).2
                ∧ c_pd r.2
                  = Qgtb (getTStm (tbl_key e (rstr_of h t))
                            (if local_blocked cfg h then tsTbl st
                             else addTS (tbl_key v (fstr_of h t))
                                    (c_capTm r.2) (tsTbl st))).1 0)
        ∨ (¬ (∃ v e, timestamp t = Some (v, e) ∧ v ≠ 0
                     ∧ (e ≠ 0 ∨ has_flag (flags t) TCP_SYN = true)
                     ∧ revFlow fr = true)
           ∧ tsTbl r.1 = tsTbl st ∧ c_pd r.2 = false)))
  ∧ (Forall (λ q, wf_pkt q = true) (pkts ++ [pkt]) →
     Forall (λ q, flow_name q ≠ Some (rstr_of h t)) (pkts ++ [pkt]) →
     (∀ st' c, classify cfg st pkt = (st', Classified c) →
               c_pd c = false ∧ c_sd c = false
               ∧ uniDir st' = uniDir st + 1
               ∧ tsTbl st' = tsTbl st ∧ seqTbl st' = seqTbl st)
     ∧ (∀ o, (processPacket cfg st pkt).2 = Some o →
             o_prtd o = None ∧ o_srtd o = None)
     ∧ ((∃ st' c, classify cfg st pkt = (st', Classified c))
        ∨ ((classify cfg st pkt).2 = Dropped
           ∧ flows st !! fstr_of h t = None ∧ maxFlows cfg < flowCnt st
           ∧ uniDir (processPacket cfg st pkt).1 = uniDir st
           ∧ (processPacket cfg st pkt).2 = None))).
Proof.
  intros Hp st. split.
  - intros fl cnt fr Ha r.
    split; [by apply classify_Classified|].
    destruct (no_pping_of fr t) eqn:Hnp.
    + right. split.
      * intros Hu. apply no_pping_of_false in Hu. congruence.
      * subst r. unfold classified. cbn [fst snd tsTbl c_pd].
        by rewrite (pping_unusable _ _ _ _ _ _ Hnp).
    + left. pose proof Hnp as Hu. apply no_pping_of_false in Hu
        as (v & e & Hts & Hv & He & Hr).
      exists v, e. split; [done|]. split; [done|]. split; [done|].
      split; [done|].
      subst r. unfold classified. cbn [fst snd tsTbl c_pd c_capTm].
      rewrite (pping_usable _ _ _ _ _ _ v e) by done. cbn zeta.
      by destruct (Qgtb _ 0).
  - intros Hwf Hno.
    assert (Hcl : ∀ st' c, classify cfg st pkt = (st', Classified c) →
                  c_pd c = false ∧ c_sd c = false
                  ∧ uniDir st' = uniDir st + 1
                  ∧ tsTbl st' = tsTbl st ∧ seqTbl st' = seqTbl st).
    { intros st' c Hc.
      destruct (classify_inv _ _ _ _ _ Hc)
        as (h' & t' & fl & cnt & fr & [Ht Hh] & Ha & Hcl).
      destruct Hp as [Ht' Hh']. rewrite Ht' in Ht. injection Ht as <-.
      rewrite Hh' in Hh. injection Hh as <-.
      assert (Hrev : revFlow fr = false)
        by exact (acquired_unidir cfg pkts pkt h t fl cnt fr
                    (conj Ht' Hh') Hwf Hno Ha).
      injection Hcl as <- <-. simpl.
      rewrite (pping_unusable _ _ _ _ _ _ (no_pping_unidir _ _ Hrev)).
      rewrite (seqrtd_unidir _ _ _ _ _ _ Hrev). by rewrite Hrev. }
    split; [exact Hcl|]. split.
    + intros o. unfold processPacket. cbn [snd].
      destruct (classify cfg st pkt) as [st' [| | |c]] eqn:Hc; try done.
      cbn [snd]. destruct (Hcl st' c eq_refl) as (Hpd & Hsd & _).
      unfold emit. rewrite Hpd, Hsd.
      destruct (negb false && negb false && _ && _); [done|].
      destruct (quick cfg && _ && _); [done|].
      by intros [= <-].
    + destruct (classify_outcome cfg st pkt h t Hp)
        as [Hc|(Hd & Hf & Hm)]; [by left|right].
      split; [done|]. split; [done|]. split; [done|].
      unfold processPacket. cbn [fst snd]. rewrite Hd.
      split; [|done]. destruct Hp as [Ht Hh].
      unfold classify. rewrite Ht, Hh. unfold acquire. rewrite Hf.
      apply Z.ltb_lt in Hm. by rewrite Hm.
Qed.

Lemma C8_timestamp_gate_witness :
  (let st := l_st (feed default_config init_loop oneway_pkts) in
   let r := classified default_config st oneway_pkt oneway_hdr oneway_tcp
              (flows st) (flowCnt st)
              (default (new_flowRec "")
                 (flows st !! fstr_of oneway_hdr oneway_tcp)) in
   classify default_config st oneway_pkt = (r.1, Classified r.2)
   ∧ c_pd r.2 = false ∧ c_sd r.2 = false
   ∧ uniDir r.1 = uniDir st + 1 ∧ tsTbl r.1 = tsTbl st)
  ∧ (classify default_config ping_hs_st ping_data
     = (data_r.1, Classified data_r.2)
     ∧ revFlow data_fr = true ∧ c_pd data_r.2 = true).
Proof.
  split.
  - intros st r.
    assert (Hc : classify default_config st oneway_pkt
                 = (r.1, Classified r.2)).
    { apply classify_Classified; [split; reflexivity|].
      vm_refl. }
    split; [exact Hc|].
    destruct (C8_timestamp_gate default_config oneway_pkts oneway_pkt
                oneway_hdr oneway_tcp) as [_ Hone].
    + split; reflexivity.
    + destruct Hone as (Hcl & _ & _).
      * repeat constructor.
      * repeat constructor; vm_compute; discriminate.
      * destruct (Hcl r.1 r.2 Hc) as (Hpd & Hsd & Hu & Hts & _).
        exact (conj Hpd (conj Hsd (conj Hu Hts))).
  - destruct (C8_timestamp_gate default_config (take 2 ping_open) ping_data
                data_hdr data_tcp) as [Hgate _].
    + split; reflexivity.
    + destruct (Hgate (flows ping_hs_st) (flowCnt ping_hs_st) data_fr)
        as [Hc _]; [vm_refl|].
      split; [exact Hc|]. split; vm_refl.
Defined.

(** ** The packet count limit *)

Lemma classify_pktCnt cfg st pkt :
  pktCnt (classify cfg st pkt).1 = pktCnt st + 1.
Proof.
  unfold classify. destruct (tcp pkt) as [t|]; [|done].
  destruct (read_l3 pkt t) as [h|]; [|done].
  by destruct (acquire _ _ _ _ _) as [[[fl cnt] fr]|].
Qed.

Lemma housekeeping_pktCnt cfg l :
  Qnonzero (sumInt cfg) = false →
  pktCnt (l_st (housekeeping cfg l)) = pktCnt (l_st l).
Proof.
  intros Hq. unfold housekeeping. rewrite Hq. simpl.
  by destruct (Qgeb _ _).
Qed.

(** Without periodic summaries ([sumInt] is 0, flag [-q]) [pktCnt] counts
    every packet of the run, and the loop is left at the latest when it
    reaches [maxPackets]. *)
Lemma count_limit_without_summaries cfg pkts : ∀ l,
  Qnonzero (sumInt cfg) = false → 0 < maxPackets cfg →
  pktCnt (l_st l) < maxPackets cfg →
  Z.of_nat (run cfg l pkts).2 <= maxPackets cfg - pktCnt (l_st l).
Proof.
  induction pkts as [|pkt pkts IH]; intros l Hq Hmax Hcnt; simpl; [lia|].
  unfold iteration, processPacket. cbn [fst snd].
  pose proof (classify_pktCnt cfg (l_st l) pkt) as Hc.
  destruct (stop_now cfg (classify cfg (l_st l) pkt).1) eqn:Hstop;
    cbn [fst snd]; [lia|].
  unfold stop_now in Hstop. apply orb_false_elim in Hstop as [_ Hstop].
  apply Z.ltb_lt in Hmax as Hmax'. rewrite Hmax' in Hstop. simpl in Hstop.
  apply Z.leb_gt in Hstop.
  set (l' := housekeeping cfg _).
  assert (Hl' : pktCnt (l_st l') = pktCnt (l_st l) + 1).
  { subst l'. rewrite housekeeping_pktCnt by done. simpl. done. }
  specialize (IH l' Hq Hmax). rewrite Hl' in IH.
  specialize (IH ltac:(lia)). lia.
Qed.

(** C3, evaluated on the code: with [maxPackets = 3] and summaries every
    10 s, the loop hands all five packets of [slow_trace] to
    [processPacket], because each summary zeroes [pktCnt], the counter the
    stop condition tests; it stops after the third packet when summaries
    are off. *)
Theorem C3_count_limit_overrun :
  maxPackets count_config = 3
  ∧ (run count_config init_loop slow_trace).2 = 5%nat
  ∧ pktCnt (l_st (run count_config init_loop slow_trace).1.1) = 0
  ∧ (run quiet_count_config init_loop slow_trace).2 = 3%nat.
Proof.
  split; [vm_refl|]. split; [vm_refl|]. split; [vm_refl|]. vm_refl.
Qed.

(** ** The flow table cap *)

(** With [maxFlows] flows in the table, a packet of a new flow still has
    its record created. *)
Lemma acquire_at_cap cfg (fl : gmap string flowRec) f r :
  fl !! f = None →
  ∃ fl' fr, acquire cfg fl (maxFlows cfg) f r
            = Some (fl', maxFlows cfg + 1, fr).
Proof.
  intros Hf. unfold acquire. rewrite Hf, Z.ltb_irrefl.
  destruct (<[f:=new_flowRec f]> fl !! r); eauto.
Qed.

(** The packet is dropped only from [maxFlows + 1] flows on. *)
Lemma acquire_full cfg (fl : gmap string flowRec) cnt f r :
  fl !! f = None → maxFlows cfg < cnt → acquire cfg fl cnt f r = None.
Proof.
  intros Hf Hc. unfold acquire. rewrite Hf.
  apply Z.ltb_lt in Hc. by rewrite Hc.
Qed.

Lemma acquire_new_size cfg (fl : gmap string flowRec) cnt f r fl' cnt' fr :
  acquire cfg fl cnt f r = Some (fl', cnt', fr) → fl !! f = None →
  cnt' = cnt + 1 ∧ size fl' = S (size fl)
  ∧ ∀ k, is_Some (fl' !! k) → k = f ∨ is_Some (fl !! k).
Proof.
  intros Ha Hf. apply acquire_cases in Ha
    as [(Hf' & _)|(_ & _ & -> & [(_ & -> & _)|(r0 & Hr & -> & _)])].
  - congruence.
  - split; [done|]. split; [by apply map_size_insert_None|].
    intros k Hk. destruct (decide (f = k)) as [<-|Hne]; [by left|].
    rewrite lookup_insert_ne in Hk by done. by right.
  - split; [done|]. split.
    + rewrite map_size_insert_Some, map_size_insert_Some.
      * by apply map_size_insert_None.
      * by exists r0.
      * destruct (decide (r = f)) as [->|Hne].
        -- rewrite lookup_insert_eq. by eexists.
        -- rewrite lookup_insert_ne by done. rewrite lookup_insert_eq.
           by eexists.
    + intros k Hk. destruct (decide (f = k)) as [<-|Hne]; [by left|].
      rewrite lookup_insert_ne in Hk by done.
      destruct (decide (r = k)) as [<-|Hne2].
      * right. rewrite lookup_insert_ne in Hr by done. by exists r0.
      * rewrite !lookup_insert_ne in Hk by done. by right.
Qed.

(** The record written back at the end replaces the one acquired. *)
Lemma classified_flows cfg st pkt h t fl cnt fr :
  fl !! fstr_of h t = Some fr →
  size (flows (classified cfg st pkt h t fl cnt fr).1) = size fl
  ∧ ∀ k, is_Some (flows (classified cfg st pkt h t fl cnt fr).1 !! k)
         → is_Some (fl !! k).
Proof.
  intros Hf. simpl. split.
  - apply map_size_insert_Some. by exists fr.
  - intros k Hk. destruct (decide (fstr_of h t = k)) as [<-|Hne].
    + by exists fr.
    + by rewrite lookup_insert_ne in Hk.
Qed.

Lemma stop_now_default st : stop_now default_config st = false.
Proof. reflexivity. Qed.

Lemma housekeeping_idle cfg l :
  Qgeb (capTm (l_st l)) (nxtSum l) = false →
  Qgeb (capTm (l_st l)) (nxtClean l) = false →
  housekeeping cfg l = l.
Proof.
  intros H1 H2. unfold housekeeping. rewrite H1, andb_false_r. simpl.
  rewrite H2. by destruct l.
Qed.

Lemma run_cons_continue cfg l pkt pkts :
  (iteration cfg l pkt).2 = false →
  run cfg l (pkt :: pkts)
  = ((run cfg (iteration cfg l pkt).1.1 pkts).1.1,
     option_list (iteration cfg l pkt).1.2
     ++ (run cfg (iteration cfg l pkt).1.1 pkts).1.2,
     S (run cfg (iteration cfg l pkt).1.1 pkts).2).
Proof. intros H. simpl. by rewrite H. Qed.

(** ** What the cap does guarantee *)

(** [cleanUp] counts down once for each record it erases. *)
Lemma cleanUp_size cfg n (fl : gmap string flowRec) :
  (size (filter (λ e, idle cfg n e = false) fl)
   + size (filter (λ e, idle cfg n e = true) fl))%nat
  = size fl.
Proof.
  rewrite <- (map_filter_union_complement
                (λ e, idle cfg n e = false) fl) at 3.
  rewrite map_size_disj_union
    by apply map_disjoint_filter_complement.
  f_equal. f_equal. apply map_filter_ext. intros k fr _.
  by destruct (idle cfg n (k, fr)).
Qed.

Lemma flow_count_classify cfg st pkt :
  flow_count_ok cfg st → flow_count_ok cfg (classify cfg st pkt).1.
Proof.
  intros [Hsz Hle]. unfold classify.
  destruct (tcp pkt) as [t|]; [|done].
  destruct (read_l3 pkt t) as [h|]; [|done].
  destruct (acquire _ _ _ _ _) as [[[fl cnt] fr]|] eqn:Ha; [|done].
  pose proof (acquire_lookup _ _ _ _ _ _ _ _ Ha) as Hlk.
  destruct (classified_flows cfg st pkt h t fl cnt fr Hlk) as [Hsz' _].
  unfold flow_count_ok. cbn [fst]. rewrite Hsz'.
  change (flowCnt (classified cfg st pkt h t fl cnt fr).1) with cnt.
  destruct (flows st !! fstr_of h t) as [fr0|] eqn:Hf.
  - apply acquire_cases in Ha as [(_ & -> & ->)|(? & _)]; [done|congruence].
  - destruct (acquire_new_size _ _ _ _ _ _ _ _ Ha Hf) as (-> & -> & _).
    apply acquire_cases in Ha as [(? & _)|(_ & Hc & _)]; [congruence|].
    split; lia.
Qed.

Lemma flow_count_cleanUp cfg st n :
  flow_count_ok cfg st → flow_count_ok cfg (cleanUp cfg st n).
Proof.
  intros [Hsz Hle]. unfold flow_count_ok, cleanUp. cbn [flows flowCnt].
  pose proof (cleanUp_size cfg n (flows st)). split; lia.
Qed.

Lemma flow_count_iteration cfg l pkt :
  flow_count_ok cfg (l_st l) →
  flow_count_ok cfg (l_st (iteration cfg l pkt).1.1).
Proof.
  intros H. unfold iteration, processPacket. cbn [fst snd].
  pose proof (flow_count_classify cfg (l_st l) pkt H) as H'.
  destruct (stop_now _ _); cbn [fst snd l_st]; [done|].
  unfold housekeeping. cbn [l_st nxtSum nxtClean].
  destruct (Qnonzero _ && _); cbn [andb];
    destruct (Qgtb (nxtSum l) 0); cbn [l_st];
    destruct (Qgeb _ _); cbn [l_st]; try done;
    by apply flow_count_cleanUp.
Qed.

(** At every point of a run [flowCnt] is the number of live flow records,
    and there are at most [maxFlows + 1] of them. *)
Lemma flow_count_bound cfg pkts :
  -1 <= maxFlows cfg →
  flow_count_ok cfg (l_st (feed cfg init_loop pkts)).
Proof.
  intros Hmax.
  assert (H0 : flow_count_ok cfg (l_st init_loop))
    by (split; [reflexivity|simpl; lia]).
  revert H0. generalize init_loop.
  induction pkts as [|pkt pkts IH]; intros l Hl; [done|].
  simpl. apply IH. by apply flow_count_iteration.
Qed.

(** ** A port scan *)

Lemma scan_parses i : parses (scan_pkt i) scan_hdr (scan_tcp i).
Proof. split; reflexivity. Qed.

Lemma scan_name_inj i j : scan_name i = scan_name j → i = j.
Proof.
  unfold scan_name. intros H.
  destruct (wf_pkt_addresses (scan_pkt i) _ _ eq_refl (scan_parses i))
    as [Hi _].
  destruct (wf_pkt_addresses (scan_pkt j) _ _ eq_refl (scan_parses j))
    as [Hj _].
  pose proof (split_plus_app _ (dststr scan_hdr (scan_tcp i)) Hi) as Si.
  pose proof (split_plus_app _ (dststr scan_hdr (scan_tcp j)) Hj) as Sj.
  unfold fstr_of in H. rewrite H in Si. rewrite Si in Sj.
  assert (Hs : srcstr scan_hdr (scan_tcp i) = srcstr scan_hdr (scan_tcp j))
    by congruence.
  unfold srcstr in Hs. simpl in Hs.
  apply (inj (String.app hostA)) in Hs.
  apply (inj (String.app ":")) in Hs.
  by apply (inj pretty) in Hs.
Qed.

(** One more port: one more record, and nothing else changes. *)
Lemma scan_step l n :
  scan_inv l n → 0 <= n <= 10000 →
  (iteration default_config l (scan_pkt (n + 1))).2 = false
  ∧ scan_inv (iteration default_config l (scan_pkt (n + 1))).1.1 (n + 1).
Proof.
  intros (Hoff & Hsum & Hclean & Hcnt & Hsize & Hkeys) Hn.
  set (st := l_st l) in *. set (pkt := scan_pkt (n + 1)).
  set (f := scan_name (n + 1)).
  assert (Hf : flows st !! f = None).
  { destruct (flows st !! f) as [fr0|] eqn:E; [|done].
    destruct (Hkeys f) as (j & Hj & Hjn); [by exists fr0|].
    apply scan_name_inj in Hjn. lia. }
  destruct (acquire default_config (flows st) (flowCnt st) f
              (rstr_of scan_hdr (scan_tcp (n + 1))))
    as [[[fl cnt] fr]|] eqn:Ha.
  2:{ unfold acquire in Ha. rewrite Hf in Ha.
      assert (Hc : (maxFlows default_config <? flowCnt st) = false)
        by (apply Z.ltb_ge; simpl; lia).
      rewrite Hc in Ha. by destruct (_ !! _) in Ha. }
  destruct (acquire_new_size _ _ _ _ _ _ _ _ Ha Hf) as (-> & Hsz & Hk).
  pose proof (acquire_lookup _ _ _ _ _ _ _ _ Ha) as Hlk.
  destruct (classified_flows default_config st pkt scan_hdr
              (scan_tcp (n + 1)) fl (flowCnt st + 1) fr Hlk) as [Hsz' Hk'].
  assert (Hc : classify default_config st pkt
               = ((classified default_config st pkt scan_hdr
                     (scan_tcp (n + 1)) fl (flowCnt st + 1) fr).1,
                  Classified (classified default_config st pkt scan_hdr
                     (scan_tcp (n + 1)) fl (flowCnt st + 1) fr).2)).
  { apply classify_Classified; [apply scan_parses|exact Ha]. }
  set (st' := (classified default_config st pkt scan_hdr
                 (scan_tcp (n + 1)) fl (flowCnt st + 1) fr).1) in *.
  assert (Hclk : stamp st pkt
                 = (1525700000, startm st, (0 # 1000000)%Q)).
  { unfold stamp. rewrite Hoff. reflexivity. }
  assert (Hcap : capTm st' = (0 # 1000000)%Q)
    by (subst st'; simpl; by rewrite Hclk).
  assert (Hoff' : offTm st' = 1525700000)
    by (subst st'; simpl; by rewrite Hclk).
  assert (Hcnt' : flowCnt st' = n + 1) by (subst st'; simpl; lia).
  unfold iteration, processPacket. cbn [fst snd]. fold st pkt.
  rewrite Hc. cbn [fst snd].
  rewrite stop_now_default. cbn [fst snd]. split; [done|].
  rewrite housekeeping_idle; cbn [l_st nxtSum nxtClean];
    [|by rewrite Hcap, Hsum|by rewrite Hcap, Hclean].
  repeat split; cbn [l_st nxtSum nxtClean]; try done.
  - rewrite Hsz', Hsz. lia.
  - intros k Hk0. destruct (Hk k (Hk' k Hk0)) as [->|Hold].
    + exists (n + 1). split; [lia|done].
    + destruct (Hkeys k Hold) as (j & Hj & ->). exists j. split; [lia|done].
Qed.

Lemma scan_steps k : ∀ l n,
  scan_inv l n → 0 <= n → n + Z.of_nat k <= 10001 →
  scan_inv (run default_config l
              (scan_pkt <$> seqZ (n + 1) (Z.of_nat k))).1.1
           (n + Z.of_nat k)
  ∧ Z.of_nat (run default_config l
                (scan_pkt <$> seqZ (n + 1) (Z.of_nat k))).2
    = Z.of_nat k.
Proof.
  induction k as [|k IH]; intros l n Hinv Hn Hle.
  - simpl. by rewrite Z.add_0_r.
  - rewrite seqZ_cons by lia. rewrite fmap_cons.
    destruct (scan_step l n Hinv ltac:(lia)) as [Hcont Hinv'].
    rewrite run_cons_continue by done. cbn [fst snd].
    replace (Z.pred (Z.of_nat (S k))) with (Z.of_nat k) by lia.
    replace (Z.succ (n + 1)) with ((n + 1) + 1) by lia.
    destruct (IH _ (n + 1) Hinv' ltac:(lia) ltac:(lia)) as [H1 H2].
    split; [|lia].
    by replace (n + Z.of_nat (S k)) with (n + 1 + Z.of_nat k) by lia.
Qed.

(** The first packet of the scan sets the clock origin, makes [cleanUp] run
    and sets the next summary and clean-up times. *)
Lemma scan_first :
  (iteration default_config init_loop (scan_pkt 1)).2 = false
  ∧ scan_inv (iteration default_config init_loop (scan_pkt 1)).1.1 1.
Proof.
  split; [vm_refl|]. split; [vm_refl|]. split; [vm_refl|].
  split; [vm_refl|]. split; [vm_refl|]. split; [vm_refl|].
  intros k Hk. exists 1. split; [lia|].
  assert (Hfl : flows (l_st (iteration default_config init_loop
                              (scan_pkt 1)).1.1)
                = {[ scan_name 1 :=
                       {| flowname := scan_name 1;
                          lastTm := (0 # 1000000)%Q; bytesSnt := 54;
                          lastSeq := 1; lastAck := 0; lastPay := 0;
                          revFlow := false |} ]}) by vm_refl.
  rewrite Hfl in Hk. destruct Hk as [x Hk].
  by apply lookup_singleton_Some in Hk as [<- _].
Qed.

(** A scan from [m] source ports, up to 10001 of them, leaves [m] records
    in the flow table. *)
Lemma scan_run m :
  1 <= m <= 10001 →
  Z.of_nat (run default_config init_loop (scan_trace m)).2 = m
  ∧ Z.of_nat
      (size (flows (l_st (run default_config init_loop (scan_trace m)).1.1)))
    = m
  ∧ flowCnt (l_st (run default_config init_loop (scan_trace m)).1.1) = m.
Proof.
  intros Hm. destruct scan_first as [Hcont Hinv].
  unfold scan_trace. rewrite seqZ_cons by lia. rewrite fmap_cons.
  rewrite run_cons_continue by exact Hcont. cbn [fst snd].
  replace (Z.succ 1) with (1 + 1) by lia.
  rewrite <- (Z2Nat.id (Z.pred m)) by lia.
  destruct (scan_steps (Z.to_nat (Z.pred m)) _ 1 Hinv)
    as [(_ & _ & _ & Hcnt & Hsize & _) Hrun]; [lia..|].
  split; [lia|]. split; [lia|lia].
Qed.

(** C4, evaluated on the code: after a scan from 10001 source ports, each
    packet handed to [processPacket], the flow table holds 10001 records
    and [flowCnt] is 10001, one more than [maxFlows]. *)
Theorem C4_flow_cap_overrun :
  maxFlows default_config = 10000
  ∧ Z.of_nat (run default_config init_loop (scan_trace 10001)).2 = 10001
  ∧ Z.of_nat
      (size (flows (l_st (run default_config init_loop
                            (scan_trace 10001)).1.1))) = 10001
  ∧ flowCnt (l_st (run default_config init_loop (scan_trace 10001)).1.1)
    = 10001.
Proof. split; [reflexivity|]. apply (scan_run 10001). lia. Qed.

(** The flow table during the scan, as [feed] leaves it. *)
Lemma scan_feed_steps k : ∀ l n,
  scan_inv l n → 0 <= n → n + Z.of_nat k <= 10001 →
  scan_inv (feed default_config l (scan_pkt <$> seqZ (n + 1) (Z.of_nat k)))
           (n + Z.of_nat k).
Proof.
  induction k as [|k IH]; intros l n Hinv Hn Hle.
  - simpl. by rewrite Z.add_0_r.
  - rewrite seqZ_cons by lia. rewrite fmap_cons.
    destruct (scan_step l n Hinv ltac:(lia)) as [_ Hinv'].
    change (feed default_config l (scan_pkt (n + 1) :: ?ps))
      with (feed default_config
              (iteration default_config l (scan_pkt (n + 1))).1.1 ps).
    replace (Z.pred (Z.of_nat (S k))) with (Z.of_nat k) by lia.
    replace (Z.succ (n + 1)) with ((n + 1) + 1) by lia.
    replace (n + Z.of_nat (S k)) with (n + 1 + Z.of_nat k) by lia.
    apply IH; [done|lia|lia].
Qed.

Lemma scan_feed m :
  1 <= m <= 10001 →
  scan_inv (feed default_config init_loop (scan_trace m)) m.
Proof.
  intros Hm. destruct scan_first as [_ Hinv].
  unfold scan_trace. rewrite seqZ_cons by lia. rewrite fmap_cons.
  change (feed default_config init_loop (scan_pkt 1 :: ?ps))
    with (feed default_config
            (iteration default_config init_loop (scan_pkt 1)).1.1 ps).
  replace (Z.succ 1) with (1 + 1) by lia.
  rewrite <- (Z2Nat.id (Z.pred m)) by lia.
  replace m with (1 + Z.of_nat (Z.to_nat (Z.pred m))) at 2 by lia.
  apply scan_feed_steps; [done|lia|lia].
Qed.

Lemma scan_wf i : wf_pkt (scan_pkt i) = true.
Proof. reflexivity. Qed.

Lemma scan_one_way i j :
  flow_name (scan_pkt i) ≠ Some (rstr_of scan_hdr (scan_tcp j)).
Proof.
  rewrite (flow_name_parses _ _ _ (scan_parses i)). intros [= H].
Qed.

(** With 10001 flows in the table the packet from one more port is
    dropped, and [uniDir] stays as it is. *)
Lemma scan_dropped l :
  scan_inv l 10001 →
  (classify default_config (l_st l) (scan_pkt 10002)).2 = Dropped
  ∧ uniDir (processPacket default_config (l_st l) (scan_pkt 10002)).1
    = uniDir (l_st l).
Proof.
  intros (_ & _ & _ & Hcnt & _ & Hkeys).
  assert (Hf : flows (l_st l) !! scan_name 10002 = None).
  { destruct (flows (l_st l) !! scan_name 10002) as [fr0|] eqn:E; [|done].
    destruct (Hkeys (scan_name 10002)) as (j & Hj & Hjn); [by exists fr0|].
    apply scan_name_inj in Hjn. lia. }
  assert (Ha : acquire default_config (flows (l_st l)) (flowCnt (l_st l))
                 (fstr_of scan_hdr (scan_tcp 10002))
                 (rstr_of scan_hdr (scan_tcp 10002)) = None).
  { apply acquire_full; [exact Hf|]. rewrite Hcnt. reflexivity. }
  destruct (scan_parses 10002) as [Ht Hh].
  unfold processPacket. cbn [fst]. unfold classify.
  rewrite Ht, Hh, Ha. cbn [fst snd uniDir]. split; reflexivity.
Qed.

Lemma scan_all (P : Packet → Prop) n j :
  (∀ i, P (scan_pkt i)) → Forall P (scan_trace n ++ [scan_pkt j]).
Proof.
  intros HP. apply Forall_app. split.
  - unfold scan_trace. apply Forall_fmap, Forall_forall.
    intros i _. apply HP.
  - constructor; [apply HP|constructor].
Qed.

(** C8, the claim as stated fails: after the scan from 10001 source ports
    the flow table is full, and the packet from one more port, of a flow
    seen in this direction only, is dropped before [uniDir] is counted. *)
Lemma C8_counterexample :
  parses (scan_pkt 10002) scan_hdr (scan_tcp 10002)
  ∧ Forall (λ q, wf_pkt q = true) (scan_trace 10001 ++ [scan_pkt 10002])
  ∧ Forall (λ q, flow_name q ≠ Some (rstr_of scan_hdr (scan_tcp 10002)))
           (scan_trace 10001 ++ [scan_pkt 10002])
  ∧ (classify default_config
       (l_st (feed default_config init_loop (scan_trace 10001)))
       (scan_pkt 10002)).2 = Dropped
  ∧ uniDir (processPacket default_config
              (l_st (feed default_config init_loop (scan_trace 10001)))
              (scan_pkt 10002)).1
    = uniDir (l_st (feed default_config init_loop (scan_trace 10001))).
Proof.
  split; [exact (scan_parses 10002)|].
  split; [exact (scan_all _ 10001 10002 scan_wf)|].
  split; [exact (scan_all _ 10001 10002 (λ i, scan_one_way i 10002))|].
  exact (scan_dropped _ (scan_feed 10001 ltac:(lia))).
Qed.

(** * Further properties of the program *)

(** ** Tables: insertion and retrieval *)

(** X1: a time stored under a key that was not in the table is what the
    next retrieval under that key returns, and the retrieval leaves the
    table exactly as it was before the insertion. *)
Theorem X1_insert_take_roundtrip (tbl : gmap string Q) (k : string) (t : Q) :
  tbl !! k = None →
  getTStm k (addTS k t tbl) = (t, tbl)
  ∧ getSeqTm k (addSeq k t tbl) = (t, tbl).
Proof.
  intros Hk. split.
  - rewrite (getTStm_present _ _ t) by by apply addTS_fresh.
    unfold addTS. rewrite Hk. by rewrite delete_insert_id.
  - rewrite (getSeqTm_present _ _ t) by by apply addSeq_fresh.
    unfold addSeq. rewrite Hk. by rewrite delete_insert_id.
Qed.

Lemma X1_insert_take_roundtrip_witness :
  ({[ "7+b+a" := 1%Q ]} : gmap string Q) !! "9+a+b" = None
  ∧ getTStm "9+a+b" (addTS "9+a+b" 3 {[ "7+b+a" := 1%Q ]})
    = (3%Q, {[ "7+b+a" := 1%Q ]}).
Proof.
  split; [vm_refl|].
  apply (X1_insert_take_roundtrip {[ "7+b+a" := 1%Q ]} "9+a+b" 3). vm_refl.
Defined.

(** ** Clean-up, twice *)

Lemma filter_twice {A} (P : string * A → Prop) `{!∀ x, Decision (P x)}
    (m : gmap string A) :
  filter P (filter P m) = filter P m.
Proof.
  apply map_filter_id. intros i x Hi.
  by apply map_lookup_filter_Some in Hi as [_ ?].
Qed.

Lemma filter_none {A} (P Q : string * A → Prop) `{!∀ x, Decision (P x)}
    `{!∀ x, Decision (Q x)} (m : gmap string A) :
  (∀ x, P x → Q x → False) → filter Q (filter P m) = ∅.
Proof.
  intros HPQ. apply map_empty. intros i.
  apply map_lookup_filter_None. right. intros x Hx HQ.
  apply map_lookup_filter_Some in Hx as [_ HP]. by apply (HPQ (i, x)).
Qed.

(** X2: [cleanUp] is idempotent: run again at the same time on its own
    result it erases nothing and leaves [flowCnt] alone. *)
Theorem X2_cleanUp_idempotent (cfg : Config) (st : State) (n : Q) :
  cleanUp cfg (cleanUp cfg st n) n = cleanUp cfg st n.
Proof.
  unfold cleanUp. cbn [flows tsTbl seqTbl flowCnt offTm capTm startm pktCnt
                       not_tcp no_TS not_v4or6 uniDir].
  rewrite !filter_twice.
  rewrite (filter_none (λ e, idle cfg n e = false) (λ e, idle cfg n e = true)).
  - rewrite map_size_empty. simpl. by rewrite Z.sub_0_r.
  - intros x H1 H2. congruence.
Qed.

(** ** Sequence numbers *)

Lemma wrap32_range x : 0 <= wrap32 x < 2 ^ 32.
Proof. unfold wrap32. by apply Z.mod_pos_bound. Qed.

Lemma to_int32_signed a d :
  - 2 ^ 31 <= d < 2 ^ 31 → to_int32 (wrap32 (a + d) - wrap32 a) = d.
Proof.
  intros Hd. unfold to_int32, wrap32.
  assert (H : ((a + d) mod 2 ^ 32 - a mod 2 ^ 32) mod 2 ^ 32 = d mod 2 ^ 32).
  { rewrite <- Zminus_mod. f_equal. lia. }
  rewrite H. clear H.
  destruct (Z_lt_le_dec d 0) as [Hneg|Hpos].
  - assert (Hm : d mod 2 ^ 32 = d + 2 ^ 32).
    { symmetry. apply (Z.mod_unique_pos d (2 ^ 32) (-1) (d + 2 ^ 32)); lia. }
    rewrite Hm.
    destruct (d + 2 ^ 32 <? 2 ^ 31) eqn:E;
      [apply Z.ltb_lt in E|apply Z.ltb_ge in E]; lia.
  - rewrite Z.mod_small by lia.
    destruct (d <? 2 ^ 31) eqn:E;
      [apply Z.ltb_lt in E|apply Z.ltb_ge in E]; lia.
Qed.

(** X3: the sequence delta is exact across the wrap of the 32-bit sequence
    space: when the sequence number of the packet is [d] past the next
    one expected ([lastSeq + lastPay], modulo 2^32) and [d] fits a signed
    32-bit integer, [dseq] is [d] and [ds] is set exactly when [d > 0]. *)
Theorem X3_seq_delta_wrap (fr : flowRec) (t : TCP) (d : Z) :
  lastSeq fr ≠ 0 → - 2 ^ 31 <= d < 2 ^ 31 →
  seq t = wrap32 (lastSeq fr + lastPay fr + d) →
  seq_delta fr t = (d, 0 <? d).
Proof.
  intros Hls Hd Hseq. unfold seq_delta.
  apply Z.eqb_neq in Hls. rewrite Hls. cbn zeta. rewrite Hseq.
  by rewrite to_int32_signed.
Qed.

Lemma X3_seq_delta_wrap_witness :
  seq_delta
    {| flowname := "a+b"; lastTm := 0; bytesSnt := 0;
       lastSeq := 4294967200; lastAck := 0; lastPay := 90; revFlow := false |}
    {| sport := 1; dport := 2; flags := TCP_ACK; seq := 4;
       ack_seq := 0; timestamp := None; tcp_header_size := 20 |}
  = (10, true).
Proof.
  apply (X3_seq_delta_wrap
           {| flowname := "a+b"; lastTm := 0; bytesSnt := 0;
              lastSeq := 4294967200; lastAck := 0; lastPay := 90;
              revFlow := false |}
           {| sport := 1; dport := 2; flags := TCP_ACK; seq := 4;
              ack_seq := 0; timestamp := None; tcp_header_size := 20 |} 10).
  - discriminate.
  - lia.
  - vm_refl.
Defined.

(** ** The flow records through a packet *)

Lemma acquire_existing cfg (fl : gmap string flowRec) cnt f r fr :
  fl !! f = Some fr → acquire cfg fl cnt f r = Some (fl, cnt, fr).
Proof. intros H. unfold acquire. by rewrite H. Qed.

Lemma read_l3_pktLen pkt t h : read_l3 pkt t = Some h → 0 <= pktLen h.
Proof.
  unfold read_l3. destruct (ip pkt); intros [= <-]; simpl;
    apply wrap32_range.
Qed.

(** Where a record of the table acquired for a packet comes from. *)
Lemma acquire_lookup_other cfg (fl : gmap string flowRec) cnt f r fl' cnt' fr
    k fr' :
  acquire cfg fl cnt f r = Some (fl', cnt', fr) → k ≠ f →
  fl' !! k = Some fr' →
  fl !! k = Some fr' ∨ ∃ fr0, fl !! k = Some fr0 ∧ fr' = set_revFlow fr0.
Proof.
  intros Ha Hne Hk. apply acquire_cases in Ha
    as [(_ & -> & _)|(_ & _ & _ & [(_ & -> & _)|(r0 & Hr & -> & _)])].
  - by left.
  - rewrite lookup_insert_ne in Hk by done. by left.
  - rewrite lookup_insert_ne in Hk by done.
    destruct (decide (r = k)) as [<-|Hne2].
    + rewrite lookup_insert_eq in Hk. injection Hk as <-.
      rewrite lookup_insert_ne in Hr by done. right. by exists r0.
    + rewrite !lookup_insert_ne in Hk by done. by left.
Qed.

(** What becomes of a record of the table when the table is acquired. *)
Lemma acquire_keeps cfg (fl : gmap string flowRec) cnt f r fl' cnt' fr k fr0 :
  acquire cfg fl cnt f r = Some (fl', cnt', fr) → fl !! k = Some fr0 →
  fl' !! k = Some fr0 ∨ fl' !! k = Some (set_revFlow fr0).
Proof.
  intros Ha Hk. apply acquire_cases in Ha
    as [(_ & -> & _)|(Hf & _ & _ & [(_ & -> & _)|(r0 & Hr & -> & _)])].
  - by left.
  - left. rewrite lookup_insert_ne by congruence. done.
  - assert (Hne : f ≠ k) by congruence.
    rewrite lookup_insert_ne by done.
    destruct (decide (r = k)) as [<-|Hne2].
    + rewrite lookup_insert_eq. rewrite lookup_insert_ne in Hr by done.
      right. congruence.
    + left. by rewrite !lookup_insert_ne by done.
Qed.

(** A record acquired is one of the table, or a new one under the flow
    name. *)
Lemma acquire_record cfg (fl : gmap string flowRec) cnt f r fl' cnt' fr :
  acquire cfg fl cnt f r = Some (fl', cnt', fr) →
  fl !! f = Some fr
  ∨ (fl !! f = None
     ∧ (fr = new_flowRec f ∨ fr = set_revFlow (new_flowRec f))).
Proof.
  intros [(? & _)|(Hf & _ & _ & [(_ & _ & ->)|(r0 & _ & _ & ->)])]%acquire_cases;
    auto.
Qed.

(** X4: [processPacket] never removes a flow record: a record of the table
    is still there afterwards, under the same key and with the same name;
    once marked bidirectional it stays marked, and its byte count does not
    decrease. *)
Theorem X4_flow_records_persist (cfg : Config) (st : State) (pkt : Packet)
    (k : string) (fr : flowRec) :
  flows st !! k = Some fr →
  ∃ fr', flows (processPacket cfg st pkt).1 !! k = Some fr'
         ∧ flowname fr' = flowname fr
         ∧ (revFlow fr = true → revFlow fr' = true)
         ∧ bytesSnt fr <= bytesSnt fr'.
Proof.
  intros Hk. unfold processPacket. cbn [fst]. unfold classify.
  assert (Hsame : ∃ fr', flows st !! k = Some fr'
                    ∧ flowname fr' = flowname fr
                    ∧ (revFlow fr = true → revFlow fr' = true)
                    ∧ bytesSnt fr <= bytesSnt fr').
  { exists fr. split; [done|]. split; [done|]. split; [done|lia]. }
  destruct (tcp pkt) as [t|]; [|exact Hsame].
  destruct (read_l3 pkt t) as [h|] eqn:Hh; [|exact Hsame].
  destruct (acquire _ _ _ _ _) as [[[fl cnt] fr0]|] eqn:Ha; [|exact Hsame].
  cbn [fst classified flows].
  destruct (decide (fstr_of h t = k)) as [<-|Hne].
  - rewrite lookup_insert_eq. eexists. split; [done|]. simpl.
    destruct (acquire_record _ _ _ _ _ _ _ _ Ha) as [Hf|[Hf _]];
      [|congruence].
    assert (fr0 = fr) as -> by congruence.
    pose proof (read_l3_pktLen _ _ _ Hh).
    split; [done|]. split; [done|lia].
  - rewrite lookup_insert_ne by done.
    destruct (acquire_keeps _ _ _ _ _ _ _ _ k fr Ha Hk) as [H|H];
      eexists; (split; [exact H|]); simpl;
      (split; [done|]); (split; [done|lia]).
Qed.

Lemma X4_flow_records_persist_witness :
  ∃ fr', flows (processPacket local_config local_st ping_ack1).1
           !! "10.0.0.1:5000+10.0.0.2:80" = Some fr'
         ∧ revFlow fr' = true.
Proof.
  destruct (X4_flow_records_persist local_config local_st ping_ack1
              "10.0.0.1:5000+10.0.0.2:80"
              (default (new_flowRec "")
                 (flows local_st !! "10.0.0.1:5000+10.0.0.2:80")))
    as (fr' & H1 & _ & H2 & _).
  - vm_refl.
  - exists fr'. split; [exact H1|]. apply H2. vm_refl.
Defined.

(** Where a record of the table comes from after a packet. *)
Lemma classify_flows_from cfg st pkt k fr' :
  flows (classify cfg st pkt).1 !! k = Some fr' →
  flows st !! k = Some fr'
  ∨ (∃ fr0, flows st !! k = Some fr0 ∧ fr' = set_revFlow fr0)
  ∨ (∃ h t fl cnt fr0,
       parses pkt h t ∧ acquired cfg st h t fl cnt fr0 ∧ k = fstr_of h t
       ∧ fr' = {| flowname := flowname fr0; lastTm := (stamp st pkt).2;
                  bytesSnt := bytesSnt fr0 + pktLen h;
                  lastSeq := next_lastSeq t; lastAck := ack_seq t;
                  lastPay := payLen h; revFlow := revFlow fr0 |}).
Proof.
  unfold classify. destruct (tcp pkt) as [t|] eqn:Ht; [|by left].
  destruct (read_l3 pkt t) as [h|] eqn:Hh; [|by left].
  destruct (acquire _ _ _ _ _) as [[[fl cnt] fr0]|] eqn:Ha; [|by left].
  cbn [fst classified flows]. intros Hk.
  destruct (decide (fstr_of h t = k)) as [<-|Hne].
  - rewrite lookup_insert_eq in Hk. injection Hk as <-.
    right. right. by exists h, t, fl, cnt, fr0.
  - rewrite lookup_insert_ne in Hk by done.
    destruct (acquire_lookup_other _ _ _ _ _ _ _ _ k fr' Ha) as [H|H];
      auto.
Qed.

Lemma housekeeping_flows_sub cfg l k fr :
  flows (l_st (housekeeping cfg l)) !! k = Some fr →
  flows (l_st l) !! k = Some fr.
Proof.
  unfold housekeeping.
  destruct (Qnonzero _ && _); cbn [andb];
    destruct (Qgtb (nxtSum l) 0); cbn [l_st];
    destruct (Qgeb _ _); cbn [l_st]; try done;
    unfold cleanUp; cbn [flows]; intros H;
    by apply map_lookup_filter_Some in H as [H _].
Qed.

Lemma iteration_flows_sub cfg l pkt k fr :
  flows (l_st (iteration cfg l pkt).1.1) !! k = Some fr →
  flows (classify cfg (l_st l) pkt).1 !! k = Some fr.
Proof.
  unfold iteration, processPacket. cbn [fst snd].
  destruct (stop_now _ _); cbn [fst snd l_st]; [done|].
  apply housekeeping_flows_sub.
Qed.

Lemma names_ok_classify cfg st pkt :
  names_ok (flows st) → names_ok (flows (classify cfg st pkt).1).
Proof.
  intros Hinv k fr' Hk.
  destruct (classify_flows_from _ _ _ _ _ Hk)
    as [H|[(fr0 & H & ->)|(h & t & fl & cnt & fr0 & _ & Ha & -> & ->)]].
  - by apply Hinv.
  - simpl. by apply Hinv.
  - simpl. destruct (acquire_record _ _ _ _ _ _ _ _ Ha)
      as [H|[_ [-> | ->]]]; [by apply Hinv|done..].
Qed.

(** X5: at every point of a run, the name kept in a flow record is the key
    the record is stored under in the flow table. *)
Theorem X5_flowname_is_key (cfg : Config) (pkts : list Packet) (k : string)
    (fr : flowRec) :
  flows (l_st (feed cfg init_loop pkts)) !! k = Some fr → flowname fr = k.
Proof.
  assert (H0 : names_ok (flows (l_st init_loop))).
  { intros k' fr' H. simpl in H. by rewrite lookup_empty in H. }
  revert H0. generalize init_loop. revert k fr.
  induction pkts as [|pkt pkts IH]; intros k fr l Hl H.
  - by apply Hl.
  - simpl in H. apply (IH k fr _) in H; [done|].
    intros k' fr' H'. apply iteration_flows_sub in H'.
    by apply (names_ok_classify cfg (l_st l) pkt Hl).
Qed.

Lemma X5_flowname_is_key_witness :
  flowname (default (new_flowRec "")
              (flows (l_st (feed local_config init_loop ping_open))
               !! "10.0.0.2:80+10.0.0.1:5000"))
  = "10.0.0.2:80+10.0.0.1:5000".
Proof.
  apply (X5_flowname_is_key local_config ping_open). vm_refl.
Defined.

(** ** A flow whose expected sequence number is stored as 0 *)

(** X6: [lastSeq] equal to 0 means "no packet seen yet" to the delta
    computation.  So after a packet that leaves 0 in [lastSeq] (sequence
    number 0, or 2^32-1 with SYN or FIN), the next packet of the flow is
    classified with [dseq = 0] and without [ds], whatever its sequence
    number. *)
Theorem X6_zero_lastSeq_no_delta (cfg : Config) (st st1 : State)
    (pkt1 pkt2 : Packet) (h1 h2 : Hdr) (t1 t2 : TCP) (c1 : Class) :
  parses pkt1 h1 t1 → classify cfg st pkt1 = (st1, Classified c1) →
  next_lastSeq t1 = 0 →
  parses pkt2 h2 t2 → fstr_of h2 t2 = fstr_of h1 t1 →
  ∃ st2 c2, classify cfg st1 pkt2 = (st2, Classified c2)
            ∧ c_dseq c2 = 0 ∧ c_ds c2 = false.
Proof.
  intros Hp1 Hc1 Hz Hp2 Hf.
  destruct (classify_inv _ _ _ _ _ Hc1)
    as (h & t & fl & cnt & fr & [Ht Hh] & Ha & Hcl).
  destruct Hp1 as [Ht' Hh']. rewrite Ht' in Ht. injection Ht as <-.
  rewrite Hh' in Hh. injection Hh as <-.
  injection Hcl as <- _.
  set (st1 := (classified cfg st pkt1 h1 t1 fl cnt fr).1).
  assert (Hfr : flows st1 !! fstr_of h2 t2
                = Some {| flowname := flowname fr;
                          lastTm := (stamp st pkt1).2;
                          bytesSnt := bytesSnt fr + pktLen h1;
                          lastSeq := 0; lastAck := ack_seq t1;
                          lastPay := payLen h1; revFlow := revFlow fr |}).
  { subst st1. cbn [fst classified flows]. rewrite Hf, lookup_insert_eq.
    by rewrite Hz. }
  pose proof (acquire_existing cfg _ (flowCnt st1) _ (rstr_of h2 t2) _ Hfr)
    as Ha2.
  eexists _, _. split.
  - by apply (classify_Classified cfg st1 pkt2 h2 t2 _ _ _ Hp2 Ha2).
  - done.
Qed.

Lemma X6_zero_lastSeq_no_delta_witness :
  ∃ st2 c2, classify default_config zseq_r1.1 zseq_pkt2
            = (st2, Classified c2)
            ∧ c_dseq c2 = 0 ∧ c_ds c2 = false.
Proof.
  apply (X6_zero_lastSeq_no_delta default_config init_state zseq_r1.1
           zseq_pkt1 zseq_pkt2 zseq_hdr zseq_hdr zseq_tcp1 zseq_tcp2
           zseq_r1.2).
  - split; reflexivity.
  - apply classify_Classified; [split; reflexivity|vm_refl].
  - reflexivity.
  - split; reflexivity.
  - reflexivity.
Defined.

(** ** The counters of the summary *)

Lemma counters_ok_classify cfg st pkt :
  counters_ok st → counters_ok (classify cfg st pkt).1.
Proof.
  unfold counters_ok, classify. intros H.
  destruct (tcp pkt) as [t|]; [|simpl; lia].
  destruct (read_l3 pkt t) as [h|]; [|simpl; lia].
  destruct (acquire _ _ _ _ _) as [[[fl cnt] fr]|]; [|simpl; lia].
  cbn [fst classified pktCnt not_tcp no_TS not_v4or6 uniDir].
  destruct (revFlow fr), (timestamp t); lia.
Qed.

Lemma counters_ok_housekeeping cfg l :
  counters_ok (l_st l) → counters_ok (l_st (housekeeping cfg l)).
Proof.
  unfold counters_ok, housekeeping. intros H.
  destruct (Qnonzero _ && _); cbn [andb];
    destruct (Qgtb (nxtSum l) 0); cbn [l_st];
    destruct (Qgeb _ _); simpl; lia.
Qed.

(** X7: at every point of a run the counters of the summary are
    consistent: none is negative, and [not_tcp + not_v4or6 + uniDir] and
    [not_tcp + not_v4or6 + no_TS] do not exceed [pktCnt] (a packet is
    counted in at most one of [not_tcp], [not_v4or6] and [uniDir]). *)
Theorem X7_counters_consistent (cfg : Config) (pkts : list Packet) :
  counters_ok (l_st (feed cfg init_loop pkts)).
Proof.
  assert (H0 : counters_ok (l_st init_loop)) by (unfold counters_ok; simpl; lia).
  revert H0. generalize init_loop.
  induction pkts as [|pkt pkts IH]; intros l Hl; [done|].
  simpl. apply IH. unfold iteration, processPacket. cbn [fst snd].
  pose proof (counters_ok_classify cfg (l_st l) pkt Hl) as H.
  destruct (stop_now _ _); cbn [fst snd l_st]; [done|].
  by apply (counters_ok_housekeeping cfg
              {| l_st := (classify cfg (l_st l) pkt).1; nxtSum := nxtSum l;
                 nxtClean := nxtClean l |}).
Qed.

(** ** What makes a line *)

Lemma seq_delta_ds fr t : (seq_delta fr t).2 = true → 0 < (seq_delta fr t).1.
Proof.
  unfold seq_delta. destruct (lastSeq fr =? 0); [done|]. simpl.
  apply Z.ltb_lt.
Qed.

Lemma dup_ack_dp h t fr now :
  (dup_ack h t fr now).2 = true →
  ∃ d, (dup_ack h t fr now).1 = Some d ∧ (0 < d)%Q.
Proof.
  unfold dup_ack. destruct (_ && _ && _); [|done]. simpl.
  intros H. eexists. split; [done|]. by apply Qgtb_true.
Qed.

Lemma emit_Some cfg c o :
  emit cfg c = Some o →
  (c_pd c = true ∨ c_sd c = true ∨ c_ds c = true ∨ c_dp c = true)
  ∧ (quick cfg = true → c_pd c = true ∨ c_sd c = true)
  ∧ o_prtd o = (if c_pd c then Some (c_prtd c) else None)
  ∧ o_srtd o = (if c_sd c then Some (c_srtd c) else None)
  ∧ o_dseq o = c_dseq c ∧ o_dupDiff o = c_dupDiff c.
Proof.
  unfold emit.
  destruct (c_pd c), (c_sd c), (c_ds c), (c_dp c), (quick cfg);
    cbn [negb andb]; try discriminate; intros [= <-];
    cbn [o_prtd o_srtd o_dseq o_dupDiff]; repeat split; auto;
    discriminate.
Qed.

(** X8: a line is printed only with something to report: a TSval RTT, a
    seqno RTT, a positive sequence delta, or a duplicate ACK with positive
    spacing; and in quick mode only with one of the two RTTs. *)
Theorem X8_line_has_reason (cfg : Config) (st : State) (pkt : Packet)
    (o : Observation) :
  (processPacket cfg st pkt).2 = Some o →
  (is_Some (o_prtd o) ∨ is_Some (o_srtd o) ∨ 0 < o_dseq o
   ∨ ∃ d, o_dupDiff o = Some d ∧ (0 < d)%Q)
  ∧ (quick cfg = true → is_Some (o_prtd o) ∨ is_Some (o_srtd o)).
Proof.
  unfold processPacket. cbn [snd].
  destruct (classify cfg st pkt) as [st' [| | |c]] eqn:Hc; try done.
  cbn [snd]. intros He.
  destruct (classify_inv _ _ _ _ _ Hc)
    as (h & t & fl & cnt & fr & _ & _ & Hcl).
  destruct (emit_Some _ _ _ He) as (Hany & Hq & Hp & Hs & Hd & Hu).
  assert (Hpd : c_pd c = true → is_Some (o_prtd o)).
  { intros E. rewrite Hp, E. by eexists. }
  assert (Hsd : c_sd c = true → is_Some (o_srtd o)).
  { intros E. rewrite Hs, E. by eexists. }
  split.
  - destruct Hany as [E|[E|[E|E]]]; [by left; auto|by right; left; auto| |].
    + right; right; left. rewrite Hd.
      injection Hcl as _ <-. cbn [c_ds c_dseq] in *. by apply seq_delta_ds.
    + right; right; right. rewrite Hu.
      injection Hcl as _ <-. cbn [c_dp c_dupDiff] in *. by apply dup_ack_dp.
  - intros Q. destruct (Hq Q) as [E|E]; [left|right]; auto.
Qed.

Lemma X8_line_has_reason_witness :
  ∃ o, (processPacket local_config local_st ping_ack1).2 = Some o
       ∧ (is_Some (o_prtd o) ∨ is_Some (o_srtd o) ∨ 0 < o_dseq o
          ∨ ∃ d, o_dupDiff o = Some d ∧ (0 < d)%Q).
Proof.
  eexists. split; [vm_compute; reflexivity|].
  eapply (X8_line_has_reason local_config local_st ping_ack1).
  vm_compute; reflexivity.
Defined.

(** ** Packets that are not TCP over IP *)

(** X9: a packet without TCP PDU, or without IPv4 or IPv6 PDU, is counted
    and otherwise ignored: nothing is printed, the tables, the flow count
    and the capture clock are as before, [pktCnt] is one more, and one of
    [not_tcp] and [not_v4or6] is one more ([not_tcp] when the TCP PDU is
    missing, whatever the network layer). *)
Theorem X9_unusable_packet_skipped (cfg : Config) (st : State)
    (pkt : Packet) :
  tcp pkt = None ∨ ip pkt = NoIP →
  (processPacket cfg st pkt).2 = None
  ∧ flows (processPacket cfg st pkt).1 = flows st
  ∧ tsTbl (processPacket cfg st pkt).1 = tsTbl st
  ∧ seqTbl (processPacket cfg st pkt).1 = seqTbl st
  ∧ flowCnt (processPacket cfg st pkt).1 = flowCnt st
  ∧ capTm (processPacket cfg st pkt).1 = capTm st
  ∧ offTm (processPacket cfg st pkt).1 = offTm st
  ∧ pktCnt (processPacket cfg st pkt).1 = pktCnt st + 1
  ∧ not_tcp (processPacket cfg st pkt).1
    = match tcp pkt with Some _ => not_tcp st | None => not_tcp st + 1 end
  ∧ not_v4or6 (processPacket cfg st pkt).1
    = match tcp pkt with
      | Some _ => not_v4or6 st + 1 | None => not_v4or6 st end
  ∧ uniDir (processPacket cfg st pkt).1 = uniDir st
  ∧ no_TS (processPacket cfg st pkt).1 = no_TS st.
Proof.
  intros H. unfold processPacket, classify. cbn [fst snd].
  destruct (tcp pkt) as [t|]; [|done].
  destruct H as [?|Hip]; [done|].
  unfold read_l3. by rewrite Hip.
Qed.

Lemma X9_unusable_packet_skipped_witness :
  pktCnt (processPacket default_config init_state
            {| ts_seconds := 1525700000; ts_microseconds := 0;
               pdu_header_size := 14; ip := IPv4 hostA hostB 28 20;
               tcp := None |}).1 = 1
  ∧ offTm (processPacket default_config init_state
             {| ts_seconds := 1525700000; ts_microseconds := 0;
                pdu_header_size := 14; ip := IPv4 hostA hostB 28 20;
                tcp := None |}).1 = -1.
Proof.
  destruct (X9_unusable_packet_skipped default_config init_state
              {| ts_seconds := 1525700000; ts_microseconds := 0;
                 pdu_header_size := 14; ip := IPv4 hostA hostB 28 20;
                 tcp := None |})
    as (_ & _ & _ & _ & _ & _ & H1 & H2 & _).
  - by left.
  - split; [exact H2|exact H1].
Defined.

(** ** The two round trips *)

Lemma getTStm_other (tbl : gmap string Q) k k' :
  k ≠ k' → (getTStm k tbl).2 !! k' = tbl !! k'.
Proof.
  intros Hne. unfold getTStm. destruct (tbl !! k); [|done].
  cbn [snd]. by apply lookup_delete_ne.
Qed.

Lemma getSeqTm_other (tbl : gmap string Q) k k' :
  k ≠ k' → (getSeqTm k tbl).2 !! k' = tbl !! k'.
Proof.
  intros Hne. unfold getSeqTm. destruct (tbl !! k); [|done].
  cbn [snd]. by apply lookup_delete_ne.
Qed.

(** A packet that passes the pping gate and the local filter leaves its
    TSval in the table with its capture time. *)
Lemma pping_stores cfg h t fr now (tbl : gmap string Q) v e :
  timestamp t = Some (v, e) → no_pping_of fr t = false →
  local_blocked cfg h = false →
  tbl !! tbl_key v (fstr_of h t) = None →
  tbl_key e (rstr_of h t) ≠ tbl_key v (fstr_of h t) →
  (pping cfg h t fr now tbl).2 !! tbl_key v (fstr_of h t) = Some now.
Proof.
  intros Hts Hnp Hlb Hk Hne.
  rewrite (pping_usable _ _ _ _ _ _ v e) by done. cbn zeta. rewrite Hlb.
  destruct (Qgtb _ 0); cbn [snd];
    (rewrite getTStm_other by done; by apply addTS_fresh).
Qed.

(** A data segment of a two-way flow that passes the local filter leaves
    its next sequence number in the table with its capture time. *)
Lemma seqrtd_stores cfg h t fr now (tbl : gmap string Q) :
  local_blocked cfg h = false → revFlow fr = true → 0 < payLen h →
  tbl !! tbl_key (wrap32 (seq t + payLen h)) (fstr_of h t) = None →
  tbl_key (ack_seq t) (rstr_of h t)
  ≠ tbl_key (wrap32 (seq t + payLen h)) (fstr_of h t) →
  (seqrtd cfg h t fr now tbl).2
  !! tbl_key (wrap32 (seq t + payLen h)) (fstr_of h t) = Some now.
Proof.
  intros Hlb Hrev Hpay Hk Hne. unfold seqrtd. rewrite Hlb, Hrev.
  apply Z.ltb_lt in Hpay. rewrite Hpay. cbn [andb].
  destruct (_ && _).
  - destruct (getSeqTm _ _) as [ti tbl2] eqn:Hg.
    assert (tbl2 = (getSeqTm (tbl_key (ack_seq t) (rstr_of h t))
      (addSeq (tbl_key (wrap32 (seq t + payLen h)) (fstr_of h t)) now tbl)).2)
      as -> by (by rewrite Hg).
    destruct (Qgtb ti 0); cbn [snd];
      (rewrite getSeqTm_other by done; by apply addSeq_fresh).
  - cbn [snd]. by apply addSeq_fresh.
Qed.

(** X10: the TSval round trip.  Packet X passes the pping gate and the
    local filter with a TSval not yet in the table and different from the
    key it looks up, at a capture time above 0; the next packet Y is of
    the reverse flow, passes the gate and echoes that TSval.  Then Y has a
    TSval RTT, equal to the difference of the two capture times, and the
    entry is out of the table afterwards. *)
Theorem X10_tsval_round_trip (cfg : Config) (st : State)
    (pktX pktY : Packet) (hX hY : Hdr) (tX tY : TCP)
    (flX flY : gmap string flowRec) (cntX cntY : Z) (frX frY : flowRec)
    (vX eX vY : Z) :
  timestamp tX = Some (vX, eX) → no_pping_of frX tX = false →
  local_blocked cfg hX = false →
  tsTbl st !! tbl_key vX (fstr_of hX tX) = None →
  tbl_key eX (rstr_of hX tX) ≠ tbl_key vX (fstr_of hX tX) →
  (0 < (classified cfg st pktX hX tX flX cntX frX).2.(c_capTm))%Q →
  timestamp tY = Some (vY, vX) → no_pping_of frY tY = false →
  rstr_of hY tY = fstr_of hX tX →
  c_pd (classified cfg (classified cfg st pktX hX tX flX cntX frX).1
          pktY hY tY flY cntY frY).2 = true
  ∧ c_prtd (classified cfg (classified cfg st pktX hX tX flX cntX frX).1
              pktY hY tY flY cntY frY).2
    = (c_capTm (classified cfg (classified cfg st pktX hX tX flX cntX frX).1
                  pktY hY tY flY cntY frY).2
       - c_capTm (classified cfg st pktX hX tX flX cntX frX).2)%Q
  ∧ tsTbl (classified cfg (classified cfg st pktX hX tX flX cntX frX).1
             pktY hY tY flY cntY frY).1
    !! tbl_key vX (fstr_of hX tX) = None.
Proof.
  intros HtsX HnpX HlbX Hfresh Hne Hpos HtsY HnpY Hrev.
  set (rX := classified cfg st pktX hX tX flX cntX frX) in *.
  assert (Hin : tsTbl rX.1 !! tbl_key vX (rstr_of hY tY)
                = Some (c_capTm rX.2)).
  { rewrite Hrev. subst rX. unfold classified.
    cbn [fst snd tsTbl c_capTm]. by eapply pping_stores. }
  unfold classified. cbn [fst snd tsTbl c_pd c_prtd c_capTm].
  rewrite (pping_found _ _ _ _ _ _ vY vX (c_capTm rX.2)) by done.
  cbn [fst snd]. apply Qgtb_true in Hpos. rewrite Hpos.
  split; [done|]. split; [done|].
  rewrite <- Hrev. apply lookup_delete_eq.
Qed.

Lemma X10_tsval_round_trip_witness :
  c_pd ack_r.2 = true
  ∧ c_prtd ack_r.2 = (c_capTm ack_r.2 - c_capTm data_r.2)%Q
  ∧ tsTbl ack_r.1 !! tbl_key 100 (fstr_of data_hdr data_tcp) = None.
Proof.
  apply (X10_tsval_round_trip default_config ping_hs_st ping_data ping_ack1
           data_hdr ack1_hdr data_tcp ack1_tcp (flows ping_hs_st)
           (flows data_r.1) (flowCnt ping_hs_st) (flowCnt data_r.1)
           data_fr ack_fr 100 50 60).
  - reflexivity.
  - vm_refl.
  - reflexivity.
  - vm_refl.
  - intros H. vm_compute in H. discriminate H.
  - vm_refl.
  - reflexivity.
  - vm_refl.
  - vm_refl.
Defined.

(** X11: the sequence-number round trip.  Packet X is a data segment of a
    two-way flow that passes the local filter, its next sequence number
    not yet in the table and different from the key it looks up, at a
    capture time above 0; the next packet Y is of the reverse flow, makes
    the ACK look-up and acknowledges exactly that sequence number (modulo
    2^32).  Then Y has a seqno RTT, equal to the difference of the two
    capture times. *)
Theorem X11_seqno_round_trip (cfg : Config) (st : State)
    (pktX pktY : Packet) (hX hY : Hdr) (tX tY : TCP)
    (flX flY : gmap string flowRec) (cntX cntY : Z) (frX frY : flowRec) :
  local_blocked cfg hX = false → revFlow frX = true → 0 < payLen hX →
  seqTbl st !! tbl_key (wrap32 (seq tX + payLen hX)) (fstr_of hX tX) = None →
  tbl_key (ack_seq tX) (rstr_of hX tX)
  ≠ tbl_key (wrap32 (seq tX + payLen hX)) (fstr_of hX tX) →
  (0 < (classified cfg st pktX hX tX flX cntX frX).2.(c_capTm))%Q →
  seq_lookup_done cfg hY tY frY = true →
  ack_seq tY = wrap32 (seq tX + payLen hX) →
  rstr_of hY tY = fstr_of hX tX →
  c_sd (classified cfg (classified cfg st pktX hX tX flX cntX frX).1
          pktY hY tY flY cntY frY).2 = true
  ∧ c_srtd (classified cfg (classified cfg st pktX hX tX flX cntX frX).1
              pktY hY tY flY cntY frY).2
    = (c_capTm (classified cfg (classified cfg st pktX hX tX flX cntX frX).1
                  pktY hY tY flY cntY frY).2
       - c_capTm (classified cfg st pktX hX tX flX cntX frX).2)%Q.
Proof.
  intros HlbX HrevX Hpay Hfresh Hne Hpos Hl Hack Hrev.
  set (rX := classified cfg st pktX hX tX flX cntX frX) in *.
  assert (Hin : seqTbl rX.1 !! tbl_key (ack_seq tY) (rstr_of hY tY)
                = Some (c_capTm rX.2)).
  { rewrite Hrev, Hack. subst rX. unfold classified.
    cbn [fst snd seqTbl c_capTm]. by eapply seqrtd_stores. }
  unfold classified. cbn [fst snd c_sd c_srtd c_capTm].
  rewrite (seqrtd_found _ _ _ _ _ _ (c_capTm rX.2)) by done.
  cbn [fst snd]. apply Qgtb_true in Hpos. by rewrite Hpos.
Qed.

Lemma X11_seqno_round_trip_witness :
  c_sd ack_r.2 = true
  ∧ c_srtd ack_r.2 = (c_capTm ack_r.2 - c_capTm data_r.2)%Q.
Proof.
  apply (X11_seqno_round_trip default_config ping_hs_st ping_data ping_ack1
           data_hdr ack1_hdr data_tcp ack1_tcp (flows ping_hs_st)
           (flows data_r.1) (flowCnt ping_hs_st) (flowCnt data_r.1)
           data_fr ack_fr).
  - reflexivity.
  - vm_refl.
  - reflexivity.
  - vm_refl.
  - intros H. vm_compute in H. discriminate H.
  - vm_refl.
  - vm_refl.
  - reflexivity.
  - vm_refl.
Defined.

(** ** Capture times in order *)

Lemma clock_at_mono st lo lo' : lo <= lo' → clock_at st lo → clock_at st lo'.
Proof.
  intros Hle [H|(Ho & l0 & Hl & H)]; [by left|right].
  split; [done|]. exists l0. split; [lia|done].
Qed.

Lemma clock_nonneg st lo : clock_at st lo → (0 <= capTm st)%Q.
Proof.
  intros [[_ H]|(_ & l0 & _ & Hn & H)]; rewrite H; [lra|].
  rewrite Zle_Qle in Hn. change (inject_Z 0) with 0%Q in Hn. lra.
Qed.

(** The clock after a packet whose capture time is not before the last
    one: it does not go back, and it shows the time of the packet. *)
Lemma stamp_in_order st pkt lo :
  clock_at st lo → 0 <= ts_seconds pkt → 0 <= ts_microseconds pkt →
  lo <= ptime pkt →
  (capTm st <= (stamp st pkt).2)%Q
  ∧ 0 <= (stamp st pkt).1.1
  ∧ 0 <= ptime pkt - (stamp st pkt).1.1 * 1000000
  ∧ ((stamp st pkt).2
     == inject_Z (ptime pkt - (stamp st pkt).1.1 * 1000000) * (1 # 1000000))%Q.
Proof.
  intros Hc Hs Hu Hlo. unfold stamp.
  destruct Hc as [[Ho Hz]|(Ho & l0 & Hl & Hn & Hz)].
  - apply Z.ltb_lt in Ho. rewrite Ho. cbn [fst snd].
    replace (ptime pkt - ts_seconds pkt * 1000000) with (ts_microseconds pkt)
      by (unfold ptime; lia).
    pose proof Hu as Hu'. rewrite Zle_Qle in Hu'.
    change (inject_Z 0) with 0%Q in Hu'.
    split; [rewrite Hz; lra|]. split; [done|]. split; [done|]. reflexivity.
  - assert (Hf : (offTm st <? 0) = false) by (apply Z.ltb_ge; lia).
    rewrite Hf. cbn [fst snd].
    assert (Hq : (inject_Z (ts_seconds pkt - offTm st)
                  + inject_Z (ts_microseconds pkt) * (1 # 1000000)
                  == inject_Z (ptime pkt - offTm st * 1000000)
                     * (1 # 1000000))%Q).
    { replace (ptime pkt - offTm st * 1000000)
        with ((ts_seconds pkt - offTm st) * 1000000 + ts_microseconds pkt)
        by (unfold ptime; lia).
      rewrite inject_Z_plus, inject_Z_mult.
      change (inject_Z 1000000) with (1000000 # 1)%Q. field. }
    assert (Hle : l0 - offTm st * 1000000 <= ptime pkt - offTm st * 1000000)
      by lia.
    pose proof Hle as Hle'. rewrite Zle_Qle in Hle'.
    split; [rewrite Hz, Hq; lra|]. split; [done|]. split; [lia|done].
Qed.

Lemma addTS_from (tbl : gmap string Q) k k' now x :
  addTS k now tbl !! k' = Some x → tbl !! k' = Some x ∨ x = now.
Proof.
  unfold addTS. destruct (tbl !! k) eqn:E; [by left|].
  destruct (decide (k = k')) as [<-|Hne].
  - rewrite lookup_insert_eq. intros [= <-]. by right.
  - rewrite lookup_insert_ne by done. by left.
Qed.

Lemma addSeq_from (tbl : gmap string Q) k k' now x :
  addSeq k now tbl !! k' = Some x → tbl !! k' = Some x ∨ x = now.
Proof. apply addTS_from. Qed.

Lemma getTStm_from (tbl : gmap string Q) k k' x :
  (getTStm k tbl).2 !! k' = Some x → tbl !! k' = Some x.
Proof.
  unfold getTStm. destruct (tbl !! k); cbn [snd]; [|done].
  rewrite lookup_delete. by case_decide.
Qed.

Lemma getSeqTm_from (tbl : gmap string Q) k k' x :
  (getSeqTm k tbl).2 !! k' = Some x → tbl !! k' = Some x.
Proof. apply getTStm_from. Qed.

Lemma getTStm_found (tbl : gmap string Q) k :
  Qgtb (getTStm k tbl).1 0 = true → tbl !! k = Some (getTStm k tbl).1.
Proof. unfold getTStm. by destruct (tbl !! k). Qed.

Lemma getSeqTm_found (tbl : gmap string Q) k :
  Qgtb (getSeqTm k tbl).1 0 = true → tbl !! k = Some (getSeqTm k tbl).1.
Proof. apply getTStm_found. Qed.

(** An entry of the timestamp table after the pping code was there before
    or carries the capture time of the packet. *)
Lemma pping_table_from cfg h t fr now (tbl : gmap string Q) k x :
  (pping cfg h t fr now tbl).2 !! k = Some x → tbl !! k = Some x ∨ x = now.
Proof.
  unfold pping. destruct (timestamp t) as [[v e]|]; [|by left].
  destruct (no_pping_of fr t); [by left|].
  destruct (getTStm _ _) as [ti tbl2] eqn:Hg.
  assert (tbl2 = (getTStm (tbl_key e (rstr_of h t))
            (if local_blocked cfg h then tbl
             else addTS (tbl_key v (fstr_of h t)) now tbl)).2) as ->
    by (by rewrite Hg).
  intros Hk.
  assert (Hk' : (getTStm (tbl_key e (rstr_of h t))
            (if local_blocked cfg h then tbl
             else addTS (tbl_key v (fstr_of h t)) now tbl)).2 !! k = Some x)
    by (by destruct (Qgtb ti 0)).
  apply getTStm_from in Hk'.
  destruct (local_blocked cfg h); [by left|]. by eapply addTS_from.
Qed.

Lemma seqrtd_table_from cfg h t fr now (tbl : gmap string Q) k x :
  (seqrtd cfg h t fr now tbl).2 !! k = Some x → tbl !! k = Some x ∨ x = now.
Proof.
  unfold seqrtd. destruct (local_blocked cfg h); [by left|].
  set (tbl1 := if revFlow fr && (0 <? payLen h) then _ else tbl).
  assert (H1 : tbl1 !! k = Some x → tbl !! k = Some x ∨ x = now).
  { subst tbl1. destruct (revFlow fr && (0 <? payLen h)); [|by left].
    apply addSeq_from. }
  destruct (_ && _ && has_flag _ _); [|done].
  destruct (getSeqTm _ _) as [ti tbl2] eqn:Hg.
  assert (tbl2 = (getSeqTm (tbl_key (ack_seq t) (rstr_of h t)) tbl1).2) as ->
    by (by rewrite Hg).
  intros Hk. apply H1. apply (getSeqTm_from _ (tbl_key (ack_seq t) (rstr_of h t))).
  by destruct (Qgtb ti 0).
Qed.

(** An RTT is the distance to a positive time found in the table. *)
Lemma pping_rtt cfg h t fr now (tbl : gmap string Q) :
  (∀ k x, tbl !! k = Some x → (x <= now)%Q) →
  (pping cfg h t fr now tbl).1.1 = true →
  (0 <= (pping cfg h t fr now tbl).1.2)%Q
  ∧ ((pping cfg h t fr now tbl).1.2 < now)%Q.
Proof.
  intros Hle. unfold pping. destruct (timestamp t) as [[v e]|]; [|done].
  destruct (no_pping_of fr t); [done|].
  set (tbl1 := if local_blocked cfg h then tbl else _).
  assert (H1 : ∀ k x, tbl1 !! k = Some x → (x <= now)%Q).
  { subst tbl1. intros k x Hk. destruct (local_blocked cfg h); [by eapply Hle|].
    apply addTS_from in Hk as [Hk| ->]; [by eapply Hle|lra]. }
  pose proof (getTStm_found tbl1 (tbl_key e (rstr_of h t))) as Hf.
  destruct (getTStm _ _) as [ti tbl2]. cbn [fst] in Hf.
  destruct (Qgtb ti 0) eqn:Hg; [|done]. intros _. cbn [fst snd].
  specialize (H1 _ _ (Hf eq_refl)). apply Qgtb_true in Hg. split; lra.
Qed.

Lemma seqrtd_rtt cfg h t fr now (tbl : gmap string Q) :
  (∀ k x, tbl !! k = Some x → (x <= now)%Q) →
  (seqrtd cfg h t fr now tbl).1.1 = true →
  (0 <= (seqrtd cfg h t fr now tbl).1.2)%Q
  ∧ ((seqrtd cfg h t fr now tbl).1.2 < now)%Q.
Proof.
  intros Hle. unfold seqrtd. destruct (local_blocked cfg h); [done|].
  set (tbl1 := if revFlow fr && (0 <? payLen h) then _ else tbl).
  assert (H1 : ∀ k x, tbl1 !! k = Some x → (x <= now)%Q).
  { subst tbl1. intros k x Hk.
    destruct (revFlow fr && (0 <? payLen h)); [|by eapply Hle].
    apply addSeq_from in Hk as [Hk| ->]; [by eapply Hle|lra]. }
  destruct (_ && _ && has_flag _ _); [|done].
  pose proof (getSeqTm_found tbl1 (tbl_key (ack_seq t) (rstr_of h t))) as Hf.
  destruct (getSeqTm _ _) as [ti tbl2]. cbn [fst] in Hf.
  destruct (Qgtb ti 0) eqn:Hg; [|done]. intros _. cbn [fst snd].
  specialize (H1 _ _ (Hf eq_refl)). apply Qgtb_true in Hg. split; lra.
Qed.

Lemma acquire_lastTm cfg st h t fl cnt fr now :
  times_ok st → (capTm st <= now)%Q → (0 <= now)%Q →
  acquired cfg st h t fl cnt fr →
  (lastTm fr <= now)%Q
  ∧ ∀ k fr', fl !! k = Some fr' → (lastTm fr' <= now)%Q.
Proof.
  intros (_ & _ & Hfl) Hle Hz Ha. unfold acquired in Ha.
  assert (Hfr : (lastTm fr <= now)%Q).
  { destruct (acquire_record _ _ _ _ _ _ _ _ Ha) as [Hk|(_ & [-> | ->])];
      [|done|done].
    specialize (Hfl _ _ Hk). lra. }
  split; [done|]. intros k fr' Hk.
  destruct (decide (k = fstr_of h t)) as [->|Hne].
  - rewrite (acquire_lookup _ _ _ _ _ _ _ _ Ha) in Hk. by injection Hk as <-.
  - destruct (acquire_lookup_other _ _ _ _ _ _ _ _ _ _ Ha Hne Hk)
      as [H0|(fr0 & H0 & ->)]; specialize (Hfl _ _ H0); simpl; lra.
Qed.

(** The classifier keeps the clock and the stored times in order. *)
Lemma classify_in_order cfg st pkt lo :
  clock_at st lo → times_ok st →
  0 <= ts_seconds pkt → 0 <= ts_microseconds pkt → lo <= ptime pkt →
  clock_at (classify cfg st pkt).1 (ptime pkt)
  ∧ times_ok (classify cfg st pkt).1.
Proof.
  intros Hc Ht Hs Hu Hlo.
  destruct (stamp_in_order st pkt lo Hc Hs Hu Hlo) as (Hle & Ho & Hn & Hq).
  assert (Hnow : (0 <= (stamp st pkt).2)%Q).
  { pose proof (clock_nonneg _ _ Hc). lra. }
  assert (Hsame : clock_at st (ptime pkt)) by (by eapply clock_at_mono).
  assert (Hnew : ∀ st', offTm st' = (stamp st pkt).1.1 →
                        capTm st' = (stamp st pkt).2 →
                        clock_at st' (ptime pkt)).
  { intros st' H1 H2. right. rewrite H1, H2. split; [done|].
    exists (ptime pkt). split; [lia|]. by split. }
  unfold classify. destruct (tcp pkt) as [t|]; [|by split].
  destruct (read_l3 pkt t) as [h|]; [|by split].
  destruct (acquire _ _ _ _ _) as [[[fl cnt] fr]|] eqn:Ha.
  - cbn [fst]. split; [by apply Hnew|].
    destruct (acquire_lastTm cfg st h t fl cnt fr _ Ht Hle Hnow Ha)
      as [_ Hfl].
    destruct Ht as (Hts & Hsq & _).
    unfold times_ok, classified. cbn [fst tsTbl seqTbl flows capTm].
    split; [|split].
    + intros k x Hk. apply pping_table_from in Hk as [Hk| ->]; [|lra].
      specialize (Hts _ _ Hk). lra.
    + intros k x Hk. apply seqrtd_table_from in Hk as [Hk| ->]; [|lra].
      specialize (Hsq _ _ Hk). lra.
    + intros k fr' Hk. destruct (decide (fstr_of h t = k)) as [<-|Hne].
      * rewrite lookup_insert_eq in Hk. injection Hk as <-. simpl. lra.
      * rewrite lookup_insert_ne in Hk by done. by eapply Hfl.
  - cbn [fst]. split; [by apply Hnew|].
    destruct Ht as (Hts & Hsq & Hfl).
    unfold times_ok. cbn [tsTbl seqTbl flows capTm].
    split; [|split]; intros k x Hk;
      [specialize (Hts _ _ Hk)|specialize (Hsq _ _ Hk)
      |specialize (Hfl _ _ Hk)]; lra.
Qed.

Lemma housekeeping_in_order cfg l lo :
  clock_at (l_st l) lo → times_ok (l_st l) →
  clock_at (l_st (housekeeping cfg l)) lo
  ∧ times_ok (l_st (housekeeping cfg l)).
Proof.
  intros Hc (Hts & Hsq & Hfl). unfold housekeeping.
  set (st1 := if _ && Qgtb (nxtSum l) 0 then _ else _).
  assert (H1 : clock_at st1 lo ∧ times_ok st1).
  { subst st1. destruct (_ && Qgtb (nxtSum l) 0); by repeat split. }
  destruct H1 as [Hc1 (Hts1 & Hsq1 & Hfl1)].
  destruct (Qgeb (capTm st1) (nxtClean l)); cbn [l_st]; [|by repeat split].
  split; [done|]. unfold times_ok, cleanUp. cbn [tsTbl seqTbl flows capTm].
  split; [|split]; intros k x [Hk _]%map_lookup_filter_Some; eauto.
Qed.

(** What a line shows when the clock and the stored times are in order. *)
Lemma line_in_order cfg st pkt lo o :
  clock_at st lo → times_ok st →
  0 <= ts_seconds pkt → 0 <= ts_microseconds pkt → lo <= ptime pkt →
  (processPacket cfg st pkt).2 = Some o → line_times_ok o.
Proof.
  intros Hc Ht Hs Hu Hlo.
  destruct (stamp_in_order st pkt lo Hc Hs Hu Hlo) as (Hle & _).
  assert (Hnow : (0 <= (stamp st pkt).2)%Q).
  { pose proof (clock_nonneg _ _ Hc). lra. }
  unfold processPacket. cbn [snd].
  destruct (classify cfg st pkt) as [st' [| | |c]] eqn:Hcl; try done.
  cbn [snd]. intros He.
  destruct (classify_inv _ _ _ _ _ Hcl)
    as (h & t & fl & cnt & fr & _ & Ha & Hcd).
  destruct (acquire_lastTm cfg st h t fl cnt fr _ Ht Hle Hnow Ha)
    as [Hfr _].
  destruct Ht as (Hts & Hsq & _).
  assert (Hcap : o_capTm o = c_capTm c).
  { unfold emit in He. destruct (_ && _ && _ && _); [done|].
    destruct (_ && _ && _); [done|]. by injection He as <-. }
  destruct (emit_Some _ _ _ He) as (_ & _ & Hp & Hr & _ & Hd).
  injection Hcd as _ <-.
  cbn [c_pd c_sd c_prtd c_srtd c_dupDiff c_capTm] in *.
  unfold line_times_ok. rewrite Hcap, Hp, Hr, Hd.
  split; [done|]. split; [|split].
  - intros d. destruct (pping _ _ _ _ _ _).1.1 eqn:Hpd; [|done].
    intros [= <-]. apply pping_rtt; [|done].
    intros k x Hk. specialize (Hts _ _ Hk). lra.
  - intros d. destruct (seqrtd _ _ _ _ _ _).1.1 eqn:Hsd; [|done].
    intros [= <-]. apply seqrtd_rtt; [|done].
    intros k x Hk. specialize (Hsq _ _ Hk). lra.
  - intros d. unfold dup_ack. destruct (_ && _ && _); [|done].
    cbn [fst]. intros [= <-]. lra.
Qed.

(** X12: when the capture times of the packets do not decrease (and none
    is before the epoch), every line of a run has a capture time that is
    not negative, RTTs that are not negative and below that capture time,
    and a duplicate-ACK spacing that is not negative. *)
Theorem X12_ordered_times (cfg : Config) (pkts : list Packet) :
  in_order 0 pkts → Forall line_times_ok (run cfg init_loop pkts).1.2.
Proof.
  assert (H : ∀ pkts l lo,
    clock_at (l_st l) lo → times_ok (l_st l) → in_order lo pkts →
    Forall line_times_ok (run cfg l pkts).1.2).
  { clear pkts. induction pkts as [|pkt pkts IH]; intros l lo Hc Ht Hin.
    { constructor. }
    destruct Hin as (Hs & Hu & Hlo & Hin).
    assert (Hline : Forall line_times_ok
                      (option_list (processPacket cfg (l_st l) pkt).2)).
    { destruct (processPacket cfg (l_st l) pkt).2 as [o|] eqn:Ho;
        [|constructor].
      constructor; [|constructor]. by eapply line_in_order. }
    destruct (classify_in_order cfg (l_st l) pkt lo Hc Ht Hs Hu Hlo)
      as [Hc' Ht'].
    cbn [run]. unfold iteration.
    destruct (stop_now cfg _); cbn [fst snd]; [done|].
    apply Forall_app. split; [done|].
    destruct (housekeeping_in_order cfg
                {| l_st := (processPacket cfg (l_st l) pkt).1;
                   nxtSum := nxtSum l; nxtClean := nxtClean l |}
                (ptime pkt) Hc' Ht') as [Hc2 Ht2].
    by eapply IH. }
  apply H. { left. split; [done|reflexivity]. }
  by repeat split.
Qed.

Lemma X12_ordered_times_witness :
  Forall line_times_ok (run default_config init_loop ping_trace).1.2.
Proof.
  apply (X12_ordered_times default_config ping_trace).
  simpl. unfold ptime. simpl. lia.
Defined.

(** ** The packet limit and the packet counts *)

(** X13: with periodic summaries off ([-q]) and no time limit, [-c N]
    hands exactly N packets to [processPacket], or all of them when there
    are fewer than N. *)
Theorem X13_count_limit_exact (cfg : Config) (pkts : list Packet) :
  Qnonzero (sumInt cfg) = false → Qgtb (time_to_run cfg) 0 = false →
  0 < maxPackets cfg →
  (run cfg init_loop pkts).2
  = Nat.min (length pkts) (Z.to_nat (maxPackets cfg)).
Proof.
  intros Hq Ht Hmax.
  assert (H : ∀ pkts l, pktCnt (l_st l) < maxPackets cfg →
    (run cfg l pkts).2
    = Nat.min (length pkts) (Z.to_nat (maxPackets cfg - pktCnt (l_st l)))).
  { clear pkts. induction pkts as [|pkt pkts IH]; intros l Hcnt; [done|].
    cbn [run length]. unfold iteration, processPacket. cbn [fst snd].
    pose proof (classify_pktCnt cfg (l_st l) pkt) as Hc.
    unfold stop_now. rewrite Ht. cbn [andb orb].
    apply Z.ltb_lt in Hmax as Hmax'. rewrite Hmax'. cbn [andb].
    destruct (maxPackets cfg <=? _) eqn:Hstop; cbn [fst snd].
    - apply Z.leb_le in Hstop. lia.
    - apply Z.leb_gt in Hstop. rewrite IH.
      + rewrite housekeeping_pktCnt by done. cbn [l_st]. lia.
      + rewrite housekeeping_pktCnt by done. cbn [l_st]. lia. }
  rewrite H by (simpl; lia). simpl. by rewrite Z.sub_0_r.
Qed.

Lemma X13_count_limit_exact_witness :
  (run quiet_count_config init_loop slow_trace).2
  = Nat.min (length slow_trace) (Z.to_nat (maxPackets quiet_count_config)).
Proof.
  apply (X13_count_limit_exact quiet_count_config slow_trace).
  - reflexivity.
  - reflexivity.
  - reflexivity.
Defined.

Lemma summarized_app log1 log2 :
  summarized (log1 ++ log2) = summarized log1 + summarized log2.
Proof.
  induction log1 as [|[o|st|st] log1 IH]; simpl; lia.
Qed.

Lemma lines_of_app log1 log2 :
  lines_of (log1 ++ log2) = lines_of log1 ++ lines_of log2.
Proof.
  induction log1 as [|[o|st|st] log1 IH]; simpl; by rewrite ?IH.
Qed.

Lemma housekeeping_pktCnt_cases cfg l :
  pktCnt (l_st (housekeeping cfg l))
  = if summary_printed cfg l then 0 else pktCnt (l_st l).
Proof.
  unfold housekeeping, summary_printed.
  destruct (Qnonzero _ && _); cbn [andb];
    destruct (Qgtb (nxtSum l) 0); cbn [l_st];
    by destruct (Qgeb _ _).
Qed.

(** X14: every packet handed to [processPacket] is counted once: the
    packet counts of the periodic summaries and the count left at the end
    of the run (the one of the closing message when the loop is left by
    [break]) add up to the number of packets processed; and the lines of
    the log are those of the run. *)
Theorem X14_packets_counted_once (cfg : Config) (pkts : list Packet) :
  Z.of_nat (run cfg init_loop pkts).2
  = summarized (run_log cfg init_loop pkts)
    + pktCnt (l_st (run cfg init_loop pkts).1.1)
  ∧ lines_of (run_log cfg init_loop pkts) = (run cfg init_loop pkts).1.2.
Proof.
  assert (H : ∀ pkts l,
    Z.of_nat (run cfg l pkts).2 + pktCnt (l_st l)
    = summarized (run_log cfg l pkts) + pktCnt (l_st (run cfg l pkts).1.1)
    ∧ lines_of (run_log cfg l pkts) = (run cfg l pkts).1.2).
  { clear pkts. induction pkts as [|pkt pkts IH]; intros l; [done|].
    cbn [run run_log]. unfold iteration.
    assert (Hc : pktCnt (processPacket cfg (l_st l) pkt).1
                 = pktCnt (l_st l) + 1) by apply classify_pktCnt.
    remember (processPacket cfg (l_st l) pkt) as r eqn:Hr. clear Hr.
    set (l' := {| l_st := r.1; nxtSum := nxtSum l; nxtClean := nxtClean l |}).
    assert (Hline : ∀ (x : option Observation),
              summarized (match x with Some o => [Line o] | None => [] end) = 0
              ∧ lines_of (match x with Some o => [Line o] | None => [] end)
                = option_list x) by (by intros [o|]).
    destruct (Hline r.2) as [Hs Hl].
    destruct (stop_now cfg r.1); cbn [fst snd].
    - rewrite summarized_app, lines_of_app, Hs, Hl.
      cbn [summarized lines_of l_st]. split; [|by rewrite app_nil_r].
      change (l_st l') with r.1. lia.
    - destruct (IH (housekeeping cfg l')) as [IH1 IH2].
      rewrite !summarized_app, !lines_of_app, Hs, Hl, IH2.
      rewrite housekeeping_pktCnt_cases in IH1.
      change (l_st l') with r.1 in *.
      destruct (summary_printed cfg l'); cbn [summarized app] in *;
        (split; [lia|done]). }
  destruct (H pkts init_loop) as [H1 H2]. split; [|done].
  simpl in H1. lia.
Qed.

(** ** Output flushing *)

(** With [tv_usec] below 2^20 (it is below 10^6) the bits of the two parts
    do not overlap, and the [|] of [clock_now] is a sum. *)
Lemma clock_now_sum (tv_sec tv_usec : Z) :
  0 <= tv_usec < 2 ^ 20 →
  clock_now tv_sec tv_usec = tv_sec * 2 ^ 20 + tv_usec.
Proof.
  intros Hu. unfold clock_now.
  assert (Hl : Z.land (Z.shiftl tv_sec 20) tv_usec = 0).
  { apply Z.bits_inj'. intros n Hn. rewrite Z.land_spec, Z.bits_0.
    destruct (Z.lt_ge_cases n 20) as [Hlt|Hge].
    - by rewrite Z.shiftl_spec_low.
    - apply andb_false_intro2.
      destruct (Z.eq_dec tv_usec 0) as [->|Hne]; [apply Z.bits_0|].
      apply Z.bits_above_log2; [lia|].
      apply Z.lt_le_trans with 20; [|done].
      apply Z.log2_lt_pow2; lia. }
  rewrite <- Z.lxor_lor by done. rewrite <- Z.add_nocarry_lxor by done.
  by rewrite Z.shiftl_mul_pow2.
Qed.

(** X15: with the interval [flushInt] as initialised (2^20), [stdout] is
    flushed after a line exactly when at least one second of the time of
    day has passed since [nextFlush] was set: the clock of [clock_now]
    runs 2^20 units per second, but only 10^6 of them within a second. *)
Theorem X15_flush_every_second (liveInp machineReadable : bool)
    (s0 u0 s u : Z) :
  liveInp && machineReadable = false →
  0 <= u0 < 1000000 → 0 <= u < 1000000 →
  (flush_step (flushInt_of liveInp machineReadable)
     (clock_now s0 u0 + flushInt_of liveInp machineReadable)
     (clock_now s u)).2 = true
  ↔ 1000000 <= (s - s0) * 1000000 + (u - u0).
Proof.
  intros Hm Hu0 Hu. unfold flushInt_of, flush_step. rewrite Hm.
  rewrite !clock_now_sum by lia.
  change (Z.shiftl 1 20) with 1048576. change (2 ^ 20) with 1048576.
  destruct (0 <=? _) eqn:H; cbn [snd].
  - apply Z.leb_le in H. split; [lia|done].
  - apply Z.leb_gt in H. split; [done|lia].
Qed.

Lemma X15_flush_every_second_witness :
  (flush_step (flushInt_of true false)
     (clock_now 1525700000 900000 + flushInt_of true false)
     (clock_now 1525700001 900000)).2 = true
  ↔ 1000000 <= (1525700001 - 1525700000) * 1000000 + (900000 - 900000).
Proof.
  apply (X15_flush_every_second true false 1525700000 900000
           1525700001 900000).
  - reflexivity.
  - lia.
  - lia.
Defined.

(** X16: for a live capture with machine-readable output the interval is
    2^20 / 10 = 104857 units: a flush is then due as soon as 104857 us have
    passed, and is never made before 56281 us have passed (the jump of the
    clock at the turn of a second counts for 48576 us). *)
Theorem X16_flush_live_window (liveInp machineReadable : bool)
    (s0 u0 s u : Z) :
  liveInp && machineReadable = true →
  0 <= u0 < 1000000 → 0 <= u < 1000000 →
  ((flush_step (flushInt_of liveInp machineReadable)
      (clock_now s0 u0 + flushInt_of liveInp machineReadable)
      (clock_now s u)).2 = true
   → 56281 <= (s - s0) * 1000000 + (u - u0))
  ∧ (104857 <= (s - s0) * 1000000 + (u - u0)
     → (flush_step (flushInt_of liveInp machineReadable)
          (clock_now s0 u0 + flushInt_of liveInp machineReadable)
          (clock_now s u)).2 = true).
Proof.
  intros Hm Hu0 Hu. unfold flushInt_of, flush_step. rewrite Hm.
  rewrite !clock_now_sum by lia.
  change (Z.quot (Z.shiftl 1 20) 10) with 104857.
  change (2 ^ 20) with 1048576.
  destruct (0 <=? _) eqn:H; cbn [snd].
  - apply Z.leb_le in H. split; [lia|done].
  - apply Z.leb_gt in H. split; [done|lia].
Qed.

Lemma X16_flush_live_window_witness :
  (flush_step (flushInt_of true true)
     (clock_now 1525700000 950000 + flushInt_of true true)
     (clock_now 1525700001 10000)).2 = true
  ∧ 56281 <= (1525700001 - 1525700000) * 1000000 + (10000 - 950000).
Proof.
  split; [reflexivity|].
  apply (X16_flush_live_window true true 1525700000 950000 1525700001 10000).
  - reflexivity.
  - lia.
  - lia.
  - reflexivity.
Defined.

(** ** The local address *)

Lemma localAddrOf_skip render ifname pre rest :
  Forall (other_family ifname) pre →
  localAddrOf_list render ifname (pre ++ rest)
  = localAddrOf_list render ifname rest.
Proof.
  induction pre as [|e pre IH]; intros Hpre; [done|].
  apply Forall_cons in Hpre as [He Hpre]. cbn [app localAddrOf_list].
  case_bool_decide as Hn; [|by apply IH].
  destruct (He (eq_sym Hn)) as (family & ip & -> & Hf).
  apply Z.eqb_neq in Hf. rewrite Hf. by apply IH.
Qed.

(** X18: [localAddrOf] gives the address of the first entry that has the
    name of the interface and the family [AF_INET], whatever follows it,
    when the entries of that name before it have an address of another
    family; and the empty string when the list has no such entry or
    [getifaddrs] fails. *)
Theorem X18_localAddrOf_first_ipv4 (render : Z → string) (ifname : string)
    (pre post : list ifaddrs) (e : ifaddrs) (ip : Z) :
  Forall (other_family ifname) pre →
  ifa_name e = ifname → ifa_addr e = Some (AF_INET, ip) →
  localAddrOf render ifname (Some (pre ++ e :: post)) = Some (render ip)
  ∧ localAddrOf render ifname (Some pre) = Some ""
  ∧ localAddrOf render ifname None = Some "".
Proof.
  intros Hpre Hn Ha. cbn [localAddrOf]. split; [|split; [|done]].
  - rewrite localAddrOf_skip by done. cbn [localAddrOf_list].
    rewrite bool_decide_eq_true_2 by done. by rewrite Ha.
  - rewrite <- (app_nil_r pre). by rewrite localAddrOf_skip.
Qed.

Lemma X18_localAddrOf_first_ipv4_witness :
  localAddrOf (λ ip, if ip =? 16777226 then hostA else hostB) "eth0"
    (Some ([ {| ifa_name := "lo"; ifa_addr := Some (AF_INET, 16777343) |};
             {| ifa_name := "eth0"; ifa_addr := Some (17, 0) |} ]
           ++ {| ifa_name := "eth0"; ifa_addr := Some (AF_INET, 16777226) |}
           :: [ {| ifa_name := "eth0";
                   ifa_addr := Some (AF_INET, 33554442) |} ]))
  = Some hostA.
Proof.
  apply (X18_localAddrOf_first_ipv4
           (λ ip, if ip =? 16777226 then hostA else hostB) "eth0"
           [ {| ifa_name := "lo"; ifa_addr := Some (AF_INET, 16777343) |};
             {| ifa_name := "eth0"; ifa_addr := Some (17, 0) |} ]
           [ {| ifa_name := "eth0"; ifa_addr := Some (AF_INET, 33554442) |} ]
           {| ifa_name := "eth0"; ifa_addr := Some (AF_INET, 16777226) |}
           16777226).
  - repeat constructor.
    + intros H. discriminate H.
    + intros _. exists 17, 0. split; [reflexivity|]. intros H. discriminate H.
  - reflexivity.
  - reflexivity.
Defined.

(** X19: [localAddrOf] reads [ifa_addr->sa_family] of every entry with the
    name of the interface up to the first [AF_INET] one: when such an
    entry has a null [ifa_addr] (an interface without address), the
    function dereferences the null pointer. *)
Theorem X19_localAddrOf_null_address (render : Z → string) (ifname : string)
    (pre post : list ifaddrs) (e : ifaddrs) :
  Forall (other_family ifname) pre →
  ifa_name e = ifname → ifa_addr e = None →
  localAddrOf render ifname (Some (pre ++ e :: post)) = None.
Proof.
  intros Hpre Hn Ha. cbn [localAddrOf].
  rewrite localAddrOf_skip by done. cbn [localAddrOf_list].
  rewrite bool_decide_eq_true_2 by done. by rewrite Ha.
Qed.

Lemma X19_localAddrOf_null_address_witness :
  localAddrOf (λ _, hostA) "tun0"
    (Some ([ {| ifa_name := "lo"; ifa_addr := Some (AF_INET, 16777343) |} ]
           ++ {| ifa_name := "tun0"; ifa_addr := None |}
           :: [ {| ifa_name := "tun0";
                   ifa_addr := Some (AF_INET, 16777226) |} ]))
  = None.
Proof.
  apply (X19_localAddrOf_null_address (λ _, hostA) "tun0"
           [ {| ifa_name := "lo"; ifa_addr := Some (AF_INET, 16777343) |} ]
           [ {| ifa_name := "tun0"; ifa_addr := Some (AF_INET, 16777226) |} ]
           {| ifa_name := "tun0"; ifa_addr := None |}).
  - repeat constructor. intros H. discriminate H.
  - reflexivity.
  - reflexivity.
Defined.

(** ** The command line *)

Lemma append_assoc (s1 s2 s3 : string) :
  (s1 +:+ s2) +:+ s3 = s1 +:+ (s2 +:+ s3).
Proof.
  induction s1 as [|c s1 IH]; [done|].
  change (String c ((s1 +:+ s2) +:+ s3) = String c (s1 +:+ (s2 +:+ s3))).
  by f_equal.
Qed.

Lemma append_nil_r (s : string) : s +:+ "" = s.
Proof.
  induction s as [|c s IH]; [done|].
  change (String c (s +:+ "") = String c s). by f_equal.
Qed.

Lemma parse_opts_filter opts : ∀ s s',
  parse_opts s opts = Some s' →
  s_filter s' = s_filter s +:+ filter_suffix opts.
Proof.
  induction opts as [|o opts IH]; intros s s' H.
  - injection H as <-. by rewrite append_nil_r.
  - cbn [parse_opts] in H.
    destruct (apply_opt s o) as [s1|] eqn:Ho; [|done].
    rewrite (IH _ _ H).
    destruct o; cbn [apply_opt] in Ho; try discriminate Ho;
      injection Ho as <-; cbn [filter_suffix s_filter]; try done.
    by rewrite append_assoc.
Qed.

(** X20: the capture filter [main] hands to the sniffer is [tcp] with
    every [-f] expression of the command line and-ed to it in parentheses,
    in the order given: no option replaces the filter or drops [tcp]. *)
Theorem X20_filter_keeps_tcp (argc : Z) (opts : list Opt) (leftover : bool)
    (s : Settings) :
  start argc opts leftover = Proceed s →
  s_filter s = "tcp" +:+ filter_suffix opts.
Proof.
  unfold start. destruct (argc <=? 1); [done|].
  destruct (parse_opts init_settings opts) as [s1|] eqn:Hp; [|done].
  destruct (_ || _); [done|]. intros [= <-].
  by rewrite (parse_opts_filter _ _ _ Hp).
Qed.

Lemma X20_filter_keeps_tcp_witness :
  ∃ s, start 5 [Opt_f "port 80"; Opt_r "x.pcap"; Opt_f "host 10.0.0.1"] false
       = Proceed s
       ∧ s_filter s = "tcp and (port 80) and (host 10.0.0.1)".
Proof.
  eexists. split; [reflexivity|].
  apply (X20_filter_keeps_tcp 5
           [Opt_f "port 80"; Opt_r "x.pcap"; Opt_f "host 10.0.0.1"] false).
  reflexivity.
Defined.

Lemma parse_opts_help opts : ∀ s,
  parse_opts s opts = None ↔ Opt_h ∈ opts.
Proof.
  induction opts as [|o opts IH]; intros s.
  - split; [done|]. by intros ?%elem_of_nil.
  - cbn [parse_opts]. rewrite elem_of_cons.
    destruct (apply_opt s o) as [s1|] eqn:Ho.
    + rewrite IH. split; [by right|]. intros [<-|?]; [|done].
      cbn [apply_opt] in Ho. discriminate Ho.
    + split; [|done]. intros _. left.
      by destruct o; cbn [apply_opt] in Ho.
Qed.

(** X21: how the start of [main] can end.  It exits with status 0 exactly
    when there is an argument and [-h] is among the options, whatever else
    is wrong with the command line; it goes on to open the capture only
    with a name from [-i] or [-r], no argument left over and no [-h]. *)
Theorem X21_start_exits (argc : Z) (opts : list Opt) (leftover : bool) :
  (start argc opts leftover = Exit 0 ↔ 1 < argc ∧ Opt_h ∈ opts)
  ∧ (∀ s, start argc opts leftover = Proceed s →
          1 < argc ∧ (Opt_h ∉ opts) ∧ leftover = false ∧ s_fname s ≠ ""
          ∧ parse_opts init_settings opts = Some s)
  ∧ (∀ c, start argc opts leftover = Exit c → c = 0 ∨ c = 1).
Proof.
  unfold start. destruct (argc <=? 1) eqn:Ha;
    [apply Z.leb_le in Ha|apply Z.leb_gt in Ha].
  { split; [|split]; [split; [done|lia]|done|]. intros c [= <-]. by right. }
  pose proof (parse_opts_help opts init_settings) as Hh.
  destruct (parse_opts init_settings opts) as [s1|] eqn:Hp.
  - assert (Hn : Opt_h ∉ opts) by (intros H; by apply Hh in H).
    destruct leftover; cbn [orb].
    + split; [|split]; [split; [done|by intros [_ ?]]|done|].
      intros c [= <-]. by right.
    + case_bool_decide as Hf.
      * split; [|split]; [split; [done|by intros [_ ?]]|done|].
        intros c [= <-]. by right.
      * split; [|split]; [split; [done|by intros [_ ?]]| |done].
        intros s [= <-]. done.
  - split; [|split]; [split; [intros _; split; [lia|by apply Hh]|done]|done|].
    intros c [= <-]. by left.
Qed.

Lemma parse_opts_live opts : ∀ s s',
  parse_opts s opts = Some s' →
  (s_liveInp s' = true ↔ s_liveInp s = true ∨ ∃ n, Opt_i n ∈ opts).
Proof.
  induction opts as [|o opts IH]; intros s s' H.
  - injection H as <-. split; [by left|].
    intros [?|[n ?%elem_of_nil]]; done.
  - cbn [parse_opts] in H.
    destruct (apply_opt s o) as [s1|] eqn:Ho; [|done].
    rewrite (IH _ _ H).
    assert (Hs : s_liveInp s1 = true
                 ↔ s_liveInp s = true ∨ ∃ n, o = Opt_i n).
    { destruct o; cbn [apply_opt] in Ho; try discriminate Ho;
        injection Ho as <-; cbn [s_liveInp];
        (split; [intros ?; first [by left|by right; eexists]
                |intros [?|[n ?]]; done]). }
    rewrite Hs. split.
    + intros [[?|[n ->]]|[n Hn]]; [by left| |].
      * right. exists n. apply elem_of_cons. by left.
      * right. exists n. apply elem_of_cons. by right.
    + intros [?|[n [<-|Hn]%elem_of_cons]].
      * by left; left.
      * left; right. by exists n.
      * right. by exists n.
Qed.

(** X22: [-i] marks the input as live for good: after the options the
    input is live exactly when some [-i] was given, also when a later
    [-r] has replaced the name, which is then opened as an interface. *)
Theorem X22_live_flag_sticky (argc : Z) (opts : list Opt) (leftover : bool)
    (s : Settings) :
  start argc opts leftover = Proceed s →
  (s_liveInp s = true ↔ ∃ n, Opt_i n ∈ opts).
Proof.
  unfold start. destruct (argc <=? 1); [done|].
  destruct (parse_opts init_settings opts) as [s1|] eqn:Hp; [|done].
  destruct (_ || _); [done|]. intros [= <-].
  rewrite (parse_opts_live _ _ _ Hp). cbn [init_settings s_liveInp].
  split; [by intros [?|?]|by right].
Qed.

Lemma X22_live_flag_sticky_witness :
  ∃ s, start 5 [Opt_i "eth0"; Opt_r "x.pcap"] false = Proceed s
       ∧ s_fname s = "x.pcap"
       ∧ (s_liveInp s = true ↔ ∃ n, Opt_i n ∈ [Opt_i "eth0"; Opt_r "x.pcap"]).
Proof.
  eexists. split; [reflexivity|]. split; [reflexivity|].
  apply (X22_live_flag_sticky 5 [Opt_i "eth0"; Opt_r "x.pcap"] false).
  reflexivity.
Defined.

(** ** The local filter after start-up *)

(** X23: which packets the local filter blocks, by the command line: in a
    live capture with the filter on ([-l] not given) and a local address
    found, those sent to that address; when reading a file, where
    [filtLocal] stays set with an empty [localIP], only a packet whose
    destination prints as the empty string; none otherwise. *)
Theorem X23_local_filter_by_input (s : Settings) (local : string) (h : Hdr) :
  local_blocked (config_of s local) h = true
  ↔ (s_liveInp s = true ∧ s_filtLocal s = true ∧ local ≠ ""
     ∧ ipdstr h = local)
    ∨ (s_liveInp s = false ∧ s_filtLocal s = true ∧ ipdstr h = "").
Proof.
  unfold local_blocked, config_of, local_setup. cbn [filtLocal localIP].
  destruct (s_liveInp s), (s_filtLocal s); cbn [fst snd andb].
  - case_bool_decide as Hl; cbn [negb andb].
    + split; [done|]. intros [(_ & _ & ? & _)|(? & _)]; done.
    + rewrite bool_decide_eq_true. split.
      * intros <-. left. done.
      * intros [(_ & _ & _ & ->)|(? & _)]; done.
  - split; [done|]. intros [(_ & ? & _)|(? & _)]; done.
  - rewrite bool_decide_eq_true. split.
    + intros <-. by right.
    + intros [(? & _)|(_ & _ & ->)]; done.
  - split; [done|]. intros [(? & _)|(_ & ? & _)]; done.
Qed.

(** ** New flows *)

(** X24: with more than [maxFlows] flows in the table, a packet of a flow
    that has no record is dropped once the clock is set: it is counted in
    [pktCnt] only, prints nothing and leaves the three tables alone; the
    packets of the flows that have a record are classified as before. *)
Theorem X24_full_table_drops_new_flows (cfg : Config) (st : State)
    (pkt : Packet) (h : Hdr) (t : TCP) :
  parses pkt h t → maxFlows cfg < flowCnt st →
  (flows st !! fstr_of h t = None →
     (processPacket cfg st pkt).2 = None
     ∧ flows (processPacket cfg st pkt).1 = flows st
     ∧ tsTbl (processPacket cfg st pkt).1 = tsTbl st
     ∧ seqTbl (processPacket cfg st pkt).1 = seqTbl st
     ∧ flowCnt (processPacket cfg st pkt).1 = flowCnt st
     ∧ capTm (processPacket cfg st pkt).1 = (stamp st pkt).2
     ∧ pktCnt (processPacket cfg st pkt).1 = pktCnt st + 1
     ∧ uniDir (processPacket cfg st pkt).1 = uniDir st
     ∧ no_TS (processPacket cfg st pkt).1 = no_TS st)
  ∧ (∀ fr, flows st !! fstr_of h t = Some fr →
       classify cfg st pkt
       = ((classified cfg st pkt h t (flows st) (flowCnt st) fr).1,
          Classified (classified cfg st pkt h t (flows st) (flowCnt st) fr).2)).
Proof.
  intros Hp Hfull. split.
  - intros Hnew. destruct Hp as [Ht Hh].
    unfold processPacket, classify. rewrite Ht, Hh.
    by rewrite (acquire_full _ _ _ _ _ Hnew Hfull).
  - intros fr Hfr. apply classify_Classified; [done|].
    by apply acquire_existing.
Qed.

Lemma X24_full_table_drops_new_flows_witness :
  (processPacket one_flow_config one_flow_st synack_pkt).2 = None
  ∧ flows (processPacket one_flow_config one_flow_st synack_pkt).1
    = flows one_flow_st.
Proof.
  destruct (X24_full_table_drops_new_flows one_flow_config one_flow_st
              synack_pkt synack_hdr synack_tcp) as [H _].
  - split; reflexivity.
  - vm_compute. reflexivity.
  - destruct H as (H1 & H2 & _); [vm_refl|]. by split.
Defined.

(** X25: the first packet of the reverse of a known flow marks both flows
    as bidirectional: its own record, which it creates, and the record of
    the known flow; it is not counted as one-directional. *)
Theorem X25_reverse_marks_both (cfg : Config) (st : State) (pkt : Packet)
    (h : Hdr) (t : TCP) (r0 : flowRec) :
  parses pkt h t → flowCnt st <= maxFlows cfg →
  flows st !! fstr_of h t = None → flows st !! rstr_of h t = Some r0 →
  (∃ fr, flows (processPacket cfg st pkt).1 !! fstr_of h t = Some fr
         ∧ revFlow fr = true)
  ∧ flows (processPacket cfg st pkt).1 !! rstr_of h t
    = Some (set_revFlow r0)
  ∧ flowCnt (processPacket cfg st pkt).1 = flowCnt st + 1
  ∧ uniDir (processPacket cfg st pkt).1 = uniDir st.
Proof.
  intros Hp Hcnt Hnew Hrev.
  assert (Hne : fstr_of h t ≠ rstr_of h t) by congruence.
  assert (Ha : acquired cfg st h t
                 (<[fstr_of h t := set_revFlow (new_flowRec (fstr_of h t))]>
                    (<[rstr_of h t := set_revFlow r0]>
                       (<[fstr_of h t := new_flowRec (fstr_of h t)]>
                          (flows st))))
                 (flowCnt st + 1) (set_revFlow (new_flowRec (fstr_of h t)))).
  { unfold acquired, acquire. rewrite Hnew.
    assert (Hc : (maxFlows cfg <? flowCnt st) = false) by (apply Z.ltb_ge; lia).
    rewrite Hc. rewrite lookup_insert_ne by done. by rewrite Hrev. }
  unfold processPacket. rewrite (classify_Classified _ _ _ _ _ _ _ _ Hp Ha).
  cbn [fst]. unfold classified.
  cbn [fst flows flowCnt uniDir set_revFlow revFlow].
  split; [|split; [|done]].
  - eexists. rewrite lookup_insert_eq. split; [done|]. done.
  - rewrite lookup_insert_ne by done. rewrite lookup_insert_ne by done.
    by rewrite lookup_insert_eq.
Qed.

Lemma X25_reverse_marks_both_witness :
  ∃ r0, flows syn_st !! rstr_of synack_hdr synack_tcp = Some r0
        ∧ revFlow r0 = false
        ∧ flows (processPacket default_config syn_st synack_pkt).1
          !! rstr_of synack_hdr synack_tcp = Some (set_revFlow r0).
Proof.
  eexists. split; [vm_compute; reflexivity|]. split; [reflexivity|].
  apply (X25_reverse_marks_both default_config syn_st synack_pkt
           synack_hdr synack_tcp).
  - split; reflexivity.
  - vm_compute. discriminate.
  - vm_refl.
  - vm_refl.
Defined.
